(** * dcorejs: key utilities, memo cipher and multi-key memo scanner

    A shallow embedding of the parts of dcorejs that deal with keys and
    memos:

    - [TransactionMemo.decryptedMessage] (model/account),
    - [Utils.normalize], [Utils.generateKeys], [Utils.derivePrivateKey],
      [Utils.privateKeyFromWif], [Utils.publicKeyFromString],
      [Utils.elGamalPublic], [Utils.elGamalPrivate] (utils),
    - the memo cipher of [CryptoUtils] (crypt), which is described by the
      specification only.

    JavaScript exceptions are modelled by the [result] type: a computation
    either returns a value ([Ok]) or throws ([Throw]).  A [try]/[catch]
    block is [try_catch].  A brain key goes through the string built-ins
    [trim], [toUpperCase], [split] and [join]: it is a sequence of UTF-16
    code units ([JSString.t]), and the built-ins are modelled on code units
    and code points as ECMAScript defines them.  The strings that the
    modelled code only passes on, compares or hands to a parser (key
    strings, memos, messages) are kept as [string]. *)

From Stdlib Require Import ZArith NArith PArith List String Ascii Bool Lia.
From Stdlib Require Import Znumtheory Zpow_facts DecimalString DecimalPos DecimalZ.
Import ListNotations.

Local Open Scope string_scope.

(* ================================================================== *)
(** * Exceptions *)
(* ================================================================== *)

(** A thrown value: every [throw] of the modelled code is
    [throw new Error(msg)]. *)
Inductive exn : Type :=
| Error (msg : string).

Inductive result (A : Type) : Type :=
| Ok (a : A)
| Throw (e : exn).

Arguments Ok {A} a.
Arguments Throw {A} e.

Definition bind {A B : Type} (c : result A) (k : A -> result B) : result B :=
  match c with
  | Ok a => k a
  | Throw e => Throw e
  end.

(** [try { c } catch (err) { h err }] *)
Definition try_catch {A : Type} (c : result A) (h : exn -> result A) : result A :=
  match c with
  | Ok a => Ok a
  | Throw e => h e
  end.

Declare Scope result_scope.
Delimit Scope result_scope with result.
Notation "x <- c ;; k" := (bind c (fun x => k))
  (at level 61, c at next level, right associativity) : result_scope.
Local Open Scope result_scope.

(** [Array.prototype.forEach] with a callback that updates the local
    variables captured by its closure: the captured state is threaded
    through the calls, and an exception escaping a call aborts the loop. *)
Fixpoint forEach {A S : Type} (callback : S -> A -> result S)
         (l : list A) (s : S) : result S :=
  match l with
  | [] => Ok s
  | x :: l' => s' <- callback s x ;; forEach callback l' s'
  end.

(* ================================================================== *)
(** * Unicode case conversion *)
(* ================================================================== *)

(** [String.prototype.toUpperCase] converts a string by the
    locale-insensitive upper-case mappings of the Unicode Character
    Database.  Code points are numbers. *)
Module Unicode.

(** The code points whose upper-case mapping is not the code point itself,
    each with its mapping: the field [Simple_Uppercase_Mapping] of
    [UnicodeData.txt], replaced by the mapping of [SpecialCasing.txt] where
    that file has an unconditional entry (Unicode 14.0). *)
Definition uppercaseTable : list (N * list N) :=
  [
   (0x61, [0x41]); (0x62, [0x42]); (0x63, [0x43]); (0x64, [0x44]);
   (0x65, [0x45]); (0x66, [0x46]); (0x67, [0x47]); (0x68, [0x48]);
   (0x69, [0x49]); (0x6A, [0x4A]); (0x6B, [0x4B]); (0x6C, [0x4C]);
   (0x6D, [0x4D]); (0x6E, [0x4E]); (0x6F, [0x4F]); (0x70, [0x50]);
   (0x71, [0x51]); (0x72, [0x52]); (0x73, [0x53]); (0x74, [0x54]);
   (0x75, [0x55]); (0x76, [0x56]); (0x77, [0x57]); (0x78, [0x58]);
   (0x79, [0x59]); (0x7A, [0x5A]); (0xB5, [0x39C]); (0xDF, [0x53; 0x53]);
   (0xE0, [0xC0]); (0xE1, [0xC1]); (0xE2, [0xC2]); (0xE3, [0xC3]);
   (0xE4, [0xC4]); (0xE5, [0xC5]); (0xE6, [0xC6]); (0xE7, [0xC7]);
   (0xE8, [0xC8]); (0xE9, [0xC9]); (0xEA, [0xCA]); (0xEB, [0xCB]);
   (0xEC, [0xCC]); (0xED, [0xCD]); (0xEE, [0xCE]); (0xEF, [0xCF]);
   (0xF0, [0xD0]); (0xF1, [0xD1]); (0xF2, [0xD2]); (0xF3, [0xD3]);
   (0xF4, [0xD4]); (0xF5, [0xD5]); (0xF6, [0xD6]); (0xF8, [0xD8]);
   (0xF9, [0xD9]); (0xFA, [0xDA]); (0xFB, [0xDB]); (0xFC, [0xDC]);
   (0xFD, [0xDD]); (0xFE, [0xDE]); (0xFF, [0x178]); (0x101, [0x100]);
   (0x103, [0x102]); (0x105, [0x104]); (0x107, [0x106]); (0x109, [0x108]);
   (0x10B, [0x10A]); (0x10D, [0x10C]); (0x10F, [0x10E]); (0x111, [0x110]);
   (0x113, [0x112]); (0x115, [0x114]); (0x117, [0x116]); (0x119, [0x118]);
   (0x11B, [0x11A]); (0x11D, [0x11C]); (0x11F, [0x11E]); (0x121, [0x120]);
   (0x123, [0x122]); (0x125, [0x124]); (0x127, [0x126]); (0x129, [0x128]);
   (0x12B, [0x12A]); (0x12D, [0x12C]); (0x12F, [0x12E]); (0x131, [0x49]);
   (0x133, [0x132]); (0x135, [0x134]); (0x137, [0x136]); (0x13A, [0x139]);
   (0x13C, [0x13B]); (0x13E, [0x13D]); (0x140, [0x13F]); (0x142, [0x141]);
   (0x144, [0x143]); (0x146, [0x145]); (0x148, [0x147]);
   (0x149, [0x2BC; 0x4E]); (0x14B, [0x14A]); (0x14D, [0x14C]);
   (0x14F, [0x14E]); (0x151, [0x150]); (0x153, [0x152]); (0x155, [0x154]);
   (0x157, [0x156]); (0x159, [0x158]); (0x15B, [0x15A]); (0x15D, [0x15C]);
   (0x15F, [0x15E]); (0x161, [0x160]); (0x163, [0x162]); (0x165, [0x164]);
   (0x167, [0x166]); (0x169, [0x168]); (0x16B, [0x16A]); (0x16D, [0x16C]);
   (0x16F, [0x16E]); (0x171, [0x170]); (0x173, [0x172]); (0x175, [0x174]);
   (0x177, [0x176]); (0x17A, [0x179]); (0x17C, [0x17B]); (0x17E, [0x17D]);
   (0x17F, [0x53]); (0x180, [0x243]); (0x183, [0x182]); (0x185, [0x184]);
   (0x188, [0x187]); (0x18C, [0x18B]); (0x192, [0x191]); (0x195, [0x1F6]);
   (0x199, [0x198]); (0x19A, [0x23D]); (0x19E, [0x220]); (0x1A1, [0x1A0]);
   (0x1A3, [0x1A2]); (0x1A5, [0x1A4]); (0x1A8, [0x1A7]); (0x1AD, [0x1AC]);
   (0x1B0, [0x1AF]); (0x1B4, [0x1B3]); (0x1B6, [0x1B5]); (0x1B9, [0x1B8]);
   (0x1BD, [0x1BC]); (0x1BF, [0x1F7]); (0x1C5, [0x1C4]); (0x1C6, [0x1C4]);
   (0x1C8, [0x1C7]); (0x1C9, [0x1C7]); (0x1CB, [0x1CA]); (0x1CC, [0x1CA]);
   (0x1CE, [0x1CD]); (0x1D0, [0x1CF]); (0x1D2, [0x1D1]); (0x1D4, [0x1D3]);
   (0x1D6, [0x1D5]); (0x1D8, [0x1D7]); (0x1DA, [0x1D9]); (0x1DC, [0x1DB]);
   (0x1DD, [0x18E]); (0x1DF, [0x1DE]); (0x1E1, [0x1E0]); (0x1E3, [0x1E2]);
   (0x1E5, [0x1E4]); (0x1E7, [0x1E6]); (0x1E9, [0x1E8]); (0x1EB, [0x1EA]);
   (0x1ED, [0x1EC]); (0x1EF, [0x1EE]); (0x1F0, [0x4A; 0x30C]);
   (0x1F2, [0x1F1]); (0x1F3, [0x1F1]); (0x1F5, [0x1F4]); (0x1F9, [0x1F8]);
   (0x1FB, [0x1FA]); (0x1FD, [0x1FC]); (0x1FF, [0x1FE]); (0x201, [0x200]);
   (0x203, [0x202]); (0x205, [0x204]); (0x207, [0x206]); (0x209, [0x208]);
   (0x20B, [0x20A]); (0x20D, [0x20C]); (0x20F, [0x20E]); (0x211, [0x210]);
   (0x213, [0x212]); (0x215, [0x214]); (0x217, [0x216]); (0x219, [0x218]);
   (0x21B, [0x21A]); (0x21D, [0x21C]); (0x21F, [0x21E]); (0x223, [0x222]);
   (0x225, [0x224]); (0x227, [0x226]); (0x229, [0x228]); (0x22B, [0x22A]);
   (0x22D, [0x22C]); (0x22F, [0x22E]); (0x231, [0x230]); (0x233, [0x232]);
   (0x23C, [0x23B]); (0x23F, [0x2C7E]); (0x240, [0x2C7F]); (0x242, [0x241]);
   (0x247, [0x246]); (0x249, [0x248]); (0x24B, [0x24A]); (0x24D, [0x24C]);
   (0x24F, [0x24E]); (0x250, [0x2C6F]); (0x251, [0x2C6D]); (0x252, [0x2C70]);
   (0x253, [0x181]); (0x254, [0x186]); (0x256, [0x189]); (0x257, [0x18A]);
   (0x259, [0x18F]); (0x25B, [0x190]); (0x25C, [0xA7AB]); (0x260, [0x193]);
   (0x261, [0xA7AC]); (0x263, [0x194]); (0x265, [0xA78D]); (0x266, [0xA7AA]);
   (0x268, [0x197]); (0x269, [0x196]); (0x26A, [0xA7AE]); (0x26B, [0x2C62]);
   (0x26C, [0xA7AD]); (0x26F, [0x19C]); (0x271, [0x2C6E]); (0x272, [0x19D]);
   (0x275, [0x19F]); (0x27D, [0x2C64]); (0x280, [0x1A6]); (0x282, [0xA7C5]);
   (0x283, [0x1A9]); (0x287, [0xA7B1]); (0x288, [0x1AE]); (0x289, [0x244]);
   (0x28A, [0x1B1]); (0x28B, [0x1B2]); (0x28C, [0x245]); (0x292, [0x1B7]);
   (0x29D, [0xA7B2]); (0x29E, [0xA7B0]); (0x345, [0x399]); (0x371, [0x370]);
   (0x373, [0x372]); (0x377, [0x376]); (0x37B, [0x3FD]); (0x37C, [0x3FE]);
   (0x37D, [0x3FF]); (0x390, [0x399; 0x308; 0x301]); (0x3AC, [0x386]);
   (0x3AD, [0x388]); (0x3AE, [0x389]); (0x3AF, [0x38A]);
   (0x3B0, [0x3A5; 0x308; 0x301]); (0x3B1, [0x391]); (0x3B2, [0x392]);
   (0x3B3, [0x393]); (0x3B4, [0x394]); (0x3B5, [0x395]); (0x3B6, [0x396]);
   (0x3B7, [0x397]); (0x3B8, [0x398]); (0x3B9, [0x399]); (0x3BA, [0x39A]);
   (0x3BB, [0x39B]); (0x3BC, [0x39C]); (0x3BD, [0x39D]); (0x3BE, [0x39E]);
   (0x3BF, [0x39F]); (0x3C0, [0x3A0]); (0x3C1, [0x3A1]); (0x3C2, [0x3A3]);
   (0x3C3, [0x3A3]); (0x3C4, [0x3A4]); (0x3C5, [0x3A5]); (0x3C6, [0x3A6]);
   (0x3C7, [0x3A7]); (0x3C8, [0x3A8]); (0x3C9, [0x3A9]); (0x3CA, [0x3AA]);
   (0x3CB, [0x3AB]); (0x3CC, [0x38C]); (0x3CD, [0x38E]); (0x3CE, [0x38F]);
   (0x3D0, [0x392]); (0x3D1, [0x398]); (0x3D5, [0x3A6]); (0x3D6, [0x3A0]);
   (0x3D7, [0x3CF]); (0x3D9, [0x3D8]); (0x3DB, [0x3DA]); (0x3DD, [0x3DC]);
   (0x3DF, [0x3DE]); (0x3E1, [0x3E0]); (0x3E3, [0x3E2]); (0x3E5, [0x3E4]);
   (0x3E7, [0x3E6]); (0x3E9, [0x3E8]); (0x3EB, [0x3EA]); (0x3ED, [0x3EC]);
   (0x3EF, [0x3EE]); (0x3F0, [0x39A]); (0x3F1, [0x3A1]); (0x3F2, [0x3F9]);
   (0x3F3, [0x37F]); (0x3F5, [0x395]); (0x3F8, [0x3F7]); (0x3FB, [0x3FA]);
   (0x430, [0x410]); (0x431, [0x411]); (0x432, [0x412]); (0x433, [0x413]);
   (0x434, [0x414]); (0x435, [0x415]); (0x436, [0x416]); (0x437, [0x417]);
   (0x438, [0x418]); (0x439, [0x419]); (0x43A, [0x41A]); (0x43B, [0x41B]);
   (0x43C, [0x41C]); (0x43D, [0x41D]); (0x43E, [0x41E]); (0x43F, [0x41F]);
   (0x440, [0x420]); (0x441, [0x421]); (0x442, [0x422]); (0x443, [0x423]);
   (0x444, [0x424]); (0x445, [0x425]); (0x446, [0x426]); (0x447, [0x427]);
   (0x448, [0x428]); (0x449, [0x429]); (0x44A, [0x42A]); (0x44B, [0x42B]);
   (0x44C, [0x42C]); (0x44D, [0x42D]); (0x44E, [0x42E]); (0x44F, [0x42F]);
   (0x450, [0x400]); (0x451, [0x401]); (0x452, [0x402]); (0x453, [0x403]);
   (0x454, [0x404]); (0x455, [0x405]); (0x456, [0x406]); (0x457, [0x407]);
   (0x458, [0x408]); (0x459, [0x409]); (0x45A, [0x40A]); (0x45B, [0x40B]);
   (0x45C, [0x40C]); (0x45D, [0x40D]); (0x45E, [0x40E]); (0x45F, [0x40F]);
   (0x461, [0x460]); (0x463, [0x462]); (0x465, [0x464]); (0x467, [0x466]);
   (0x469, [0x468]); (0x46B, [0x46A]); (0x46D, [0x46C]); (0x46F, [0x46E]);
   (0x471, [0x470]); (0x473, [0x472]); (0x475, [0x474]); (0x477, [0x476]);
   (0x479, [0x478]); (0x47B, [0x47A]); (0x47D, [0x47C]); (0x47F, [0x47E]);
   (0x481, [0x480]); (0x48B, [0x48A]); (0x48D, [0x48C]); (0x48F, [0x48E]);
   (0x491, [0x490]); (0x493, [0x492]); (0x495, [0x494]); (0x497, [0x496]);
   (0x499, [0x498]); (0x49B, [0x49A]); (0x49D, [0x49C]); (0x49F, [0x49E]);
   (0x4A1, [0x4A0]); (0x4A3, [0x4A2]); (0x4A5, [0x4A4]); (0x4A7, [0x4A6]);
   (0x4A9, [0x4A8]); (0x4AB, [0x4AA]); (0x4AD, [0x4AC]); (0x4AF, [0x4AE]);
   (0x4B1, [0x4B0]); (0x4B3, [0x4B2]); (0x4B5, [0x4B4]); (0x4B7, [0x4B6]);
   (0x4B9, [0x4B8]); (0x4BB, [0x4BA]); (0x4BD, [0x4BC]); (0x4BF, [0x4BE]);
   (0x4C2, [0x4C1]); (0x4C4, [0x4C3]); (0x4C6, [0x4C5]); (0x4C8, [0x4C7]);
   (0x4CA, [0x4C9]); (0x4CC, [0x4CB]); (0x4CE, [0x4CD]); (0x4CF, [0x4C0]);
   (0x4D1, [0x4D0]); (0x4D3, [0x4D2]); (0x4D5, [0x4D4]); (0x4D7, [0x4D6]);
   (0x4D9, [0x4D8]); (0x4DB, [0x4DA]); (0x4DD, [0x4DC]); (0x4DF, [0x4DE]);
   (0x4E1, [0x4E0]); (0x4E3, [0x4E2]); (0x4E5, [0x4E4]); (0x4E7, [0x4E6]);
   (0x4E9, [0x4E8]); (0x4EB, [0x4EA]); (0x4ED, [0x4EC]); (0x4EF, [0x4EE]);
   (0x4F1, [0x4F0]); (0x4F3, [0x4F2]); (0x4F5, [0x4F4]); (0x4F7, [0x4F6]);
   (0x4F9, [0x4F8]); (0x4FB, [0x4FA]); (0x4FD, [0x4FC]); (0x4FF, [0x4FE]);
   (0x501, [0x500]); (0x503, [0x502]); (0x505, [0x504]); (0x507, [0x506]);
   (0x509, [0x508]); (0x50B, [0x50A]); (0x50D, [0x50C]); (0x50F, [0x50E]);
   (0x511, [0x510]); (0x513, [0x512]); (0x515, [0x514]); (0x517, [0x516]);
   (0x519, [0x518]); (0x51B, [0x51A]); (0x51D, [0x51C]); (0x51F, [0x51E]);
   (0x521, [0x520]); (0x523, [0x522]); (0x525, [0x524]); (0x527, [0x526]);
   (0x529, [0x528]); (0x52B, [0x52A]); (0x52D, [0x52C]); (0x52F, [0x52E]);
   (0x561, [0x531]); (0x562, [0x532]); (0x563, [0x533]); (0x564, [0x534]);
   (0x565, [0x535]); (0x566, [0x536]); (0x567, [0x537]); (0x568, [0x538]);
   (0x569, [0x539]); (0x56A, [0x53A]); (0x56B, [0x53B]); (0x56C, [0x53C]);
   (0x56D, [0x53D]); (0x56E, [0x53E]); (0x56F, [0x53F]); (0x570, [0x540]);
   (0x571, [0x541]); (0x572, [0x542]); (0x573, [0x543]); (0x574, [0x544]);
   (0x575, [0x545]); (0x576, [0x546]); (0x577, [0x547]); (0x578, [0x548]);
   (0x579, [0x549]); (0x57A, [0x54A]); (0x57B, [0x54B]); (0x57C, [0x54C]);
   (0x57D, [0x54D]); (0x57E, [0x54E]); (0x57F, [0x54F]); (0x580, [0x550]);
   (0x581, [0x551]); (0x582, [0x552]); (0x583, [0x553]); (0x584, [0x554]);
   (0x585, [0x555]); (0x586, [0x556]); (0x587, [0x535; 0x552]);
   (0x10D0, [0x1C90]); (0x10D1, [0x1C91]); (0x10D2, [0x1C92]);
   (0x10D3, [0x1C93]); (0x10D4, [0x1C94]); (0x10D5, [0x1C95]);
   (0x10D6, [0x1C96]); (0x10D7, [0x1C97]); (0x10D8, [0x1C98]);
   (0x10D9, [0x1C99]); (0x10DA, [0x1C9A]); (0x10DB, [0x1C9B]);
   (0x10DC, [0x1C9C]); (0x10DD, [0x1C9D]); (0x10DE, [0x1C9E]);
   (0x10DF, [0x1C9F]); (0x10E0, [0x1CA0]); (0x10E1, [0x1CA1]);
   (0x10E2, [0x1CA2]); (0x10E3, [0x1CA3]); (0x10E4, [0x1CA4]);
   (0x10E5, [0x1CA5]); (0x10E6, [0x1CA6]); (0x10E7, [0x1CA7]);
   (0x10E8, [0x1CA8]); (0x10E9, [0x1CA9]); (0x10EA, [0x1CAA]);
   (0x10EB, [0x1CAB]); (0x10EC, [0x1CAC]); (0x10ED, [0x1CAD]);
   (0x10EE, [0x1CAE]); (0x10EF, [0x1CAF]); (0x10F0, [0x1CB0]);
   (0x10F1, [0x1CB1]); (0x10F2, [0x1CB2]); (0x10F3, [0x1CB3]);
   (0x10F4, [0x1CB4]); (0x10F5, [0x1CB5]); (0x10F6, [0x1CB6]);
   (0x10F7, [0x1CB7]); (0x10F8, [0x1CB8]); (0x10F9, [0x1CB9]);
   (0x10FA, [0x1CBA]); (0x10FD, [0x1CBD]); (0x10FE, [0x1CBE]);
   (0x10FF, [0x1CBF]); (0x13F8, [0x13F0]); (0x13F9, [0x13F1]);
   (0x13FA, [0x13F2]); (0x13FB, [0x13F3]); (0x13FC, [0x13F4]);
   (0x13FD, [0x13F5]); (0x1C80, [0x412]); (0x1C81, [0x414]); (0x1C82, [0x41E]);
   (0x1C83, [0x421]); (0x1C84, [0x422]); (0x1C85, [0x422]); (0x1C86, [0x42A]);
   (0x1C87, [0x462]); (0x1C88, [0xA64A]); (0x1D79, [0xA77D]);
   (0x1D7D, [0x2C63]); (0x1D8E, [0xA7C6]); (0x1E01, [0x1E00]);
   (0x1E03, [0x1E02]); (0x1E05, [0x1E04]); (0x1E07, [0x1E06]);
   (0x1E09, [0x1E08]); (0x1E0B, [0x1E0A]); (0x1E0D, [0x1E0C]);
   (0x1E0F, [0x1E0E]); (0x1E11, [0x1E10]); (0x1E13, [0x1E12]);
   (0x1E15, [0x1E14]); (0x1E17, [0x1E16]); (0x1E19, [0x1E18]);
   (0x1E1B, [0x1E1A]); (0x1E1D, [0x1E1C]); (0x1E1F, [0x1E1E]);
   (0x1E21, [0x1E20]); (0x1E23, [0x1E22]); (0x1E25, [0x1E24]);
   (0x1E27, [0x1E26]); (0x1E29, [0x1E28]); (0x1E2B, [0x1E2A]);
   (0x1E2D, [0x1E2C]); (0x1E2F, [0x1E2E]); (0x1E31, [0x1E30]);
   (0x1E33, [0x1E32]); (0x1E35, [0x1E34]); (0x1E37, [0x1E36]);
   (0x1E39, [0x1E38]); (0x1E3B, [0x1E3A]); (0x1E3D, [0x1E3C]);
   (0x1E3F, [0x1E3E]); (0x1E41, [0x1E40]); (0x1E43, [0x1E42]);
   (0x1E45, [0x1E44]); (0x1E47, [0x1E46]); (0x1E49, [0x1E48]);
   (0x1E4B, [0x1E4A]); (0x1E4D, [0x1E4C]); (0x1E4F, [0x1E4E]);
   (0x1E51, [0x1E50]); (0x1E53, [0x1E52]); (0x1E55, [0x1E54]);
   (0x1E57, [0x1E56]); (0x1E59, [0x1E58]); (0x1E5B, [0x1E5A]);
   (0x1E5D, [0x1E5C]); (0x1E5F, [0x1E5E]); (0x1E61, [0x1E60]);
   (0x1E63, [0x1E62]); (0x1E65, [0x1E64]); (0x1E67, [0x1E66]);
   (0x1E69, [0x1E68]); (0x1E6B, [0x1E6A]); (0x1E6D, [0x1E6C]);
   (0x1E6F, [0x1E6E]); (0x1E71, [0x1E70]); (0x1E73, [0x1E72]);
   (0x1E75, [0x1E74]); (0x1E77, [0x1E76]); (0x1E79, [0x1E78]);
   (0x1E7B, [0x1E7A]); (0x1E7D, [0x1E7C]); (0x1E7F, [0x1E7E]);
   (0x1E81, [0x1E80]); (0x1E83, [0x1E82]); (0x1E85, [0x1E84]);
   (0x1E87, [0x1E86]); (0x1E89, [0x1E88]); (0x1E8B, [0x1E8A]);
   (0x1E8D, [0x1E8C]); (0x1E8F, [0x1E8E]); (0x1E91, [0x1E90]);
   (0x1E93, [0x1E92]); (0x1E95, [0x1E94]); (0x1E96, [0x48; 0x331]);
   (0x1E97, [0x54; 0x308]); (0x1E98, [0x57; 0x30A]); (0x1E99, [0x59; 0x30A]);
   (0x1E9A, [0x41; 0x2BE]); (0x1E9B, [0x1E60]); (0x1EA1, [0x1EA0]);
   (0x1EA3, [0x1EA2]); (0x1EA5, [0x1EA4]); (0x1EA7, [0x1EA6]);
   (0x1EA9, [0x1EA8]); (0x1EAB, [0x1EAA]); (0x1EAD, [0x1EAC]);
   (0x1EAF, [0x1EAE]); (0x1EB1, [0x1EB0]); (0x1EB3, [0x1EB2]);
   (0x1EB5, [0x1EB4]); (0x1EB7, [0x1EB6]); (0x1EB9, [0x1EB8]);
   (0x1EBB, [0x1EBA]); (0x1EBD, [0x1EBC]); (0x1EBF, [0x1EBE]);
   (0x1EC1, [0x1EC0]); (0x1EC3, [0x1EC2]); (0x1EC5, [0x1EC4]);
   (0x1EC7, [0x1EC6]); (0x1EC9, [0x1EC8]); (0x1ECB, [0x1ECA]);
   (0x1ECD, [0x1ECC]); (0x1ECF, [0x1ECE]); (0x1ED1, [0x1ED0]);
   (0x1ED3, [0x1ED2]); (0x1ED5, [0x1ED4]); (0x1ED7, [0x1ED6]);
   (0x1ED9, [0x1ED8]); (0x1EDB, [0x1EDA]); (0x1EDD, [0x1EDC]);
   (0x1EDF, [0x1EDE]); (0x1EE1, [0x1EE0]); (0x1EE3, [0x1EE2]);
   (0x1EE5, [0x1EE4]); (0x1EE7, [0x1EE6]); (0x1EE9, [0x1EE8]);
   (0x1EEB, [0x1EEA]); (0x1EED, [0x1EEC]); (0x1EEF, [0x1EEE]);
   (0x1EF1, [0x1EF0]); (0x1EF3, [0x1EF2]); (0x1EF5, [0x1EF4]);
   (0x1EF7, [0x1EF6]); (0x1EF9, [0x1EF8]); (0x1EFB, [0x1EFA]);
   (0x1EFD, [0x1EFC]); (0x1EFF, [0x1EFE]); (0x1F00, [0x1F08]);
   (0x1F01, [0x1F09]); (0x1F02, [0x1F0A]); (0x1F03, [0x1F0B]);
   (0x1F04, [0x1F0C]); (0x1F05, [0x1F0D]); (0x1F06, [0x1F0E]);
   (0x1F07, [0x1F0F]); (0x1F10, [0x1F18]); (0x1F11, [0x1F19]);
   (0x1F12, [0x1F1A]); (0x1F13, [0x1F1B]); (0x1F14, [0x1F1C]);
   (0x1F15, [0x1F1D]); (0x1F20, [0x1F28]); (0x1F21, [0x1F29]);
   (0x1F22, [0x1F2A]); (0x1F23, [0x1F2B]); (0x1F24, [0x1F2C]);
   (0x1F25, [0x1F2D]); (0x1F26, [0x1F2E]); (0x1F27, [0x1F2F]);
   (0x1F30, [0x1F38]); (0x1F31, [0x1F39]); (0x1F32, [0x1F3A]);
   (0x1F33, [0x1F3B]); (0x1F34, [0x1F3C]); (0x1F35, [0x1F3D]);
   (0x1F36, [0x1F3E]); (0x1F37, [0x1F3F]); (0x1F40, [0x1F48]);
   (0x1F41, [0x1F49]); (0x1F42, [0x1F4A]); (0x1F43, [0x1F4B]);
   (0x1F44, [0x1F4C]); (0x1F45, [0x1F4D]); (0x1F50, [0x3A5; 0x313]);
   (0x1F51, [0x1F59]); (0x1F52, [0x3A5; 0x313; 0x300]); (0x1F53, [0x1F5B]);
   (0x1F54, [0x3A5; 0x313; 0x301]); (0x1F55, [0x1F5D]);
   (0x1F56, [0x3A5; 0x313; 0x342]); (0x1F57, [0x1F5F]); (0x1F60, [0x1F68]);
   (0x1F61, [0x1F69]); (0x1F62, [0x1F6A]); (0x1F63, [0x1F6B]);
   (0x1F64, [0x1F6C]); (0x1F65, [0x1F6D]); (0x1F66, [0x1F6E]);
   (0x1F67, [0x1F6F]); (0x1F70, [0x1FBA]); (0x1F71, [0x1FBB]);
   (0x1F72, [0x1FC8]); (0x1F73, [0x1FC9]); (0x1F74, [0x1FCA]);
   (0x1F75, [0x1FCB]); (0x1F76, [0x1FDA]); (0x1F77, [0x1FDB]);
   (0x1F78, [0x1FF8]); (0x1F79, [0x1FF9]); (0x1F7A, [0x1FEA]);
   (0x1F7B, [0x1FEB]); (0x1F7C, [0x1FFA]); (0x1F7D, [0x1FFB]);
   (0x1F80, [0x1F08; 0x399]); (0x1F81, [0x1F09; 0x399]);
   (0x1F82, [0x1F0A; 0x399]); (0x1F83, [0x1F0B; 0x399]);
   (0x1F84, [0x1F0C; 0x399]); (0x1F85, [0x1F0D; 0x399]);
   (0x1F86, [0x1F0E; 0x399]); (0x1F87, [0x1F0F; 0x399]);
   (0x1F88, [0x1F08; 0x399]); (0x1F89, [0x1F09; 0x399]);
   (0x1F8A, [0x1F0A; 0x399]); (0x1F8B, [0x1F0B; 0x399]);
   (0x1F8C, [0x1F0C; 0x399]); (0x1F8D, [0x1F0D; 0x399]);
   (0x1F8E, [0x1F0E; 0x399]); (0x1F8F, [0x1F0F; 0x399]);
   (0x1F90, [0x1F28; 0x399]); (0x1F91, [0x1F29; 0x399]);
   (0x1F92, [0x1F2A; 0x399]); (0x1F93, [0x1F2B; 0x399]);
   (0x1F94, [0x1F2C; 0x399]); (0x1F95, [0x1F2D; 0x399]);
   (0x1F96, [0x1F2E; 0x399]); (0x1F97, [0x1F2F; 0x399]);
   (0x1F98, [0x1F28; 0x399]); (0x1F99, [0x1F29; 0x399]);
   (0x1F9A, [0x1F2A; 0x399]); (0x1F9B, [0x1F2B; 0x399]);
   (0x1F9C, [0x1F2C; 0x399]); (0x1F9D, [0x1F2D; 0x399]);
   (0x1F9E, [0x1F2E; 0x399]); (0x1F9F, [0x1F2F; 0x399]);
   (0x1FA0, [0x1F68; 0x399]); (0x1FA1, [0x1F69; 0x399]);
   (0x1FA2, [0x1F6A; 0x399]); (0x1FA3, [0x1F6B; 0x399]);
   (0x1FA4, [0x1F6C; 0x399]); (0x1FA5, [0x1F6D; 0x399]);
   (0x1FA6, [0x1F6E; 0x399]); (0x1FA7, [0x1F6F; 0x399]);
   (0x1FA8, [0x1F68; 0x399]); (0x1FA9, [0x1F69; 0x399]);
   (0x1FAA, [0x1F6A; 0x399]); (0x1FAB, [0x1F6B; 0x399]);
   (0x1FAC, [0x1F6C; 0x399]); (0x1FAD, [0x1F6D; 0x399]);
   (0x1FAE, [0x1F6E; 0x399]); (0x1FAF, [0x1F6F; 0x399]); (0x1FB0, [0x1FB8]);
   (0x1FB1, [0x1FB9]); (0x1FB2, [0x1FBA; 0x399]); (0x1FB3, [0x391; 0x399]);
   (0x1FB4, [0x386; 0x399]); (0x1FB6, [0x391; 0x342]);
   (0x1FB7, [0x391; 0x342; 0x399]); (0x1FBC, [0x391; 0x399]);
   (0x1FBE, [0x399]); (0x1FC2, [0x1FCA; 0x399]); (0x1FC3, [0x397; 0x399]);
   (0x1FC4, [0x389; 0x399]); (0x1FC6, [0x397; 0x342]);
   (0x1FC7, [0x397; 0x342; 0x399]); (0x1FCC, [0x397; 0x399]);
   (0x1FD0, [0x1FD8]); (0x1FD1, [0x1FD9]); (0x1FD2, [0x399; 0x308; 0x300]);
   (0x1FD3, [0x399; 0x308; 0x301]); (0x1FD6, [0x399; 0x342]);
   (0x1FD7, [0x399; 0x308; 0x342]); (0x1FE0, [0x1FE8]); (0x1FE1, [0x1FE9]);
   (0x1FE2, [0x3A5; 0x308; 0x300]); (0x1FE3, [0x3A5; 0x308; 0x301]);
   (0x1FE4, [0x3A1; 0x313]); (0x1FE5, [0x1FEC]); (0x1FE6, [0x3A5; 0x342]);
   (0x1FE7, [0x3A5; 0x308; 0x342]); (0x1FF2, [0x1FFA; 0x399]);
   (0x1FF3, [0x3A9; 0x399]); (0x1FF4, [0x38F; 0x399]);
   (0x1FF6, [0x3A9; 0x342]); (0x1FF7, [0x3A9; 0x342; 0x399]);
   (0x1FFC, [0x3A9; 0x399]); (0x214E, [0x2132]); (0x2170, [0x2160]);
   (0x2171, [0x2161]); (0x2172, [0x2162]); (0x2173, [0x2163]);
   (0x2174, [0x2164]); (0x2175, [0x2165]); (0x2176, [0x2166]);
   (0x2177, [0x2167]); (0x2178, [0x2168]); (0x2179, [0x2169]);
   (0x217A, [0x216A]); (0x217B, [0x216B]); (0x217C, [0x216C]);
   (0x217D, [0x216D]); (0x217E, [0x216E]); (0x217F, [0x216F]);
   (0x2184, [0x2183]); (0x24D0, [0x24B6]); (0x24D1, [0x24B7]);
   (0x24D2, [0x24B8]); (0x24D3, [0x24B9]); (0x24D4, [0x24BA]);
   (0x24D5, [0x24BB]); (0x24D6, [0x24BC]); (0x24D7, [0x24BD]);
   (0x24D8, [0x24BE]); (0x24D9, [0x24BF]); (0x24DA, [0x24C0]);
   (0x24DB, [0x24C1]); (0x24DC, [0x24C2]); (0x24DD, [0x24C3]);
   (0x24DE, [0x24C4]); (0x24DF, [0x24C5]); (0x24E0, [0x24C6]);
   (0x24E1, [0x24C7]); (0x24E2, [0x24C8]); (0x24E3, [0x24C9]);
   (0x24E4, [0x24CA]); (0x24E5, [0x24CB]); (0x24E6, [0x24CC]);
   (0x24E7, [0x24CD]); (0x24E8, [0x24CE]); (0x24E9, [0x24CF]);
   (0x2C30, [0x2C00]); (0x2C31, [0x2C01]); (0x2C32, [0x2C02]);
   (0x2C33, [0x2C03]); (0x2C34, [0x2C04]); (0x2C35, [0x2C05]);
   (0x2C36, [0x2C06]); (0x2C37, [0x2C07]); (0x2C38, [0x2C08]);
   (0x2C39, [0x2C09]); (0x2C3A, [0x2C0A]); (0x2C3B, [0x2C0B]);
   (0x2C3C, [0x2C0C]); (0x2C3D, [0x2C0D]); (0x2C3E, [0x2C0E]);
   (0x2C3F, [0x2C0F]); (0x2C40, [0x2C10]); (0x2C41, [0x2C11]);
   (0x2C42, [0x2C12]); (0x2C43, [0x2C13]); (0x2C44, [0x2C14]);
   (0x2C45, [0x2C15]); (0x2C46, [0x2C16]); (0x2C47, [0x2C17]);
   (0x2C48, [0x2C18]); (0x2C49, [0x2C19]); (0x2C4A, [0x2C1A]);
   (0x2C4B, [0x2C1B]); (0x2C4C, [0x2C1C]); (0x2C4D, [0x2C1D]);
   (0x2C4E, [0x2C1E]); (0x2C4F, [0x2C1F]); (0x2C50, [0x2C20]);
   (0x2C51, [0x2C21]); (0x2C52, [0x2C22]); (0x2C53, [0x2C23]);
   (0x2C54, [0x2C24]); (0x2C55, [0x2C25]); (0x2C56, [0x2C26]);
   (0x2C57, [0x2C27]); (0x2C58, [0x2C28]); (0x2C59, [0x2C29]);
   (0x2C5A, [0x2C2A]); (0x2C5B, [0x2C2B]); (0x2C5C, [0x2C2C]);
   (0x2C5D, [0x2C2D]); (0x2C5E, [0x2C2E]); (0x2C5F, [0x2C2F]);
   (0x2C61, [0x2C60]); (0x2C65, [0x23A]); (0x2C66, [0x23E]);
   (0x2C68, [0x2C67]); (0x2C6A, [0x2C69]); (0x2C6C, [0x2C6B]);
   (0x2C73, [0x2C72]); (0x2C76, [0x2C75]); (0x2C81, [0x2C80]);
   (0x2C83, [0x2C82]); (0x2C85, [0x2C84]); (0x2C87, [0x2C86]);
   (0x2C89, [0x2C88]); (0x2C8B, [0x2C8A]); (0x2C8D, [0x2C8C]);
   (0x2C8F, [0x2C8E]); (0x2C91, [0x2C90]); (0x2C93, [0x2C92]);
   (0x2C95, [0x2C94]); (0x2C97, [0x2C96]); (0x2C99, [0x2C98]);
   (0x2C9B, [0x2C9A]); (0x2C9D, [0x2C9C]); (0x2C9F, [0x2C9E]);
   (0x2CA1, [0x2CA0]); (0x2CA3, [0x2CA2]); (0x2CA5, [0x2CA4]);
   (0x2CA7, [0x2CA6]); (0x2CA9, [0x2CA8]); (0x2CAB, [0x2CAA]);
   (0x2CAD, [0x2CAC]); (0x2CAF, [0x2CAE]); (0x2CB1, [0x2CB0]);
   (0x2CB3, [0x2CB2]); (0x2CB5, [0x2CB4]); (0x2CB7, [0x2CB6]);
   (0x2CB9, [0x2CB8]); (0x2CBB, [0x2CBA]); (0x2CBD, [0x2CBC]);
   (0x2CBF, [0x2CBE]); (0x2CC1, [0x2CC0]); (0x2CC3, [0x2CC2]);
   (0x2CC5, [0x2CC4]); (0x2CC7, [0x2CC6]); (0x2CC9, [0x2CC8]);
   (0x2CCB, [0x2CCA]); (0x2CCD, [0x2CCC]); (0x2CCF, [0x2CCE]);
   (0x2CD1, [0x2CD0]); (0x2CD3, [0x2CD2]); (0x2CD5, [0x2CD4]);
   (0x2CD7, [0x2CD6]); (0x2CD9, [0x2CD8]); (0x2CDB, [0x2CDA]);
   (0x2CDD, [0x2CDC]); (0x2CDF, [0x2CDE]); (0x2CE1, [0x2CE0]);
   (0x2CE3, [0x2CE2]); (0x2CEC, [0x2CEB]); (0x2CEE, [0x2CED]);
   (0x2CF3, [0x2CF2]); (0x2D00, [0x10A0]); (0x2D01, [0x10A1]);
   (0x2D02, [0x10A2]); (0x2D03, [0x10A3]); (0x2D04, [0x10A4]);
   (0x2D05, [0x10A5]); (0x2D06, [0x10A6]); (0x2D07, [0x10A7]);
   (0x2D08, [0x10A8]); (0x2D09, [0x10A9]); (0x2D0A, [0x10AA]);
   (0x2D0B, [0x10AB]); (0x2D0C, [0x10AC]); (0x2D0D, [0x10AD]);
   (0x2D0E, [0x10AE]); (0x2D0F, [0x10AF]); (0x2D10, [0x10B0]);
   (0x2D11, [0x10B1]); (0x2D12, [0x10B2]); (0x2D13, [0x10B3]);
   (0x2D14, [0x10B4]); (0x2D15, [0x10B5]); (0x2D16, [0x10B6]);
   (0x2D17, [0x10B7]); (0x2D18, [0x10B8]); (0x2D19, [0x10B9]);
   (0x2D1A, [0x10BA]); (0x2D1B, [0x10BB]); (0x2D1C, [0x10BC]);
   (0x2D1D, [0x10BD]); (0x2D1E, [0x10BE]); (0x2D1F, [0x10BF]);
   (0x2D20, [0x10C0]); (0x2D21, [0x10C1]); (0x2D22, [0x10C2]);
   (0x2D23, [0x10C3]); (0x2D24, [0x10C4]); (0x2D25, [0x10C5]);
   (0x2D27, [0x10C7]); (0x2D2D, [0x10CD]); (0xA641, [0xA640]);
   (0xA643, [0xA642]); (0xA645, [0xA644]); (0xA647, [0xA646]);
   (0xA649, [0xA648]); (0xA64B, [0xA64A]); (0xA64D, [0xA64C]);
   (0xA64F, [0xA64E]); (0xA651, [0xA650]); (0xA653, [0xA652]);
   (0xA655, [0xA654]); (0xA657, [0xA656]); (0xA659, [0xA658]);
   (0xA65B, [0xA65A]); (0xA65D, [0xA65C]); (0xA65F, [0xA65E]);
   (0xA661, [0xA660]); (0xA663, [0xA662]); (0xA665, [0xA664]);
   (0xA667, [0xA666]); (0xA669, [0xA668]); (0xA66B, [0xA66A]);
   (0xA66D, [0xA66C]); (0xA681, [0xA680]); (0xA683, [0xA682]);
   (0xA685, [0xA684]); (0xA687, [0xA686]); (0xA689, [0xA688]);
   (0xA68B, [0xA68A]); (0xA68D, [0xA68C]); (0xA68F, [0xA68E]);
   (0xA691, [0xA690]); (0xA693, [0xA692]); (0xA695, [0xA694]);
   (0xA697, [0xA696]); (0xA699, [0xA698]); (0xA69B, [0xA69A]);
   (0xA723, [0xA722]); (0xA725, [0xA724]); (0xA727, [0xA726]);
   (0xA729, [0xA728]); (0xA72B, [0xA72A]); (0xA72D, [0xA72C]);
   (0xA72F, [0xA72E]); (0xA733, [0xA732]); (0xA735, [0xA734]);
   (0xA737, [0xA736]); (0xA739, [0xA738]); (0xA73B, [0xA73A]);
   (0xA73D, [0xA73C]); (0xA73F, [0xA73E]); (0xA741, [0xA740]);
   (0xA743, [0xA742]); (0xA745, [0xA744]); (0xA747, [0xA746]);
   (0xA749, [0xA748]); (0xA74B, [0xA74A]); (0xA74D, [0xA74C]);
   (0xA74F, [0xA74E]); (0xA751, [0xA750]); (0xA753, [0xA752]);
   (0xA755, [0xA754]); (0xA757, [0xA756]); (0xA759, [0xA758]);
   (0xA75B, [0xA75A]); (0xA75D, [0xA75C]); (0xA75F, [0xA75E]);
   (0xA761, [0xA760]); (0xA763, [0xA762]); (0xA765, [0xA764]);
   (0xA767, [0xA766]); (0xA769, [0xA768]); (0xA76B, [0xA76A]);
   (0xA76D, [0xA76C]); (0xA76F, [0xA76E]); (0xA77A, [0xA779]);
   (0xA77C, [0xA77B]); (0xA77F, [0xA77E]); (0xA781, [0xA780]);
   (0xA783, [0xA782]); (0xA785, [0xA784]); (0xA787, [0xA786]);
   (0xA78C, [0xA78B]); (0xA791, [0xA790]); (0xA793, [0xA792]);
   (0xA794, [0xA7C4]); (0xA797, [0xA796]); (0xA799, [0xA798]);
   (0xA79B, [0xA79A]); (0xA79D, [0xA79C]); (0xA79F, [0xA79E]);
   (0xA7A1, [0xA7A0]); (0xA7A3, [0xA7A2]); (0xA7A5, [0xA7A4]);
   (0xA7A7, [0xA7A6]); (0xA7A9, [0xA7A8]); (0xA7B5, [0xA7B4]);
   (0xA7B7, [0xA7B6]); (0xA7B9, [0xA7B8]); (0xA7BB, [0xA7BA]);
   (0xA7BD, [0xA7BC]); (0xA7BF, [0xA7BE]); (0xA7C1, [0xA7C0]);
   (0xA7C3, [0xA7C2]); (0xA7C8, [0xA7C7]); (0xA7CA, [0xA7C9]);
   (0xA7D1, [0xA7D0]); (0xA7D7, [0xA7D6]); (0xA7D9, [0xA7D8]);
   (0xA7F6, [0xA7F5]); (0xAB53, [0xA7B3]); (0xAB70, [0x13A0]);
   (0xAB71, [0x13A1]); (0xAB72, [0x13A2]); (0xAB73, [0x13A3]);
   (0xAB74, [0x13A4]); (0xAB75, [0x13A5]); (0xAB76, [0x13A6]);
   (0xAB77, [0x13A7]); (0xAB78, [0x13A8]); (0xAB79, [0x13A9]);
   (0xAB7A, [0x13AA]); (0xAB7B, [0x13AB]); (0xAB7C, [0x13AC]);
   (0xAB7D, [0x13AD]); (0xAB7E, [0x13AE]); (0xAB7F, [0x13AF]);
   (0xAB80, [0x13B0]); (0xAB81, [0x13B1]); (0xAB82, [0x13B2]);
   (0xAB83, [0x13B3]); (0xAB84, [0x13B4]); (0xAB85, [0x13B5]);
   (0xAB86, [0x13B6]); (0xAB87, [0x13B7]); (0xAB88, [0x13B8]);
   (0xAB89, [0x13B9]); (0xAB8A, [0x13BA]); (0xAB8B, [0x13BB]);
   (0xAB8C, [0x13BC]); (0xAB8D, [0x13BD]); (0xAB8E, [0x13BE]);
   (0xAB8F, [0x13BF]); (0xAB90, [0x13C0]); (0xAB91, [0x13C1]);
   (0xAB92, [0x13C2]); (0xAB93, [0x13C3]); (0xAB94, [0x13C4]);
   (0xAB95, [0x13C5]); (0xAB96, [0x13C6]); (0xAB97, [0x13C7]);
   (0xAB98, [0x13C8]); (0xAB99, [0x13C9]); (0xAB9A, [0x13CA]);
   (0xAB9B, [0x13CB]); (0xAB9C, [0x13CC]); (0xAB9D, [0x13CD]);
   (0xAB9E, [0x13CE]); (0xAB9F, [0x13CF]); (0xABA0, [0x13D0]);
   (0xABA1, [0x13D1]); (0xABA2, [0x13D2]); (0xABA3, [0x13D3]);
   (0xABA4, [0x13D4]); (0xABA5, [0x13D5]); (0xABA6, [0x13D6]);
   (0xABA7, [0x13D7]); (0xABA8, [0x13D8]); (0xABA9, [0x13D9]);
   (0xABAA, [0x13DA]); (0xABAB, [0x13DB]); (0xABAC, [0x13DC]);
   (0xABAD, [0x13DD]); (0xABAE, [0x13DE]); (0xABAF, [0x13DF]);
   (0xABB0, [0x13E0]); (0xABB1, [0x13E1]); (0xABB2, [0x13E2]);
   (0xABB3, [0x13E3]); (0xABB4, [0x13E4]); (0xABB5, [0x13E5]);
   (0xABB6, [0x13E6]); (0xABB7, [0x13E7]); (0xABB8, [0x13E8]);
   (0xABB9, [0x13E9]); (0xABBA, [0x13EA]); (0xABBB, [0x13EB]);
   (0xABBC, [0x13EC]); (0xABBD, [0x13ED]); (0xABBE, [0x13EE]);
   (0xABBF, [0x13EF]); (0xFB00, [0x46; 0x46]); (0xFB01, [0x46; 0x49]);
   (0xFB02, [0x46; 0x4C]); (0xFB03, [0x46; 0x46; 0x49]);
   (0xFB04, [0x46; 0x46; 0x4C]); (0xFB05, [0x53; 0x54]);
   (0xFB06, [0x53; 0x54]); (0xFB13, [0x544; 0x546]); (0xFB14, [0x544; 0x535]);
   (0xFB15, [0x544; 0x53B]); (0xFB16, [0x54E; 0x546]);
   (0xFB17, [0x544; 0x53D]); (0xFF41, [0xFF21]); (0xFF42, [0xFF22]);
   (0xFF43, [0xFF23]); (0xFF44, [0xFF24]); (0xFF45, [0xFF25]);
   (0xFF46, [0xFF26]); (0xFF47, [0xFF27]); (0xFF48, [0xFF28]);
   (0xFF49, [0xFF29]); (0xFF4A, [0xFF2A]); (0xFF4B, [0xFF2B]);
   (0xFF4C, [0xFF2C]); (0xFF4D, [0xFF2D]); (0xFF4E, [0xFF2E]);
   (0xFF4F, [0xFF2F]); (0xFF50, [0xFF30]); (0xFF51, [0xFF31]);
   (0xFF52, [0xFF32]); (0xFF53, [0xFF33]); (0xFF54, [0xFF34]);
   (0xFF55, [0xFF35]); (0xFF56, [0xFF36]); (0xFF57, [0xFF37]);
   (0xFF58, [0xFF38]); (0xFF59, [0xFF39]); (0xFF5A, [0xFF3A]);
   (0x10428, [0x10400]); (0x10429, [0x10401]); (0x1042A, [0x10402]);
   (0x1042B, [0x10403]); (0x1042C, [0x10404]); (0x1042D, [0x10405]);
   (0x1042E, [0x10406]); (0x1042F, [0x10407]); (0x10430, [0x10408]);
   (0x10431, [0x10409]); (0x10432, [0x1040A]); (0x10433, [0x1040B]);
   (0x10434, [0x1040C]); (0x10435, [0x1040D]); (0x10436, [0x1040E]);
   (0x10437, [0x1040F]); (0x10438, [0x10410]); (0x10439, [0x10411]);
   (0x1043A, [0x10412]); (0x1043B, [0x10413]); (0x1043C, [0x10414]);
   (0x1043D, [0x10415]); (0x1043E, [0x10416]); (0x1043F, [0x10417]);
   (0x10440, [0x10418]); (0x10441, [0x10419]); (0x10442, [0x1041A]);
   (0x10443, [0x1041B]); (0x10444, [0x1041C]); (0x10445, [0x1041D]);
   (0x10446, [0x1041E]); (0x10447, [0x1041F]); (0x10448, [0x10420]);
   (0x10449, [0x10421]); (0x1044A, [0x10422]); (0x1044B, [0x10423]);
   (0x1044C, [0x10424]); (0x1044D, [0x10425]); (0x1044E, [0x10426]);
   (0x1044F, [0x10427]); (0x104D8, [0x104B0]); (0x104D9, [0x104B1]);
   (0x104DA, [0x104B2]); (0x104DB, [0x104B3]); (0x104DC, [0x104B4]);
   (0x104DD, [0x104B5]); (0x104DE, [0x104B6]); (0x104DF, [0x104B7]);
   (0x104E0, [0x104B8]); (0x104E1, [0x104B9]); (0x104E2, [0x104BA]);
   (0x104E3, [0x104BB]); (0x104E4, [0x104BC]); (0x104E5, [0x104BD]);
   (0x104E6, [0x104BE]); (0x104E7, [0x104BF]); (0x104E8, [0x104C0]);
   (0x104E9, [0x104C1]); (0x104EA, [0x104C2]); (0x104EB, [0x104C3]);
   (0x104EC, [0x104C4]); (0x104ED, [0x104C5]); (0x104EE, [0x104C6]);
   (0x104EF, [0x104C7]); (0x104F0, [0x104C8]); (0x104F1, [0x104C9]);
   (0x104F2, [0x104CA]); (0x104F3, [0x104CB]); (0x104F4, [0x104CC]);
   (0x104F5, [0x104CD]); (0x104F6, [0x104CE]); (0x104F7, [0x104CF]);
   (0x104F8, [0x104D0]); (0x104F9, [0x104D1]); (0x104FA, [0x104D2]);
   (0x104FB, [0x104D3]); (0x10597, [0x10570]); (0x10598, [0x10571]);
   (0x10599, [0x10572]); (0x1059A, [0x10573]); (0x1059B, [0x10574]);
   (0x1059C, [0x10575]); (0x1059D, [0x10576]); (0x1059E, [0x10577]);
   (0x1059F, [0x10578]); (0x105A0, [0x10579]); (0x105A1, [0x1057A]);
   (0x105A3, [0x1057C]); (0x105A4, [0x1057D]); (0x105A5, [0x1057E]);
   (0x105A6, [0x1057F]); (0x105A7, [0x10580]); (0x105A8, [0x10581]);
   (0x105A9, [0x10582]); (0x105AA, [0x10583]); (0x105AB, [0x10584]);
   (0x105AC, [0x10585]); (0x105AD, [0x10586]); (0x105AE, [0x10587]);
   (0x105AF, [0x10588]); (0x105B0, [0x10589]); (0x105B1, [0x1058A]);
   (0x105B3, [0x1058C]); (0x105B4, [0x1058D]); (0x105B5, [0x1058E]);
   (0x105B6, [0x1058F]); (0x105B7, [0x10590]); (0x105B8, [0x10591]);
   (0x105B9, [0x10592]); (0x105BB, [0x10594]); (0x105BC, [0x10595]);
   (0x10CC0, [0x10C80]); (0x10CC1, [0x10C81]); (0x10CC2, [0x10C82]);
   (0x10CC3, [0x10C83]); (0x10CC4, [0x10C84]); (0x10CC5, [0x10C85]);
   (0x10CC6, [0x10C86]); (0x10CC7, [0x10C87]); (0x10CC8, [0x10C88]);
   (0x10CC9, [0x10C89]); (0x10CCA, [0x10C8A]); (0x10CCB, [0x10C8B]);
   (0x10CCC, [0x10C8C]); (0x10CCD, [0x10C8D]); (0x10CCE, [0x10C8E]);
   (0x10CCF, [0x10C8F]); (0x10CD0, [0x10C90]); (0x10CD1, [0x10C91]);
   (0x10CD2, [0x10C92]); (0x10CD3, [0x10C93]); (0x10CD4, [0x10C94]);
   (0x10CD5, [0x10C95]); (0x10CD6, [0x10C96]); (0x10CD7, [0x10C97]);
   (0x10CD8, [0x10C98]); (0x10CD9, [0x10C99]); (0x10CDA, [0x10C9A]);
   (0x10CDB, [0x10C9B]); (0x10CDC, [0x10C9C]); (0x10CDD, [0x10C9D]);
   (0x10CDE, [0x10C9E]); (0x10CDF, [0x10C9F]); (0x10CE0, [0x10CA0]);
   (0x10CE1, [0x10CA1]); (0x10CE2, [0x10CA2]); (0x10CE3, [0x10CA3]);
   (0x10CE4, [0x10CA4]); (0x10CE5, [0x10CA5]); (0x10CE6, [0x10CA6]);
   (0x10CE7, [0x10CA7]); (0x10CE8, [0x10CA8]); (0x10CE9, [0x10CA9]);
   (0x10CEA, [0x10CAA]); (0x10CEB, [0x10CAB]); (0x10CEC, [0x10CAC]);
   (0x10CED, [0x10CAD]); (0x10CEE, [0x10CAE]); (0x10CEF, [0x10CAF]);
   (0x10CF0, [0x10CB0]); (0x10CF1, [0x10CB1]); (0x10CF2, [0x10CB2]);
   (0x118C0, [0x118A0]); (0x118C1, [0x118A1]); (0x118C2, [0x118A2]);
   (0x118C3, [0x118A3]); (0x118C4, [0x118A4]); (0x118C5, [0x118A5]);
   (0x118C6, [0x118A6]); (0x118C7, [0x118A7]); (0x118C8, [0x118A8]);
   (0x118C9, [0x118A9]); (0x118CA, [0x118AA]); (0x118CB, [0x118AB]);
   (0x118CC, [0x118AC]); (0x118CD, [0x118AD]); (0x118CE, [0x118AE]);
   (0x118CF, [0x118AF]); (0x118D0, [0x118B0]); (0x118D1, [0x118B1]);
   (0x118D2, [0x118B2]); (0x118D3, [0x118B3]); (0x118D4, [0x118B4]);
   (0x118D5, [0x118B5]); (0x118D6, [0x118B6]); (0x118D7, [0x118B7]);
   (0x118D8, [0x118B8]); (0x118D9, [0x118B9]); (0x118DA, [0x118BA]);
   (0x118DB, [0x118BB]); (0x118DC, [0x118BC]); (0x118DD, [0x118BD]);
   (0x118DE, [0x118BE]); (0x118DF, [0x118BF]); (0x16E60, [0x16E40]);
   (0x16E61, [0x16E41]); (0x16E62, [0x16E42]); (0x16E63, [0x16E43]);
   (0x16E64, [0x16E44]); (0x16E65, [0x16E45]); (0x16E66, [0x16E46]);
   (0x16E67, [0x16E47]); (0x16E68, [0x16E48]); (0x16E69, [0x16E49]);
   (0x16E6A, [0x16E4A]); (0x16E6B, [0x16E4B]); (0x16E6C, [0x16E4C]);
   (0x16E6D, [0x16E4D]); (0x16E6E, [0x16E4E]); (0x16E6F, [0x16E4F]);
   (0x16E70, [0x16E50]); (0x16E71, [0x16E51]); (0x16E72, [0x16E52]);
   (0x16E73, [0x16E53]); (0x16E74, [0x16E54]); (0x16E75, [0x16E55]);
   (0x16E76, [0x16E56]); (0x16E77, [0x16E57]); (0x16E78, [0x16E58]);
   (0x16E79, [0x16E59]); (0x16E7A, [0x16E5A]); (0x16E7B, [0x16E5B]);
   (0x16E7C, [0x16E5C]); (0x16E7D, [0x16E5D]); (0x16E7E, [0x16E5E]);
   (0x16E7F, [0x16E5F]); (0x1E922, [0x1E900]); (0x1E923, [0x1E901]);
   (0x1E924, [0x1E902]); (0x1E925, [0x1E903]); (0x1E926, [0x1E904]);
   (0x1E927, [0x1E905]); (0x1E928, [0x1E906]); (0x1E929, [0x1E907]);
   (0x1E92A, [0x1E908]); (0x1E92B, [0x1E909]); (0x1E92C, [0x1E90A]);
   (0x1E92D, [0x1E90B]); (0x1E92E, [0x1E90C]); (0x1E92F, [0x1E90D]);
   (0x1E930, [0x1E90E]); (0x1E931, [0x1E90F]); (0x1E932, [0x1E910]);
   (0x1E933, [0x1E911]); (0x1E934, [0x1E912]); (0x1E935, [0x1E913]);
   (0x1E936, [0x1E914]); (0x1E937, [0x1E915]); (0x1E938, [0x1E916]);
   (0x1E939, [0x1E917]); (0x1E93A, [0x1E918]); (0x1E93B, [0x1E919]);
   (0x1E93C, [0x1E91A]); (0x1E93D, [0x1E91B]); (0x1E93E, [0x1E91C]);
   (0x1E93F, [0x1E91D]); (0x1E940, [0x1E91E]); (0x1E941, [0x1E91F]);
   (0x1E942, [0x1E920]); (0x1E943, [0x1E921])
  ]%N.

Fixpoint lookup (c : N) (table : list (N * list N)) : option (list N) :=
  match table with
  | [] => None
  | (k, mapping) :: rest => if (k =? c)%N then Some mapping else lookup c rest
  end.

(** [toUppercase(C)] for one code point. *)
Definition toUppercase (c : N) : list N :=
  match lookup c uppercaseTable with
  | Some mapping => mapping
  | None => [c]
  end.

(** A scalar value is a code point that is not a surrogate. *)
Definition isScalarValue (c : N) : bool :=
  ((c <? 0xD800) || ((0xDFFF <? c) && (c <=? 0x10FFFF)))%N.

End Unicode.

(* ================================================================== *)
(** * String values and the built-ins used by [Utils.normalize] *)
(* ================================================================== *)

Module JSString.
Local Open Scope list_scope.
Local Open Scope N_scope.

(** A code unit has sixteen binary digits; it is kept as its two bytes. *)
Record codeUnit : Type := CodeUnit { highByte : ascii; lowByte : ascii }.

Definition codeOf (u : codeUnit) : N :=
  256 * N_of_ascii (highByte u) + N_of_ascii (lowByte u).

Definition unitOf (n : N) : codeUnit :=
  CodeUnit (ascii_of_N (n / 256)) (ascii_of_N (n mod 256)).

(** A string value: a finite sequence of code units (UTF-16). *)
Definition t : Type := list codeUnit.

(** The string value of a literal of single-byte characters: each
    character is the code unit of its value. *)
Definition literal (s : string) : t :=
  map (CodeUnit Ascii.zero) (list_ascii_of_string s).

(** The code points [WhiteSpace] and [LineTerminator] of ECMAScript, which
    [String.prototype.trim] strips: TAB, VT, FF, SP, NBSP, ZWNBSP, the
    space separators (category Zs), LF, CR, LS and PS. *)
Definition whiteSpaceCodes : list N :=
  [0x9; 0xB; 0xC; 0x20; 0xA0; 0xFEFF;
   0x1680; 0x2000; 0x2001; 0x2002; 0x2003; 0x2004; 0x2005; 0x2006;
   0x2007; 0x2008; 0x2009; 0x200A; 0x202F; 0x205F; 0x3000;
   0xA; 0xD; 0x2028; 0x2029].

Definition isWhiteSpaceCode (c : N) : bool := existsb (N.eqb c) whiteSpaceCodes.

Definition isWhiteSpace (u : codeUnit) : bool := isWhiteSpaceCode (codeOf u).

Fixpoint trimStart (s : t) : t :=
  match s with
  | [] => []
  | u :: s' => if isWhiteSpace u then trimStart s' else s
  end.

Fixpoint trimEnd (s : t) : t :=
  match s with
  | [] => []
  | u :: s' =>
      match trimEnd s' with
      | [] => if isWhiteSpace u then [] else [u]
      | rest => u :: rest
      end
  end.

Definition trim (s : t) : t := trimEnd (trimStart s).

(** ** Code points of a string *)

Definition isLeadingSurrogate (u : codeUnit) : bool :=
  (0xD800 <=? codeOf u) && (codeOf u <=? 0xDBFF).

Definition isTrailingSurrogate (u : codeUnit) : bool :=
  (0xDC00 <=? codeOf u) && (codeOf u <=? 0xDFFF).

Definition UTF16SurrogatePairToCodePoint (lead trail : codeUnit) : N :=
  (codeOf lead - 0xD800) * 0x400 + (codeOf trail - 0xDC00) + 0x10000.

(** [StringToCodePoints]: a leading surrogate followed by a trailing one
    is one code point; any other code unit, an unpaired surrogate
    included, is the code point of its own value. *)
Fixpoint StringToCodePoints (s : t) : list N :=
  match s with
  | [] => []
  | first :: rest =>
      match rest with
      | second :: rest' =>
          if isLeadingSurrogate first && isTrailingSurrogate second
          then UTF16SurrogatePairToCodePoint first second
               :: StringToCodePoints rest'
          else codeOf first :: StringToCodePoints rest
      | [] => [codeOf first]
      end
  end.

Definition UTF16EncodeCodePoint (cp : N) : t :=
  if cp <=? 0xFFFF then [unitOf cp]
  else
    let cu1 := (cp - 0x10000) / 0x400 + 0xD800 in
    let cu2 := (cp - 0x10000) mod 0x400 + 0xDC00 in
    [unitOf cu1; unitOf cu2].

Definition CodePointsToString (text : list N) : t :=
  flat_map UTF16EncodeCodePoint text.

(** [s.toUpperCase()]: the code points of [s], each replaced by its
    upper-case mapping, as a string again. *)
Definition toUpperCase (s : t) : t :=
  CodePointsToString (flat_map Unicode.toUppercase (StringToCodePoints s)).

(** [s.split(re)] for a regular expression [re] of the form [[...]+]
    without the [u] flag, given by the membership test [sep] of its
    character class on code units.  The flag tells whether the previous
    code unit belonged to a separator run.  A run at the start or at the
    end of [s] leaves an empty piece there, and the empty string splits
    into one empty piece. *)
Fixpoint splitRuns (sep : codeUnit -> bool) (inRun : bool) (s : t)
  : list t :=
  match s with
  | [] => [[]]
  | u :: s' =>
      if sep u then
        if inRun then splitRuns sep true s'
        else [] :: splitRuns sep true s'
      else
        match splitRuns sep false s' with
        | piece :: pieces => (u :: piece) :: pieces
        | [] => [[u]]
        end
  end.

Definition split (sep : codeUnit -> bool) (s : t) : list t :=
  splitRuns sep false s.

(** [pieces.join(glue)] *)
Fixpoint join (glue : t) (pieces : list t) : t :=
  match pieces with
  | [] => []
  | piece :: rest =>
      match rest with
      | [] => piece
      | _ :: _ => piece ++ glue ++ join glue rest
      end
  end.

End JSString.

(* ================================================================== *)
(** * Error constants *)
(* ================================================================== *)

Module AccountError.
Definition account_keys_incorrect : string := "account_keys_incorrect".
End AccountError.

Module UtilsError.
(** Modelled from the spec: the constant [UtilsError.wrong_private_key]
    is declared in model/utils; the specification calls the condition
    [WrongPrivateKey]. *)
Definition wrong_private_key : string := "wrong_private_key".
End UtilsError.

(* ================================================================== *)
(** * The key and cipher library behind [Utils] and [TransactionMemo] *)
(* ================================================================== *)

(** [KeyPrivate], [KeyPublic] (model/utils) and [CryptoUtils] (crypt) are
    used by the modelled code through the operations below.  The scanner
    and the key utilities are verified for every implementation of this
    interface. *)
Class KeyLibrary : Type := {
  KeyPrivate : Type;
  KeyPublic : Type;
  Buffer : Type;
  (** [KeyPrivate.fromWif(pkWif)] *)
  KeyPrivate_fromWif : string -> result KeyPrivate;
  (** [KeyPublic.fromString(pubKeyString)] *)
  KeyPublic_fromString : string -> result KeyPublic;
  (** [KeyPrivate.fromBrainKey(brainKey, sequence)] *)
  KeyPrivate_fromBrainKey : JSString.t -> Z -> result KeyPrivate;
  (** [KeyPublic.fromPrivateKey(pkey)] *)
  KeyPublic_fromPrivateKey : KeyPrivate -> result KeyPublic;
  (** [CryptoUtils.decryptWithChecksum(message, privateKey, publicKey, nonce)] *)
  CryptoUtils_decryptWithChecksum :
    string -> KeyPrivate -> KeyPublic -> string -> result Buffer;
  (** [buffer.toString()] *)
  Buffer_toString : Buffer -> string;
  (** [pKey.key.d.toBuffer()] *)
  KeyPrivate_d_toBuffer : KeyPrivate -> Buffer;
  (** [sha512(buffer)], a string of hexadecimal digits *)
  sha512 : Buffer -> string
}.

(* ================================================================== *)
(** * [Utils]: key decoding *)
(* ================================================================== *)

Section UtilsKeys.
Context {L : KeyLibrary}.

Definition privateKeyFromWif (pkWif : string) : result KeyPrivate :=
  try_catch (KeyPrivate_fromWif pkWif)
            (fun _ => Throw (Error UtilsError.wrong_private_key)).

Definition publicKeyFromString (pubKeyString : string) : result KeyPublic :=
  KeyPublic_fromString pubKeyString.

End UtilsKeys.

(* ================================================================== *)
(** * [TransactionMemo] *)
(* ================================================================== *)

Record TransactionMemo : Type := {
  valid : bool;
  from : string;
  message : string;
  nonce : string;
  to : string
}.

Section Scanner.
Context {L : KeyLibrary}.

(** The body of the outer [try] of the callback: decode the candidate,
    then decrypt; a failure of the decryption is rethrown as
    [account_keys_incorrect]. *)
Definition attempt (this : TransactionMemo) (pubKey : KeyPublic)
           (pk : string) : result string :=
  pKey <- privateKeyFromWif pk ;;
  try_catch
    (buf <- CryptoUtils_decryptWithChecksum
              (message this) pKey pubKey (nonce this) ;;
     Ok (Buffer_toString buf))
    (fun _ => Throw (Error AccountError.account_keys_incorrect)).

(** The callback of [privateKeys.forEach]: the state is the captured
    variable [decrypted]; the outer [catch] block is empty. *)
Definition scanCandidate (this : TransactionMemo) (pubKey : KeyPublic)
           (decrypted : string) (pk : string) : result string :=
  try_catch (attempt this pubKey pk) (fun _ => Ok decrypted).

Definition decryptedMessage (this : TransactionMemo)
           (privateKeys : list string) : result string :=
  if negb (valid this) then Ok ""
  else
    pubKey <- publicKeyFromString (to this) ;;
    forEach (scanCandidate this pubKey) privateKeys "".

(** What one candidate yields, read off the library operations alone:
    the plaintext when both the decoding of the candidate and the
    decryption succeed, nothing otherwise. *)
Definition candidatePlaintext (this : TransactionMemo) (pubKey : KeyPublic)
           (pk : string) : option string :=
  match KeyPrivate_fromWif pk with
  | Throw _ => None
  | Ok pKey =>
      match CryptoUtils_decryptWithChecksum
              (message this) pKey pubKey (nonce this) with
      | Throw _ => None
      | Ok buf => Some (Buffer_toString buf)
      end
  end.

(** The plaintexts of the successful candidates, in list order. *)
Fixpoint successes (this : TransactionMemo) (pubKey : KeyPublic)
         (privateKeys : list string) : list string :=
  match privateKeys with
  | [] => []
  | pk :: rest =>
      match candidatePlaintext this pubKey pk with
      | Some p => p :: successes this pubKey rest
      | None => successes this pubKey rest
      end
  end.

End Scanner.

(* ================================================================== *)
(** * [Utils.normalize] *)
(* ================================================================== *)

(** The character class [[\t\n\v\f\r ]] of the regular expression in
    [normalize]. *)
Definition brainKeySeparator (u : JSString.codeUnit) : bool :=
  existsb (N.eqb (JSString.codeOf u)) [0x9; 0xA; 0xB; 0xC; 0xD; 0x20]%N.

Definition normalize (brainKey : JSString.t) : JSString.t :=
  let brainKey := JSString.trim brainKey in
  let brainKey := JSString.toUpperCase brainKey in
  JSString.join (JSString.literal " ")
                (JSString.split brainKeySeparator brainKey).

(** ** The description of [normalize] in the specification *)

(** The space character. *)
Definition space : JSString.codeUnit := JSString.unitOf 0x20.

(** Replace every maximal run of code units of the class [ws] by a single
    space; the flag tells whether the previous code unit was in a run. *)
Fixpoint collapseRuns (ws : JSString.codeUnit -> bool) (inRun : bool)
         (s : JSString.t) : JSString.t :=
  match s with
  | [] => []
  | u :: s' =>
      if ws u then
        if inRun then collapseRuns ws true s'
        else space :: collapseRuns ws true s'
      else u :: collapseRuns ws false s'
  end.

(** The five characters the specification lists: tab, newline, space,
    carriage return and form feed. *)
Definition specWhiteSpace (u : JSString.codeUnit) : bool :=
  existsb (N.eqb (JSString.codeOf u)) [0x9; 0xA; 0x20; 0xD; 0xC]%N.

(** [normalize] as the specification words it: trimmed at both ends,
    upper-cased, every run of the five listed characters collapsed to a
    single space. *)
Definition spec_normalize (s : JSString.t) : JSString.t :=
  collapseRuns specWhiteSpace false
    (JSString.toUpperCase (JSString.trim s)).

(** The same description with the vertical tab added to the list, that is,
    with the character class of the regular expression. *)
Definition described_normalize (s : JSString.t) : JSString.t :=
  collapseRuns brainKeySeparator false
    (JSString.toUpperCase (JSString.trim s)).

(** ** Strings without white space at their ends *)

(** The first code unit, if there is one, is not white space. *)
Definition startsClean (s : JSString.t) : bool :=
  match s with
  | [] => true
  | u :: _ => negb (JSString.isWhiteSpace u)
  end.

(** There is a last code unit and it is not white space. *)
Fixpoint endsNonWhite (s : JSString.t) : bool :=
  match s with
  | [] => false
  | u :: s' =>
      match s' with
      | [] => negb (JSString.isWhiteSpace u)
      | _ :: _ => endsNonWhite s'
      end
  end.

(** The last code unit, if there is one, is not white space. *)
Definition endsClean (s : JSString.t) : bool :=
  match s with
  | [] => true
  | _ :: _ => endsNonWhite s
  end.

(** ** Auxiliary notions *)

(** The string starts with a trailing surrogate. *)
Definition startsWithTrailing (s : JSString.t) : bool :=
  match s with
  | [] => false
  | u :: _ => JSString.isTrailingSurrogate u
  end.

(** A well-formed entry of the table of upper-case mappings: the code
    point listed is a scalar value other than white space, and so are the
    code points of its mapping, which is not empty and holds no code point
    that is listed itself. *)
Definition uppercaseEntryOk (entry : N * list N) : bool :=
  let '(c, mapping) := entry in
  Unicode.isScalarValue c && negb (JSString.isWhiteSpaceCode c) &&
  match mapping with [] => false | _ :: _ => true end &&
  forallb (fun d =>
             Unicode.isScalarValue d && negb (JSString.isWhiteSpaceCode d) &&
             match Unicode.lookup d Unicode.uppercaseTable with
             | None => true
             | Some _ => false
             end) mapping.

(** The code units of the upper-case mapping of one code point. *)
Definition upperUnits (c : N) : JSString.t :=
  JSString.CodePointsToString (Unicode.toUppercase c).

(** No code unit of the string belongs to the class. *)
Definition free (class : JSString.codeUnit -> bool) (s : JSString.t) : bool :=
  forallb (fun u => negb (class u)) s.

(* ================================================================== *)
(** * The big-integer package *)
(* ================================================================== *)

(** The part of the [big-integer] package that [Utils] uses, on [Z]:
    parsing of decimal and hexadecimal numerals, printing, and [modPow]. *)
Module BigInteger.

(** [BigInteger(v)] for a string [v]: an optional minus sign followed by
    decimal digits; anything else is rejected with the package's
    ["Invalid integer: "] error.  (The package also accepts the spellings
    that JavaScript's [Number] converts to a safe integer, such as the
    empty string, a numeral between white space, a plus sign, hexadecimal
    and exponent notation; they are not modelled.  The model is exact on
    strings of decimal digits and on strings that spell no number.) *)
Definition parse (v : string) : result Z :=
  match NilZero.int_of_string v with
  | Some d => Ok (Z.of_int d)
  | None => Throw (Error ("Invalid integer: " ++ v))
  end.

(** [n.toString()] *)
Definition toString (n : Z) : string := NilZero.string_of_int (Z.to_int n).

Definition hexDigit (c : ascii) : option Z :=
  let n := Z.of_N (N_of_ascii c) in
  if ((48 <=? n) && (n <=? 57))%Z then Some (n - 48)%Z
  else if ((97 <=? n) && (n <=? 102))%Z then Some (n - 87)%Z
  else if ((65 <=? n) && (n <=? 70))%Z then Some (n - 55)%Z
  else None.

Fixpoint parseHexFrom (acc : Z) (text : string) : result Z :=
  match text with
  | EmptyString => Ok acc
  | String c rest =>
      match hexDigit c with
      | Some d => parseHexFrom (acc * 16 + d)%Z rest
      | None =>
          Throw (Error (String c " is not a valid digit in base 16."))
      end
  end.

(** [BigInteger(text, 16)] *)
Definition parseBase16 (text : string) : result Z := parseHexFrom 0%Z text.

(** The loop of [modPow]: [while (exp.isPositive())], with [exp] halved
    at each turn; the binary digits of [exp] are consumed from the least
    significant one.  [mod] is the remainder of the truncated division,
    as the package computes it. *)
Fixpoint modPowLoop (exp : positive) (base r m : Z) : Z :=
  if (base =? 0)%Z then 0%Z
  else
    match exp with
    | xH => Z.rem (r * base) m
    | xO exp' => modPowLoop exp' (Z.rem (base * base) m) r m
    | xI exp' =>
        modPowLoop exp' (Z.rem (base * base) m) (Z.rem (r * base) m) m
    end.

(** [this.modPow(exp, mod)]: the result register starts at 1 and the loop
    does not run for an exponent that is not positive. *)
Definition modPow (this exp m : Z) : result Z :=
  if (m =? 0)%Z then Throw (Error "Cannot take modPow with modulus 0")
  else
    match exp with
    | Zpos p => Ok (modPowLoop p (Z.rem this m) 1%Z m)
    | _ => Ok 1%Z
    end.

End BigInteger.

(* ================================================================== *)
(** * [Utils]: El Gamal keys, brain keys *)
(* ================================================================== *)

(** The two string literals that [elGamalPublic] concatenates to spell the
    modulus. *)
Definition elGamalModulusHead : string :=
  "11760620558671662461946567396662025495126946227619472274".
Definition elGamalModulusTail : string :=
  "601251081547302009186313201119191293557856181195016058359990840577430081932807832465057884143546419".

Definition elGamalPublic (elGamalPrivate : string) : result string :=
  elgPriv <- BigInteger.parse elGamalPrivate ;;
  modulus <- BigInteger.parse (elGamalModulusHead ++ elGamalModulusTail) ;;
  let generator := 3%Z in
  r <- BigInteger.modPow generator elgPriv modulus ;;
  Ok (BigInteger.toString r).

(** The value of the modulus, as a number. *)
Definition elGamalModulus : Z :=
  11760620558671662461946567396662025495126946227619472274601251081547302009186313201119191293557856181195016058359990840577430081932807832465057884143546419%Z.

(** A valid scalar string: a non-empty string of decimal digits. *)
Definition isDigit (c : ascii) : bool :=
  let n := N_of_ascii c in ((48 <=? n) && (n <=? 57))%N.

Fixpoint allDigits (s : string) : bool :=
  match s with
  | EmptyString => true
  | String c s' => isDigit c && allDigits s'
  end.

Definition validScalarString (s : string) : bool :=
  match s with
  | EmptyString => false
  | _ => allDigits s
  end.

Section UtilsDerivation.
Context {L : KeyLibrary}.

Definition elGamalPrivate (privateKeyWif : string) : result string :=
  try_catch
    (pKey <- privateKeyFromWif privateKeyWif ;;
     let hash := sha512 (KeyPrivate_d_toBuffer pKey) in
     n <- BigInteger.parseBase16 hash ;;
     Ok (BigInteger.toString n))
    (fun _ => Throw (Error UtilsError.wrong_private_key)).

(** Modelled from the spec: [KeyPrivate.fromBrainKey] is declared in
    model/utils; called with the phrase alone, its sequence number is 0
    (the primary key). *)
Definition KeyPrivate_fromBrainKey_primary (brainKey : JSString.t)
  : result KeyPrivate :=
  KeyPrivate_fromBrainKey brainKey 0%Z.

Definition generateKeys (fromBrainKey : JSString.t)
  : result (KeyPrivate * KeyPublic) :=
  let normalizedBk := normalize fromBrainKey in
  pkey <- KeyPrivate_fromBrainKey_primary normalizedBk ;;
  pubKey <- KeyPublic_fromPrivateKey pkey ;;
  Ok (pkey, pubKey).

Definition derivePrivateKey (brainKey : JSString.t) (sequence : Z)
  : result KeyPrivate :=
  KeyPrivate_fromBrainKey brainKey sequence.

End UtilsDerivation.

(* ================================================================== *)
(** * The memo cipher of [CryptoUtils] *)
(* ================================================================== *)

(** [CryptoUtils.encryptWithChecksum] and [CryptoUtils.decryptWithChecksum]
    live in crypt, which delegates to the key library.  The definitions of
    this module follow section 4.4 of the specification. *)
Module MemoCipher.

(** The primitives the specification leaves abstract: the group of the
    signing curve with its base point, the mixing of the shared secret
    with the nonce, the symmetric cipher and the integrity checksum. *)
Class Suite : Type := {
  point : Type;
  add : point -> point -> point;
  basePoint : point;
  symKey : Type;
  deriveKey : point -> string -> symKey;
  symEncrypt : symKey -> list ascii -> list ascii;
  symDecrypt : symKey -> list ascii -> result (list ascii);
  checksum : list ascii -> list ascii;
  checksumLength : nat
}.

Definition DecryptionFailed : exn := Error "DecryptionFailed".

Section Cipher.
Context {S : Suite}.

(** Modelled from the spec: scalar multiplication on the curve (the
    curve arithmetic is in the key library), by doubling and adding
    along the binary digits of the scalar. *)
Definition multiply (k : positive) (P : point) : point :=
  Pos.iter_op add k P.

(** Modelled from the spec: the public key of a private scalar
    ("derived from a PrivateKey", section 3). *)
Definition toPublic (priv : positive) : point := multiply priv basePoint.

(** Modelled from the spec: step 1 of section 4.4, "combining the local
    private key with the remote public key (standard elliptic-curve
    Diffie-Hellman)". *)
Definition sharedSecret (priv : positive) (pub : point) : point :=
  multiply priv pub.

(** Modelled from the spec: steps 2 and 3 of section 4.4 on encryption,
    the payload is [checksum || plaintext] under the key mixed from the
    shared secret and the nonce. *)
Definition encryptWithChecksum (plaintext : list ascii) (priv : positive)
           (pub : point) (nonce : string) : list ascii :=
  symEncrypt (deriveKey (sharedSecret priv pub) nonce)
             (checksum plaintext ++ plaintext).

(** Modelled from the spec: steps 2 and 3 of section 4.4 on decryption,
    with the failure policy of that section: a failure of the symmetric
    cipher, a payload shorter than a checksum and a checksum mismatch
    all become [DecryptionFailed]. *)
Definition decryptWithChecksum (ciphertext : list ascii) (priv : positive)
           (pub : point) (nonce : string) : result (list ascii) :=
  match symDecrypt (deriveKey (sharedSecret priv pub) nonce) ciphertext with
  | Throw _ => Throw DecryptionFailed
  | Ok payload =>
      if (List.length payload <? checksumLength)%nat
      then Throw DecryptionFailed
      else
        let leading := firstn checksumLength payload in
        let trailing := skipn checksumLength payload in
        if list_eq_dec ascii_dec leading (checksum trailing)
        then Ok trailing
        else Throw DecryptionFailed
  end.

End Cipher.

End MemoCipher.

(* ================================================================== *)
(** * A small concrete instance *)
(* ================================================================== *)

(** A miniature of the key library, on which the statements below are
    exercised: the group is the multiplicative group modulo the prime
    2039, keys are written in decimal, the symmetric cipher is a bytewise
    exclusive or and the checksum is a 4-byte polynomial hash. *)
Module Mini.

Definition xorAscii (a b : ascii) : ascii :=
  match a, b with
  | Ascii a0 a1 a2 a3 a4 a5 a6 a7, Ascii b0 b1 b2 b3 b4 b5 b6 b7 =>
      Ascii (xorb a0 b0) (xorb a1 b1) (xorb a2 b2) (xorb a3 b3)
            (xorb a4 b4) (xorb a5 b5) (xorb a6 b6) (xorb a7 b7)
  end.

Definition hash32 (m : list ascii) : N :=
  fold_left (fun acc c => ((acc * 31 + N_of_ascii c) mod 4294967296)%N) m 7%N.

Definition checksum4 (m : list ascii) : list ascii :=
  let h := hash32 m in
  [ascii_of_N (h mod 256); ascii_of_N ((h / 256) mod 256);
   ascii_of_N ((h / 65536) mod 256); ascii_of_N ((h / 16777216) mod 256)]%N.

#[export] Instance suite : MemoCipher.Suite := {|
  MemoCipher.point := Z;
  MemoCipher.add := fun a b => ((a * b) mod 2039)%Z;
  MemoCipher.basePoint := 7%Z;
  MemoCipher.symKey := ascii;
  MemoCipher.deriveKey := fun P nonce =>
    ascii_of_N (Z.to_N ((P + Z.of_nat (String.length nonce)) mod 256)%Z);
  MemoCipher.symEncrypt := fun k p => map (xorAscii k) p;
  MemoCipher.symDecrypt := fun k c => Ok (map (xorAscii k) c);
  MemoCipher.checksum := checksum4;
  MemoCipher.checksumLength := 4
|}.

Definition decodePrivate (s : string) : result positive :=
  match BigInteger.parse s with
  | Ok (Zpos p) => Ok p
  | _ => Throw (Error "Invalid private key")
  end.

Definition decodePublic (s : string) : result Z :=
  match BigInteger.parse s with
  | Ok (Zpos p) => Ok (Zpos p)
  | _ => Throw (Error "Invalid public key")
  end.

#[export] Instance library : KeyLibrary := {|
  KeyPrivate := positive;
  KeyPublic := Z;
  Buffer := list ascii;
  KeyPrivate_fromWif := decodePrivate;
  KeyPublic_fromString := decodePublic;
  KeyPrivate_fromBrainKey := fun brainKey sequence =>
    Ok (Pos.of_succ_nat (List.length brainKey + Z.to_nat sequence));
  KeyPublic_fromPrivateKey := fun pkey => Ok (MemoCipher.toPublic pkey);
  CryptoUtils_decryptWithChecksum := fun message pKey pubKey nonce =>
    MemoCipher.decryptWithChecksum
      (list_ascii_of_string message) pKey pubKey nonce;
  Buffer_toString := string_of_list_ascii;
  KeyPrivate_d_toBuffer := fun pKey =>
    list_ascii_of_string (BigInteger.toString (Zpos pKey));
  sha512 := fun buffer => BigInteger.toString (Z.of_N (hash32 buffer))
|}.

(** A memo sent by the holder of private key [sender] to the holder of
    [recipient]. *)
Definition memoFor (sender recipient : positive) (nonce : string)
           (plaintext : string) : TransactionMemo :=
  {| valid := true;
     from := BigInteger.toString (MemoCipher.toPublic sender);
     message := string_of_list_ascii
                  (MemoCipher.encryptWithChecksum
                     (list_ascii_of_string plaintext) sender
                     (MemoCipher.toPublic recipient) nonce);
     nonce := nonce;
     to := BigInteger.toString (MemoCipher.toPublic recipient) |}.

(** A transaction without memo: the constructor of [TransactionMemo]
    sets [valid] to false and leaves the other fields unset. *)
Definition noMemo : TransactionMemo :=
  {| valid := false; from := ""; message := ""; nonce := ""; to := "" |}.

End Mini.

(** A second instance, in which every well-formed candidate decrypts the
    memo to a plaintext of its own: a candidate is well formed when it is
    not empty, and decrypts when it does not start with ['!']. *)
Module Echo.

#[export] Instance library : KeyLibrary := {|
  KeyPrivate := string;
  KeyPublic := string;
  Buffer := string;
  KeyPrivate_fromWif := fun s =>
    match s with
    | EmptyString => Throw (Error "Invalid private key")
    | _ => Ok s
    end;
  KeyPublic_fromString := fun s =>
    match s with
    | EmptyString => Throw (Error "Invalid public key")
    | _ => Ok s
    end;
  KeyPrivate_fromBrainKey := fun brainKey _ =>
    Ok (string_of_list_ascii (map JSString.lowByte brainKey));
  KeyPublic_fromPrivateKey := fun pkey => Ok pkey;
  CryptoUtils_decryptWithChecksum := fun message pKey _ _ =>
    match pKey with
    | String "!" _ => Throw (Error "Invalid key, could not decrypt message")
    | _ => Ok (message ++ pKey)
    end;
  Buffer_toString := fun b => b;
  KeyPrivate_d_toBuffer := fun pKey => pKey;
  sha512 := fun buffer => buffer
|}.

Definition memo : TransactionMemo :=
  {| valid := true; from := "A"; message := "to "; nonce := "1"; to := "B" |}.

End Echo.

(* ================================================================== *)
(** * Statements of the specification that are compared with the code *)
(* ================================================================== *)

(** The number of binary digits of a positive number. *)
Definition bitLength (n : Z) : Z := Z.log2 n + 1.

(** "Roughly 1300 bits", read generously: between 1000 and 1600 bits. *)
Definition roughly1300Bits (n : Z) : Prop :=
  (1000 <= bitLength n <= 1600)%Z.

Section ScannerStatements.
Context {L : KeyLibrary}.

(** The candidate [pk] fails: its wire string does not decode, or it
    decodes and the decryption with it fails. *)
Definition candidateFails (this : TransactionMemo) (pubKey : KeyPublic)
           (pk : string) : Prop :=
  (exists e, KeyPrivate_fromWif pk = Throw e) \/
  (exists pKey e,
      KeyPrivate_fromWif pk = Ok pKey /\
      CryptoUtils_decryptWithChecksum
        (message this) pKey pubKey (nonce this) = Throw e).

(** A no-success case: the envelope is marked invalid, or its recipient
    key decodes and no candidate of the list decrypts. *)
Definition noSuccess (this : TransactionMemo) (privateKeys : list string)
  : Prop :=
  valid this = false \/
  exists pubKey,
    publicKeyFromString (to this) = Ok pubKey /\
    successes this pubKey privateKeys = [].

(** "The empty string is returned exactly in the no-success cases." *)
Definition emptyExactlyWhenNoSuccess : Prop :=
  forall this privateKeys,
    decryptedMessage this privateKeys = Ok "" <-> noSuccess this privateKeys.

End ScannerStatements.

(* ================================================================== *)
(** * [TransactionRecord] and the constructor of [TransactionMemo] *)
(* ================================================================== *)

(** [{from, to, nonce, message}], the value of the field
    [m_transaction_encrypted_memo] of a transaction that carries a memo. *)
Module EncryptedMemo.
Record t : Type := {
  from : string;
  message : string;
  nonce : string;
  to : string
}.
End EncryptedMemo.

Module Asset.
Record t : Type := {
  amount : Z;
  asset_id : string
}.
End Asset.

(** A transaction as the database API delivers it.  The memo field is
    absent ([None]) on a transfer without memo. *)
Module Transaction.
Record t : Type := {
  id : string;
  m_from_account : string;
  m_operation_type : Z;
  m_str_description : string;
  m_timestamp : string;
  m_to_account : string;
  m_transaction_amount : Asset.t;
  m_transaction_fee : Asset.t;
  m_transaction_encrypted_memo : option EncryptedMemo.t
}.
End Transaction.

(** The value of a string field that a constructor leaves unset. *)
Definition unsetField : string := "".

(** [new TransactionMemo(transaction)] *)
Definition TransactionMemo_new (transaction : Transaction.t)
  : TransactionMemo :=
  match Transaction.m_transaction_encrypted_memo transaction with
  | None =>
      {| valid := false; from := unsetField; message := unsetField;
         nonce := unsetField; to := unsetField |}
  | Some memo =>
      {| valid := true;
         from := EncryptedMemo.from memo;
         message := EncryptedMemo.message memo;
         nonce := EncryptedMemo.nonce memo;
         to := EncryptedMemo.to memo |}
  end.

Module TransactionRecord.
Record t : Type := {
  id : string;
  fromAccountName : option string;
  toAccountName : option string;
  fromAccountId : string;
  toAccountId : string;
  operationType : Z;
  transactionAmount : Z;
  transactionFee : Z;
  description : string;
  timestamp : string;
  memo : TransactionMemo;
  memoString : string
}.
End TransactionRecord.

Section TransactionRecords.
Context {L : KeyLibrary}.

(** [new TransactionRecord(transaction, privateKeys)]; the two account
    names are filled in later by the caller. *)
Definition TransactionRecord_new (transaction : Transaction.t)
           (privateKeys : list string) : result TransactionRecord.t :=
  let memo := TransactionMemo_new transaction in
  memoString <- decryptedMessage memo privateKeys ;;
  Ok {| TransactionRecord.id := Transaction.id transaction;
        TransactionRecord.fromAccountName := None;
        TransactionRecord.toAccountName := None;
        TransactionRecord.fromAccountId :=
          Transaction.m_from_account transaction;
        TransactionRecord.toAccountId := Transaction.m_to_account transaction;
        TransactionRecord.operationType :=
          Transaction.m_operation_type transaction;
        TransactionRecord.transactionAmount :=
          Asset.amount (Transaction.m_transaction_amount transaction);
        TransactionRecord.transactionFee :=
          Asset.amount (Transaction.m_transaction_fee transaction);
        TransactionRecord.description :=
          Transaction.m_str_description transaction;
        TransactionRecord.timestamp := Transaction.m_timestamp transaction;
        TransactionRecord.memo := memo;
        TransactionRecord.memoString := memoString |}.

End TransactionRecords.

(* ================================================================== *)
(** * [Utils]: the callers of [normalize] and of the El Gamal functions *)
(* ================================================================== *)

(** [Array.prototype.map] with a callback that may throw: the first
    exception aborts the traversal. *)
Fixpoint mapResult {A B : Type} (f : A -> result B) (l : list A)
  : result (list B) :=
  match l with
  | [] => Ok []
  | x :: l' => y <- f x ;; ys <- mapResult f l' ;; Ok (y :: ys)
  end.

(** The accessor [stringKey] of [KeyPrivate] and of [KeyPublic]. *)
Class KeyStrings (L : KeyLibrary) : Type := {
  KeyPrivate_stringKey : KeyPrivate -> string;
  KeyPublic_stringKey : KeyPublic -> string
}.

Module BrainKeyInfo.
Record t : Type := {
  brain_priv_key : JSString.t;
  pub_key : string;
  wif_priv_key : string
}.
End BrainKeyInfo.

(** [{private: {s}, public: {s}}], an entry of [el_gamal_keys] in an
    exported wallet. *)
Module ElGamalPair.
Record t : Type := {
  private_s : string;
  public_s : string
}.
End ElGamalPair.

Section UtilsCallers.
Context {L : KeyLibrary} {K : KeyStrings L}.

Definition getBrainKeyInfo (brainKey : JSString.t)
  : result BrainKeyInfo.t :=
  let normalizedBK := normalize brainKey in
  keys <- generateKeys normalizedBK ;;
  Ok {| BrainKeyInfo.brain_priv_key := normalizedBK;
        BrainKeyInfo.pub_key := KeyPublic_stringKey (snd keys);
        BrainKeyInfo.wif_priv_key := KeyPrivate_stringKey (fst keys) |}.

(** [AccountModule.createAccountWithBrainkey]; the method
    [registerAccount] that it ends with builds and broadcasts the
    registration, and is left abstract. *)
Definition createAccountWithBrainkey {P : Type}
           (registerAccount :
              string -> string -> string -> string -> string -> string -> P)
           (brainkey : JSString.t)
           (accountName registrar registrarPrivateKey : string)
  : result P :=
  let normalizedBrainkey := normalize brainkey in
  keyPair <- generateKeys normalizedBrainkey ;;
  Ok (registerAccount
        accountName
        (KeyPublic_stringKey (snd keyPair))
        (KeyPublic_stringKey (snd keyPair))
        (KeyPublic_stringKey (snd keyPair))
        registrar
        registrarPrivateKey).

End UtilsCallers.

Section WalletExport.
Context {L : KeyLibrary}.

(** The callback of [privateKeys.map] in [AccountModule.exportWallet]. *)
Definition exportWallet_derivePair (pk : string) : result ElGamalPair.t :=
  elGPriv <- elGamalPrivate pk ;;
  elGPub <- elGamalPublic elGPriv ;;
  Ok {| ElGamalPair.private_s := elGPriv; ElGamalPair.public_s := elGPub |}.

(** The callback of [additionalElGamalPrivateKeys.map]. *)
Definition exportWallet_completePair (elGPriv : string)
  : result ElGamalPair.t :=
  elGPub <- elGamalPublic elGPriv ;;
  Ok {| ElGamalPair.private_s := elGPriv; ElGamalPair.public_s := elGPub |}.

(** The list [elGamalKeys] that [AccountModule.exportWallet] builds: one
    pair for each private key, then one for each additional El Gamal
    private key. *)
Definition exportWallet_elGamalKeys
           (privateKeys additionalElGamalPrivateKeys : list string)
  : result (list ElGamalPair.t) :=
  elGamalKeys <- mapResult exportWallet_derivePair privateKeys ;;
  more <- mapResult exportWallet_completePair additionalElGamalPrivateKeys ;;
  Ok (elGamalKeys ++ more)%list.

End WalletExport.

(* ================================================================== *)
(** * Brain keys in normal form *)
(* ================================================================== *)

Definition isEmpty (s : JSString.t) : bool :=
  match s with
  | [] => true
  | _ :: _ => false
  end.

(** The words of a phrase: the pieces between its separator runs that are
    not empty, [s.split(/[\t\n\v\f\r ]+/).filter(w => w !== '')]. *)
Definition words (s : JSString.t) : list JSString.t :=
  filter (fun piece => negb (isEmpty piece))
         (JSString.split brainKeySeparator s).

Definition allWhiteSpace (s : JSString.t) : bool :=
  forallb JSString.isWhiteSpace s.

Definition unitEqb (u v : JSString.codeUnit) : bool :=
  (JSString.codeOf u =? JSString.codeOf v)%N.

(** [a === b] on strings. *)
Fixpoint strictEquals (a b : JSString.t) : bool :=
  match a, b with
  | [], [] => true
  | u :: a', v :: b' => unitEqb u v && strictEquals a' b'
  | _, _ => false
  end.

(** Upper-casing leaves the string as it is. *)
Definition upperCased (s : JSString.t) : bool :=
  strictEquals (JSString.toUpperCase s) s.

(** Every separator is a space that does not follow a separator. *)
Fixpoint singleSpaced (inRun : bool) (s : JSString.t) : bool :=
  match s with
  | [] => true
  | u :: s' =>
      if brainKeySeparator u
      then negb inRun && unitEqb u space && singleSpaced true s'
      else singleSpaced false s'
  end.

(** A brain key in normal form: no white space at either end, unchanged
    by upper-casing, words separated by exactly one space. *)
Definition isNormalized (s : JSString.t) : bool :=
  startsClean s && endsClean s && upperCased s && singleSpaced false s.

(** A word: not empty and free of separators. *)
Definition isWord (w : JSString.t) : Prop :=
  w <> [] /\ free brainKeySeparator w = true.

(* ================================================================== *)
(** * JavaScript values, as far as [Validator] looks at them *)
(* ================================================================== *)

Module JS.

(** A value is known by its kind and by the properties that can be read
    from it.  For an object and for an array, [props] lists the named
    properties reachable from the value, inherited ones included; the
    elements of an array are listed apart.  A class is given by the own
    enumerable properties of a freshly constructed instance, in creation
    order.  The payload of a number plays no role. *)
#[warnings="-register-all"]
Inductive value : Type :=
| VUndefined
| VNull
| VBoolean (b : bool)
| VNumber (n : Z)
| VString (s : string)
| VObject (props : list (string * value))
| VArray (elems : list value) (props : list (string * value))
| VFunction (instance : list (string * value)).

(** [typeof v] *)
Definition typeOf (v : value) : string :=
  match v with
  | VUndefined => "undefined"
  | VNull => "object"
  | VBoolean _ => "boolean"
  | VNumber _ => "number"
  | VString _ => "string"
  | VObject _ => "object"
  | VArray _ _ => "object"
  | VFunction _ => "function"
  end.

(** [v === null] *)
Definition isNull (v : value) : bool :=
  match v with
  | VNull => true
  | _ => false
  end.

(** [Array.isArray(v)] *)
Definition isArray (v : value) : bool :=
  match v with
  | VArray _ _ => true
  | _ => false
  end.

Fixpoint lookup (key : string) (props : list (string * value)) : value :=
  match props with
  | [] => VUndefined
  | (k, v) :: rest => if String.eqb k key then v else lookup key rest
  end.

(** [v[key]] for a property name [key]: reading a property of [null] or
    of [undefined] throws a [TypeError]; an object or an array answers
    from its table.  (The validator reads properties of values whose
    [typeof] is ["object"] only; nothing is said here about the
    properties of the other kinds of value.) *)
Definition get (v : value) (key : string) : result value :=
  match v with
  | VUndefined =>
      Throw (Error ("Cannot read property '" ++ key ++ "' of undefined"))
  | VNull => Throw (Error ("Cannot read property '" ++ key ++ "' of null"))
  | VObject props => Ok (lookup key props)
  | VArray _ props => Ok (lookup key props)
  | VFunction _ => Ok VUndefined
  | VBoolean _ | VNumber _ | VString _ => Ok VUndefined
  end.

(** [v[1]], the second component of a tuple. *)
Definition getSecond (v : value) : result value :=
  match v with
  | VArray elems _ => Ok (nth 1 elems VUndefined)
  | _ => get v "1"
  end.

(** [Object.keys(t)] for a fresh instance [t] of a class. *)
Definition keys (instance : list (string * value)) : list string :=
  map fst instance.

(** Computations that write to the console and may throw: what was
    printed, in order, and the outcome. *)
Definition logged (A : Type) : Type := (list value * result A)%type.

Definition ret {A : Type} (a : A) : logged A := ([], Ok a).

Definition lift {A : Type} (r : result A) : logged A := ([], r).

(** [console.log(v)] *)
Definition console_log (v : value) : logged unit := ([v], Ok tt).

Definition bindLogged {A B : Type} (c : logged A) (k : A -> logged B)
  : logged B :=
  match c with
  | (out, Ok a) => let (out', r) := k a in ((out ++ out')%list, r)
  | (out, Throw e) => (out, Throw e)
  end.

End JS.

Declare Scope logged_scope.
Delimit Scope logged_scope with logged.
Notation "x <~ c ;; k" := (JS.bindLogged c (fun x => k))
  (at level 61, c at next level, right associativity) : logged_scope.
Notation "c ;;; k" := (JS.bindLogged c (fun _ => k))
  (at level 61, right associativity) : logged_scope.

(* ================================================================== *)
(** * [Validator] *)
(* ================================================================== *)

(** The members of the enumeration [Type] (model/types) that the code
    compares with results of [typeof]; each is the [typeof] name it is
    called after. *)
Module Type_.
Definition function : string := "function".
Definition object : string := "object".
Definition string : string := "string".
End Type_.

Module Validator.
Import JS.

(** [typeof val === type] *)
Definition validateStringType (val type : value) : bool :=
  match type with
  | VString name => String.eqb (typeOf val) name
  | _ => false
  end.

(** The callback of [Object.keys(t).forEach] in [validateObject]; the
    state is the captured variable [isValid]. *)
Definition checkKey (instance : list (string * value)) (object : value)
           (isValid : bool) (key : string) : result bool :=
  let expected := lookup key instance in
  if isNull expected then Ok isValid
  else
    actual <- get object key ;;
    if negb (String.eqb (typeOf expected) (typeOf actual)) then Ok false
    else Ok isValid.

Definition validateObject (object typeConstructor : value) : result bool :=
  match typeConstructor with
  | VFunction instance =>
      if negb (String.eqb (typeOf object) Type_.object) then Ok false
      else forEach (checkKey instance object) (keys instance) true
  | _ => Throw (Error "typeConstructor is not a constructor")
  end.

Local Open Scope logged_scope.

(** The loop of [validateArray] over the elements. *)
Fixpoint validateElements (ofType : value) (elems : list value)
  : logged bool :=
  match elems with
  | [] => ret true
  | el :: rest =>
      if String.eqb (typeOf ofType) Type_.string then
        console_log el ;;;
        if negb (validateStringType el ofType) then ret false
        else validateElements ofType rest
      else if String.eqb (typeOf ofType) Type_.function then
        console_log el ;;;
        ok <~ lift (validateObject el ofType) ;;
        if negb ok then ret false else validateElements ofType rest
      else validateElements ofType rest
  end.

Definition validateArray (array ofType : value) : logged bool :=
  match array with
  | VArray elems _ => validateElements ofType elems
  | _ => ret false
  end.

(** The loop of [validateArguments], over the arguments paired with the
    types. *)
Fixpoint validateEach (args types : list value) : logged bool :=
  match args, types with
  | arg :: args', type :: types' =>
      if String.eqb (typeOf type) Type_.function then
        ok <~ lift (validateObject arg type) ;;
        if negb ok then ret false else validateEach args' types'
      else if String.eqb (typeOf type) Type_.object then
        ofType <~ lift (getSecond type) ;;
        ok <~ validateArray arg ofType ;;
        if negb ok then ret false else validateEach args' types'
      else
        if negb (validateStringType arg type) then ret false
        else validateEach args' types'
  | _, _ => ret true
  end.

Definition validateArguments (args types : list value) : logged bool :=
  if negb (Nat.eqb (List.length args) (List.length types)) then ret false
  else validateEach args types.

End Validator.

(** The class [MinerUpdateData] (model/mining): both fields start as
    [null]. *)
Definition MinerUpdateData : JS.value :=
  JS.VFunction [("newUrl", JS.VNull); ("newSigningKey", JS.VNull)].

(** The elements that a loop examines when it stops at the first one
    that fails the test [ok]. *)
Fixpoint examined {A : Type} (ok : A -> bool) (l : list A) : list A :=
  match l with
  | [] => []
  | x :: rest => if ok x then x :: examined ok rest else [x]
  end.

(* ================================================================== *)
(** * [SubscriptionModule] *)
(* ================================================================== *)

(** How a promise ends up: fulfilled with a value, rejected with a
    reason, or never settled. *)
Module Promise.
Inductive t (A E : Type) : Type :=
| Fulfilled (a : A)
| Rejected (e : E)
| Pending.
Arguments Fulfilled {A E} a.
Arguments Rejected {A E} e.
Arguments Pending {A E}.
End Promise.

(** The operations of [DatabaseOperations] that the module constructs,
    with their two arguments. *)
Module DatabaseOperations.
Inductive t : Type :=
| ListActiveSubscriptionsByConsumer (consumerId : string) (count : Z)
| ListSubscriptionsByConsumer (consumerId : string) (count : Z)
| ListActiveSubscriptionsByAuthor (authorId : string) (count : Z).
End DatabaseOperations.

(** What the module uses of its surroundings: the database API, whose
    [execute] returns a promise (or throws), the method [handleError] of
    [ApiModule], and the constant of [SubscriptionError]. *)
Class SubscriptionBackend : Type := {
  Response : Type;
  DatabaseFailure : Type;
  HandledError : Type;
  dbApi_execute :
    DatabaseOperations.t -> result (Promise.t Response DatabaseFailure);
  handleError : string -> DatabaseFailure -> HandledError;
  SubscriptionError_database_operation_failed : string
}.

Module SubscriptionModule.
Section Methods.
Context {B : SubscriptionBackend}.

(** The reason of a rejection: what [handleError] made of a failure of
    the database, or an exception thrown inside the executor. *)
Inductive rejection : Type :=
| Handled (h : HandledError)
| Thrown (e : exn).

(** What was printed to the console, and how the returned promise ends
    up. *)
Definition outcome : Type :=
  (list Response * Promise.t Response rejection)%type.

(** [new Promise((resolve, reject) => { this.dbApi.execute(operation)
    .then(res => onFulfilled).catch(err => reject(this.handleError(
    SubscriptionError.database_operation_failed, err))) })], where
    [onFulfilled] says what the [then] handler prints and whether it
    resolves. *)
Definition executeThenCatch (operation : DatabaseOperations.t)
           (onFulfilled : Response -> outcome) : outcome :=
  match dbApi_execute operation with
  | Throw e => ([], Promise.Rejected (Thrown e))
  | Ok (Promise.Fulfilled res) => onFulfilled res
  | Ok (Promise.Rejected err) =>
      ([], Promise.Rejected
             (Handled (handleError
                         SubscriptionError_database_operation_failed err)))
  | Ok Promise.Pending => ([], Promise.Pending)
  end.

(** The default value of the parameter [count]. *)
Definition countOrDefault (count : option Z) : Z :=
  match count with
  | Some n => n
  | None => 100%Z
  end.

Definition listActiveSubscriptionByConsumer (consumerId : string)
           (count : option Z) : outcome :=
  executeThenCatch
    (DatabaseOperations.ListActiveSubscriptionsByConsumer
       consumerId (countOrDefault count))
    (fun res => ([res], Promise.Pending)).

Definition listSubscriptionsByConsumer (consumerId : string)
           (count : option Z) : outcome :=
  executeThenCatch
    (DatabaseOperations.ListSubscriptionsByConsumer
       consumerId (countOrDefault count))
    (fun res => ([], Promise.Fulfilled res)).

Definition listActiveSubscriptionsByAuthor (authorId : string)
           (count : option Z) : outcome :=
  executeThenCatch
    (DatabaseOperations.ListActiveSubscriptionsByAuthor
       authorId (countOrDefault count))
    (fun res => ([], Promise.Fulfilled res)).

Definition listSubscriptionsByAuthor (authorId : string)
           (count : option Z) : outcome :=
  executeThenCatch
    (DatabaseOperations.ListSubscriptionsByConsumer
       authorId (countOrDefault count))
    (fun res => ([], Promise.Fulfilled res)).

End Methods.
End SubscriptionModule.

(** A database with two stored answers, on which the statements about
    the module are exercised. *)
Module MiniDatabase.
#[export] Instance backend : SubscriptionBackend := {|
  Response := list string;
  DatabaseFailure := string;
  HandledError := (string * string)%type;
  dbApi_execute := fun operation =>
    match operation with
    | DatabaseOperations.ListActiveSubscriptionsByConsumer _ _ =>
        Ok (Promise.Fulfilled ["2.15.1"])
    | DatabaseOperations.ListSubscriptionsByConsumer _ _ =>
        Ok (Promise.Fulfilled ["2.15.1"; "2.15.0"])
    | DatabaseOperations.ListActiveSubscriptionsByAuthor _ _ =>
        Ok (Promise.Rejected "connection lost")
    end;
  handleError := fun message err => (message, err);
  SubscriptionError_database_operation_failed := "database_operation_failed"
|}.
End MiniDatabase.

(** The test that [validateObject] applies to a field of the class: a
    field that starts as [null] is not tested, any other must have, in the
    object, a property of the same [typeof]. *)
Definition fieldAgrees (instance props : list (string * JS.value))
           (key : string) : bool :=
  JS.isNull (JS.lookup key instance) ||
  String.eqb (JS.typeOf (JS.lookup key instance))
             (JS.typeOf (JS.lookup key props)).
(* ================================================================== *)
(** * Facts about the exception layer *)
(* ================================================================== *)

Lemma last_cons_default {A : Type} (x d : A) (l : list A) :
  last (x :: l) d = last l x.
Proof.
  revert x d. induction l as [|y l IH]; intros x d.
  - reflexivity.
  - change (last (y :: l) d = last (y :: l) x).
    now rewrite !IH.
Qed.

Lemma forEach_app {A S : Type} (f : S -> A -> result S) (l1 l2 : list A) (s : S) :
  forEach f (l1 ++ l2) s = (s' <- forEach f l1 s ;; forEach f l2 s').
Proof.
  revert s. induction l1 as [|x l1 IH]; intros s; simpl.
  - reflexivity.
  - destruct (f s x) as [s'|e]; simpl; [apply IH | reflexivity].
Qed.

(* ================================================================== *)
(** * The multi-key scanner *)
(* ================================================================== *)

Section ScannerFacts.
Context {L : KeyLibrary}.
Variable this : TransactionMemo.
Variable pubKey : KeyPublic.

(** The outer [try] succeeds exactly on a successful candidate. *)
Lemma attempt_candidatePlaintext (pk : string) :
  match candidatePlaintext this pubKey pk with
  | Some p => attempt this pubKey pk = Ok p
  | None => exists e, attempt this pubKey pk = Throw e
  end.
Proof.
  unfold candidatePlaintext, attempt, privateKeyFromWif.
  destruct (KeyPrivate_fromWif pk) as [pKey|e]; simpl.
  - destruct (CryptoUtils_decryptWithChecksum _ pKey pubKey _) as [buf|e];
      simpl; eauto.
  - eauto.
Qed.

(** One call of the callback: a success overwrites [decrypted], a failure
    leaves it as it is; the call itself never throws. *)
Lemma scanCandidate_step (decrypted pk : string) :
  scanCandidate this pubKey decrypted pk =
  Ok (match candidatePlaintext this pubKey pk with
      | Some p => p
      | None => decrypted
      end).
Proof.
  unfold scanCandidate.
  pose proof (attempt_candidatePlaintext pk) as H.
  destruct (candidatePlaintext this pubKey pk) as [p|].
  - now rewrite H.
  - destruct H as [e ->]. reflexivity.
Qed.

Lemma candidateFails_None (pk : string) :
  candidateFails this pubKey pk <-> candidatePlaintext this pubKey pk = None.
Proof.
  unfold candidateFails, candidatePlaintext. split.
  - intros [[e ->] | (pKey & e & -> & ->)]; reflexivity.
  - destruct (KeyPrivate_fromWif pk) as [pKey|e] eqn:Hk.
    + destruct (CryptoUtils_decryptWithChecksum _ pKey pubKey _)
        as [buf|e] eqn:Hd; [discriminate|].
      intros _. right. now exists pKey, e.
    + intros _. left. now exists e.
Qed.

Lemma successes_app (l1 l2 : list string) :
  successes this pubKey (l1 ++ l2) =
  (successes this pubKey l1 ++ successes this pubKey l2)%list.
Proof.
  induction l1 as [|pk l1 IH]; simpl.
  - reflexivity.
  - destruct (candidatePlaintext this pubKey pk); simpl; now rewrite IH.
Qed.

Lemma successes_all_fail (l : list string) :
  (forall k, In k l -> candidatePlaintext this pubKey k = None) ->
  successes this pubKey l = [].
Proof.
  induction l as [|pk l IH]; simpl; intros H.
  - reflexivity.
  - rewrite (H pk) by now left. apply IH. intros k Hk. apply H. now right.
Qed.

(** The loop: the final value of [decrypted] is the plaintext of the last
    success, or the initial value when there is none. *)
Lemma forEach_scanCandidate (privateKeys : list string) (decrypted : string) :
  forEach (scanCandidate this pubKey) privateKeys decrypted =
  Ok (last (successes this pubKey privateKeys) decrypted).
Proof.
  revert decrypted.
  induction privateKeys as [|pk rest IH]; intros decrypted; simpl.
  - reflexivity.
  - rewrite scanCandidate_step. simpl.
    destruct (candidatePlaintext this pubKey pk) as [p|].
    + rewrite IH. now rewrite last_cons_default.
    + apply IH.
Qed.

Lemma decryptedMessage_scan (privateKeys : list string) :
  valid this = true ->
  publicKeyFromString (to this) = Ok pubKey ->
  decryptedMessage this privateKeys =
  Ok (last (successes this pubKey privateKeys) "").
Proof.
  intros Hv Hp. unfold decryptedMessage. rewrite Hv, Hp. simpl.
  apply forEach_scanCandidate.
Qed.

End ScannerFacts.

(** C1. For a valid envelope whose recipient key decodes, the scan runs
    over the whole candidate list: whatever precedes it in the list
    (earlier successes included), the plaintext of the last successful
    candidate is what [decryptedMessage] returns. *)
Theorem decryptedMessage_last_success_wins
        {L : KeyLibrary} (this : TransactionMemo) (pubKey : KeyPublic)
        (before after : list string) (pk p : string) :
  valid this = true ->
  publicKeyFromString (to this) = Ok pubKey ->
  candidatePlaintext this pubKey pk = Some p ->
  (forall k, In k after -> candidatePlaintext this pubKey k = None) ->
  decryptedMessage this (before ++ pk :: after) = Ok p.
Proof.
  intros Hv Hp Hpk Hafter.
  rewrite (decryptedMessage_scan this pubKey) by assumption.
  rewrite successes_app. simpl. rewrite Hpk.
  rewrite (successes_all_fail this pubKey after Hafter).
  now rewrite last_last.
Qed.

(** Two candidates succeed with different plaintexts, separated and
    followed by failing ones: the second plaintext is returned. *)
Lemma decryptedMessage_last_success_wins_witness :
  decryptedMessage (L := Echo.library) Echo.memo
                   (["k1"; "!bad"] ++ "k2" :: [""; "!worse"]) = Ok "to k2".
Proof.
  apply (decryptedMessage_last_success_wins
           (L := Echo.library) Echo.memo "B" ["k1"; "!bad"] [""; "!worse"]
           "k2" "to k2").
  - reflexivity.
  - reflexivity.
  - reflexivity.
  - intros k [<- | [<- | []]]; reflexivity.
Defined.

(** C4. For a valid envelope whose recipient key decodes: a call of the
    callback on a failing candidate (undecodable wire string, or failed
    decryption) returns normally and leaves the recorded plaintext as it
    is; [decryptedMessage] returns normally for every candidate list; and a
    failing candidate anywhere in the list has no effect on the result. *)
Theorem decryptedMessage_absorbs_candidate_failures
        {L : KeyLibrary} (this : TransactionMemo) (pubKey : KeyPublic) :
  valid this = true ->
  publicKeyFromString (to this) = Ok pubKey ->
  (forall decrypted pk,
      candidateFails this pubKey pk ->
      scanCandidate this pubKey decrypted pk = Ok decrypted) /\
  (forall privateKeys,
      exists s, decryptedMessage this privateKeys = Ok s) /\
  (forall before pk after,
      candidateFails this pubKey pk ->
      decryptedMessage this (before ++ pk :: after) =
      decryptedMessage this (before ++ after)).
Proof.
  intros Hv Hp. split; [|split].
  - intros decrypted pk Hf. rewrite scanCandidate_step.
    apply candidateFails_None in Hf. now rewrite Hf.
  - intros privateKeys. eexists.
    exact (decryptedMessage_scan this pubKey privateKeys Hv Hp).
  - intros before pk after Hf. apply candidateFails_None in Hf.
    rewrite !(decryptedMessage_scan this pubKey) by assumption.
    rewrite !successes_app. simpl. now rewrite Hf.
Qed.

(** A memo whose plaintext the first candidate recovers; the candidates
    after it (not a key at all, a key that is not the sender's) fail. *)
Lemma decryptedMessage_absorbs_candidate_failures_witness :
  decryptedMessage (L := Mini.library) (Mini.memoFor 5 11 "1" "hello")
                   (["5"] ++ "not a key" :: ["6"]) =
  decryptedMessage (L := Mini.library) (Mini.memoFor 5 11 "1" "hello")
                   (["5"] ++ ["6"]).
Proof.
  refine (proj2 (proj2 (decryptedMessage_absorbs_candidate_failures
                          (L := Mini.library)
                          (Mini.memoFor 5 11 "1" "hello") 376%Z _ _))
                ["5"] "not a key" ["6"] _).
  - reflexivity.
  - vm_compute. reflexivity.
  - left. eexists. vm_compute. reflexivity.
Defined.

(** C5, as stated, fails: a candidate that decrypts a memo whose plaintext
    is empty is a success, and the empty string is returned all the same.
    Here the sender (private key 5) reads back an empty memo sent to the
    holder of private key 11. *)
Lemma decryptedMessage_empty_on_success :
  ~ emptyExactlyWhenNoSuccess (L := Mini.library).
Proof.
  intros H.
  destruct (H (Mini.memoFor 5 11 "1" "") ["5"]) as [Hempty _].
  destruct (Hempty eq_refl) as [Hinvalid | (pubKey & Hpub & Hnone)].
  - discriminate Hinvalid.
  - vm_compute in Hpub. injection Hpub as <-.
    vm_compute in Hnone. discriminate Hnone.
Qed.

(** C5, amended. [decryptedMessage] returns the empty string, without
    throwing, when the envelope is marked invalid (whatever the key
    decoders would do) and when, the recipient key of a valid envelope
    being decoded, no candidate of the list succeeds.  Conversely, when the
    empty string is returned, either the envelope is invalid or the
    plaintext recorded last is empty: no candidate succeeded, or the last
    successful one decrypted to the empty plaintext. *)
Theorem decryptedMessage_empty_cases
        {L : KeyLibrary} (this : TransactionMemo) (privateKeys : list string) :
  (noSuccess this privateKeys -> decryptedMessage this privateKeys = Ok "") /\
  (decryptedMessage this privateKeys = Ok "" ->
   valid this = false \/
   exists pubKey,
     publicKeyFromString (to this) = Ok pubKey /\
     last (successes this pubKey privateKeys) "" = "").
Proof.
  split.
  - intros [Hinvalid | (pubKey & Hpub & Hnone)].
    + unfold decryptedMessage. now rewrite Hinvalid.
    + destruct (valid this) eqn:Hv.
      * rewrite (decryptedMessage_scan this pubKey) by assumption.
        now rewrite Hnone.
      * unfold decryptedMessage. now rewrite Hv.
  - intros Hret. destruct (valid this) eqn:Hv; [right | now left].
    destruct (publicKeyFromString (to this)) as [pubKey|e] eqn:Hpub.
    + exists pubKey. split; [reflexivity|].
      rewrite (decryptedMessage_scan this pubKey) in Hret by assumption.
      now injection Hret.
    + unfold decryptedMessage in Hret. rewrite Hv, Hpub in Hret.
      discriminate Hret.
Qed.

(** A transaction without memo: the empty string comes back although the
    unset recipient field would not decode. *)
Lemma decryptedMessage_empty_cases_witness :
  decryptedMessage (L := Mini.library) Mini.noMemo ["5"; "not a key"] = Ok ""
  /\ publicKeyFromString (L := Mini.library) (to Mini.noMemo) =
     Throw (Error "Invalid public key").
Proof.
  split.
  - apply (proj1 (decryptedMessage_empty_cases
                    (L := Mini.library) Mini.noMemo ["5"; "not a key"])).
    left. reflexivity.
  - reflexivity.
Defined.

(** C10. When the envelope is marked valid and the decoding of its [to]
    field throws, [decryptedMessage] throws the same exception, for every
    candidate list: the decoding precedes the loop and no handler encloses
    it. *)
Theorem decryptedMessage_propagates_recipient_decode_error
        {L : KeyLibrary} (this : TransactionMemo) (e : exn)
        (privateKeys : list string) :
  valid this = true ->
  KeyPublic_fromString (to this) = Throw e ->
  decryptedMessage this privateKeys = Throw e.
Proof.
  intros Hv Hp. unfold decryptedMessage, publicKeyFromString.
  now rewrite Hv, Hp.
Qed.

Lemma decryptedMessage_propagates_recipient_decode_error_witness :
  decryptedMessage
    (L := Mini.library)
    {| valid := true; from := "495"; message := "";
       nonce := "1"; to := "not a public key" |}
    ["5"] = Throw (Error "Invalid public key").
Proof.
  apply decryptedMessage_propagates_recipient_decode_error.
  - reflexivity.
  - reflexivity.
Defined.

(* ================================================================== *)
(** * [Utils.generateKeys] *)
(* ================================================================== *)

(** C9. [generateKeys] returns a pair exactly when the derivation at
    sequence 0 of the normalized phrase returns the private key of the pair
    and the public-key computation on that private key returns its public
    key; when either step throws, so does [generateKeys], with the same
    exception. *)
Theorem generateKeys_primary_derivation_then_public
        {L : KeyLibrary} (phrase : JSString.t) :
  generateKeys phrase =
  (pkey <- derivePrivateKey (normalize phrase) 0 ;;
   pubKey <- KeyPublic_fromPrivateKey pkey ;;
   Ok (pkey, pubKey)) /\
  (forall pkey pubKey,
      generateKeys phrase = Ok (pkey, pubKey) <->
      derivePrivateKey (normalize phrase) 0 = Ok pkey /\
      KeyPublic_fromPrivateKey pkey = Ok pubKey).
Proof.
  split; [reflexivity|].
  intros pkey pubKey.
  unfold generateKeys, derivePrivateKey, KeyPrivate_fromBrainKey_primary.
  destruct (KeyPrivate_fromBrainKey (normalize phrase) 0) as [k|e]; simpl.
  - destruct (KeyPublic_fromPrivateKey k) as [q|e] eqn:Hq; simpl.
    + split.
      * intros [= <- <-]. now split.
      * intros [[= <-] Hq']. rewrite Hq in Hq'. now injection Hq' as <-.
    + split; [discriminate|].
      intros [[= <-] Hq']. rewrite Hq in Hq'. discriminate Hq'.
  - split; [discriminate | intros [[=] _]].
Qed.

(* ================================================================== *)
(** * The memo cipher *)
(* ================================================================== *)

Section MemoCipherFacts.
Import MemoCipher.
Context {S : Suite}.

(** The group law of the curve is associative. *)
Hypothesis add_assoc : forall P Q R : point, add P (add Q R) = add (add P Q) R.

Lemma multiply_succ (k : positive) (P : point) :
  multiply (Pos.succ k) P = add P (multiply k P).
Proof. unfold multiply. now apply Pos.iter_op_succ. Qed.

Lemma multiply_add (j k : positive) (P : point) :
  multiply (j + k) P = add (multiply j P) (multiply k P).
Proof.
  induction j as [|j IH] using Pos.peano_ind.
  - now rewrite Pos.add_1_l, multiply_succ.
  - now rewrite Pos.add_succ_l, !multiply_succ, IH, add_assoc.
Qed.

Lemma multiply_mul (j k : positive) (P : point) :
  multiply j (multiply k P) = multiply (j * k) P.
Proof.
  induction j as [|j IH] using Pos.peano_ind.
  - now rewrite Pos.mul_1_l.
  - now rewrite Pos.mul_succ_l, multiply_add, multiply_succ, IH.
Qed.

Lemma sharedSecret_symmetric (privA privB : positive) :
  sharedSecret privA (toPublic privB) = sharedSecret privB (toPublic privA).
Proof.
  unfold sharedSecret, toPublic.
  now rewrite !multiply_mul, Pos.mul_comm.
Qed.

(** The symmetric cipher decrypts what it encrypted under the same key,
    and checksums have the fixed length. *)
Hypothesis symDecrypt_symEncrypt :
  forall k payload, symDecrypt k (symEncrypt k payload) = Ok payload.
Hypothesis checksum_length :
  forall m, List.length (checksum m) = checksumLength.

Lemma decrypt_encrypt_same_secret (m : list ascii) (privA privB : positive)
      (nonce : string) :
  decryptWithChecksum
    (encryptWithChecksum m privA (toPublic privB) nonce)
    privB (toPublic privA) nonce = Ok m.
Proof.
  unfold decryptWithChecksum, encryptWithChecksum.
  rewrite (sharedSecret_symmetric privB privA), symDecrypt_symEncrypt.
  assert (Hlen : (List.length (checksum m ++ m) <? checksumLength)%nat = false).
  { apply Nat.ltb_ge. rewrite length_app, checksum_length. lia. }
  rewrite Hlen.
  rewrite firstn_app, skipn_app, checksum_length, Nat.sub_diag.
  rewrite firstn_all2, skipn_all2 by (rewrite checksum_length; lia).
  simpl. rewrite app_nil_r.
  destruct (list_eq_dec ascii_dec (checksum m) (checksum m)) as [_|Hne].
  - reflexivity.
  - now contradiction Hne.
Qed.

End MemoCipherFacts.

(** ** The small instance satisfies the assumptions *)

Lemma Mini_add_assoc (P Q R : Z) :
  @MemoCipher.add Mini.suite P (@MemoCipher.add Mini.suite Q R) =
  @MemoCipher.add Mini.suite (@MemoCipher.add Mini.suite P Q) R.
Proof.
  simpl. now rewrite Z.mul_mod_idemp_r, Z.mul_mod_idemp_l, Z.mul_assoc.
Qed.

Lemma Mini_xorAscii_involutive (k c : ascii) :
  Mini.xorAscii k (Mini.xorAscii k c) = c.
Proof.
  destruct k, c. simpl.
  now rewrite <- !xorb_assoc, !xorb_nilpotent, !xorb_false_l.
Qed.

Lemma Mini_symDecrypt_symEncrypt (k : ascii) (payload : list ascii) :
  @MemoCipher.symDecrypt Mini.suite k (@MemoCipher.symEncrypt Mini.suite k payload)
  = Ok payload.
Proof.
  simpl. f_equal. rewrite map_map.
  rewrite <- (map_id payload) at 2.
  apply map_ext. intros c. apply Mini_xorAscii_involutive.
Qed.

Lemma Mini_checksum_length (m : list ascii) :
  List.length (@MemoCipher.checksum Mini.suite m) =
  @MemoCipher.checksumLength Mini.suite.
Proof. reflexivity. Qed.

(** C3. Diffie-Hellman symmetry: in a group with an associative law, the
    secret that A computes from its private scalar and the public key of B
    is the secret that B computes from its private scalar and the public
    key of A. *)
Theorem sharedSecret_is_symmetric
        {S : MemoCipher.Suite}
        (add_assoc : forall P Q R : MemoCipher.point,
            MemoCipher.add P (MemoCipher.add Q R) =
            MemoCipher.add (MemoCipher.add P Q) R)
        (privA privB : positive) :
  MemoCipher.sharedSecret privA (MemoCipher.toPublic privB) =
  MemoCipher.sharedSecret privB (MemoCipher.toPublic privA).
Proof. now apply sharedSecret_symmetric. Qed.

Lemma sharedSecret_is_symmetric_witness :
  MemoCipher.sharedSecret (S := Mini.suite) 5 (MemoCipher.toPublic 11) =
  MemoCipher.sharedSecret (S := Mini.suite) 11 (MemoCipher.toPublic 5).
Proof.
  apply (sharedSecret_is_symmetric (S := Mini.suite) Mini_add_assoc 5 11).
Defined.

(** C2. Memo round trip: when the group law is associative, the symmetric
    cipher decrypts what it encrypted and checksums have their fixed
    length, a memo encrypted from A to B under a nonce is recovered exactly
    by B from its private key, the public key of A and the same nonce. *)
Theorem decryptWithChecksum_encryptWithChecksum
        {S : MemoCipher.Suite}
        (add_assoc : forall P Q R : MemoCipher.point,
            MemoCipher.add P (MemoCipher.add Q R) =
            MemoCipher.add (MemoCipher.add P Q) R)
        (symDecrypt_symEncrypt : forall k payload,
            MemoCipher.symDecrypt k (MemoCipher.symEncrypt k payload) = Ok payload)
        (checksum_length : forall m,
            List.length (MemoCipher.checksum m) = MemoCipher.checksumLength)
        (m : list ascii) (privA privB : positive) (nonce : string) :
  MemoCipher.decryptWithChecksum
    (MemoCipher.encryptWithChecksum m privA (MemoCipher.toPublic privB) nonce)
    privB (MemoCipher.toPublic privA) nonce = Ok m.
Proof. now apply decrypt_encrypt_same_secret. Qed.

Lemma decryptWithChecksum_encryptWithChecksum_witness :
  MemoCipher.decryptWithChecksum
    (S := Mini.suite)
    (MemoCipher.encryptWithChecksum
       (S := Mini.suite)
       (list_ascii_of_string "hello") 5 (MemoCipher.toPublic 11) "1")
    11 (MemoCipher.toPublic 5) "1" = Ok (list_ascii_of_string "hello").
Proof.
  apply (decryptWithChecksum_encryptWithChecksum
           (S := Mini.suite)
           Mini_add_assoc Mini_symDecrypt_symEncrypt Mini_checksum_length).
Defined.

(* ================================================================== *)
(** * The big-integer package: parsing and [modPow] *)
(* ================================================================== *)

Lemma isDigit_uint_of_char (c : ascii) (d : Decimal.uint) :
  isDigit c = true -> exists d', uint_of_char c (Some d) = Some d'.
Proof.
  destruct c as [[] [] [] [] [] [] [] []]; simpl;
    try discriminate; intros _; eexists; reflexivity.
Qed.

Lemma isDigit_not_minus (c : ascii) :
  isDigit c = true -> Ascii.eqb c "-" = false.
Proof.
  destruct c as [[] [] [] [] [] [] [] []]; simpl;
    try discriminate; reflexivity.
Qed.

Lemma allDigits_uint_of_string (s : string) :
  allDigits s = true -> exists d, NilEmpty.uint_of_string s = Some d.
Proof.
  induction s as [|c s IH]; simpl.
  - intros _. now eexists.
  - intros H. apply andb_prop in H as [Hc Hs].
    destruct (IH Hs) as [d ->]. now apply isDigit_uint_of_char.
Qed.

(** A valid scalar string is read as a number that is not negative. *)
Lemma parse_validScalarString (s : string) :
  validScalarString s = true ->
  exists n, (0 <= n)%Z /\ BigInteger.parse s = Ok n.
Proof.
  destruct s as [|c s]; [discriminate|].
  intros H. unfold validScalarString in H.
  destruct (allDigits_uint_of_string _ H) as [d Hd].
  simpl in H. apply andb_prop in H as [Hc _].
  unfold BigInteger.parse, NilZero.int_of_string, NilZero.uint_of_string.
  rewrite (isDigit_not_minus c Hc), Hd. simpl.
  exists (Z.of_uint d). split; [|reflexivity].
  unfold Z.of_uint. apply N2Z.is_nonneg.
Qed.

(** Printing a number and reading it back. *)
Lemma parse_toString (n : Z) : BigInteger.parse (BigInteger.toString n) = Ok n.
Proof.
  unfold BigInteger.parse, BigInteger.toString.
  rewrite NilZero.isi.
  - now rewrite DecimalZ.of_to.
  - destruct n as [|p|p]; simpl; try discriminate.
    intros [= H]. now apply DecimalPos.Unsigned.to_uint_nonnil in H.
  - destruct n as [|p|p]; simpl; try discriminate.
    intros [= H]. now apply DecimalPos.Unsigned.to_uint_nonnil in H.
Qed.

Lemma pow_xO (b : Z) (p : positive) :
  (b ^ Zpos p~0 = (b * b) ^ Zpos p)%Z.
Proof.
  rewrite Pos2Z.inj_xO, Z.pow_mul_r, Z.pow_2_r by lia. reflexivity.
Qed.

Lemma pow_xI (b : Z) (p : positive) :
  (b ^ Zpos p~1 = b * (b * b) ^ Zpos p)%Z.
Proof.
  rewrite Pos2Z.inj_xI, Z.pow_add_r, Z.pow_mul_r, Z.pow_2_r, Z.pow_1_r by lia.
  ring.
Qed.

(** The loop of [modPow] computes [r * base ^ exp] modulo [m]. *)
Lemma modPowLoop_spec (exp : positive) :
  forall base r m : Z,
    (0 < m)%Z -> (0 <= base)%Z -> (0 <= r)%Z ->
    BigInteger.modPowLoop exp base r m = ((r * base ^ Zpos exp) mod m)%Z.
Proof.
  induction exp as [exp IH | exp IH |]; intros base r m Hm Hb Hr;
    cbn [BigInteger.modPowLoop];
    destruct (Z.eqb_spec base 0) as [-> | Hnz].
  - now rewrite Z.pow_0_l, Z.mul_0_r, Z.mod_0_l by lia.
  - rewrite !Z.rem_mod_nonneg by nia.
    rewrite IH by (try apply Z.mod_pos_bound; lia).
    rewrite pow_xI.
    rewrite Z.mul_mod_idemp_l by lia.
    rewrite <- Z.mul_mod_idemp_r, <- Zpower_mod, Z.mul_mod_idemp_r by lia.
    f_equal. ring.
  - now rewrite Z.pow_0_l, Z.mul_0_r, Z.mod_0_l by lia.
  - rewrite !Z.rem_mod_nonneg by nia.
    rewrite IH by (try apply Z.mod_pos_bound; lia).
    rewrite pow_xO.
    now rewrite <- Z.mul_mod_idemp_r, <- Zpower_mod, Z.mul_mod_idemp_r by lia.
  - now rewrite Z.pow_0_l, Z.mul_0_r, Z.mod_0_l by lia.
  - rewrite Z.rem_mod_nonneg by nia. now rewrite Z.pow_1_r.
Qed.

Lemma modPow_spec (this exp m : Z) :
  (0 <= this)%Z -> (0 <= exp)%Z -> (1 < m)%Z ->
  BigInteger.modPow this exp m = Ok ((this ^ exp) mod m)%Z.
Proof.
  intros Ht He Hm. unfold BigInteger.modPow.
  destruct (Z.eqb_spec m 0) as [-> | _]; [lia|].
  destruct exp as [|p|p]; [| |lia].
  - now rewrite Z.pow_0_r, Z.mod_1_l.
  - rewrite modPowLoop_spec by (try apply Z.rem_nonneg; lia).
    rewrite Z.rem_mod_nonneg, Z.mul_1_l by lia.
    now rewrite <- Zpower_mod by lia.
Qed.

(* ================================================================== *)
(** * [Utils.elGamalPublic] and [Utils.elGamalPrivate] *)
(* ================================================================== *)

Lemma parse_elGamalModulus :
  BigInteger.parse (elGamalModulusHead ++ elGamalModulusTail) = Ok elGamalModulus.
Proof. vm_compute. reflexivity. Qed.

(** The modulus is greater than 1. *)
Lemma elGamalModulus_gt_1 : (1 < elGamalModulus)%Z.
Proof. reflexivity. Qed.

Lemma elGamalPublic_of_scalar (s : string) (n : Z) :
  BigInteger.parse s = Ok n -> (0 <= n)%Z ->
  elGamalPublic s =
  Ok (BigInteger.toString ((3 ^ n) mod elGamalModulus)%Z).
Proof.
  intros Hs Hn. unfold elGamalPublic.
  rewrite Hs, parse_elGamalModulus. simpl.
  now rewrite (modPow_spec 3 n elGamalModulus
                          ltac:(lia) Hn elGamalModulus_gt_1).
Qed.

(** Every failure of [elGamalPrivate] is reported as [wrong_private_key]. *)
Lemma elGamalPrivate_failure {L : KeyLibrary} (privateKeyWif : string) (e : exn) :
  elGamalPrivate privateKeyWif = Throw e ->
  e = Error UtilsError.wrong_private_key.
Proof.
  unfold elGamalPrivate, try_catch.
  destruct (bind _ _); [discriminate | now intros [= <-]].
Qed.

Lemma elGamalPrivate_malformed {L : KeyLibrary} (privateKeyWif : string) (e : exn) :
  KeyPrivate_fromWif privateKeyWif = Throw e ->
  elGamalPrivate privateKeyWif = Throw (Error UtilsError.wrong_private_key).
Proof.
  intros H. unfold elGamalPrivate, privateKeyFromWif. now rewrite H.
Qed.

(** The size of the constant: the modulus has 512 binary digits, which is
    not the "roughly 1300 bits" of the specification. *)
Lemma elGamalModulus_is_not_1300_bits :
  bitLength elGamalModulus = 512%Z /\ ~ roughly1300Bits elGamalModulus.
Proof.
  split.
  - vm_compute. reflexivity.
  - unfold roughly1300Bits. intros [H _]. vm_compute in H. now apply H.
Qed.

(** X23. For every valid scalar string [s], read as the number [n],
    [elGamalPublic s] is the decimal spelling of [3 ^ n mod modulus], a
    number that is not negative and is below the modulus; the modulus is
    the single constant spelled by the two literals of the function, and it
    has 512 binary digits (155 decimal digits). *)
Theorem elGamalPublic_is_modular_exponentiation (s : string) :
  validScalarString s = true ->
  exists n r : Z,
    BigInteger.parse s = Ok n /\ (0 <= n)%Z /\
    r = ((3 ^ n) mod elGamalModulus)%Z /\
    elGamalPublic s = Ok (BigInteger.toString r) /\
    BigInteger.parse (BigInteger.toString r) = Ok r /\
    (0 <= r < elGamalModulus)%Z /\
    BigInteger.parse (elGamalModulusHead ++ elGamalModulusTail)
    = Ok elGamalModulus /\
    bitLength elGamalModulus = 512%Z /\
    String.length (elGamalModulusHead ++ elGamalModulusTail) = 155%nat.
Proof.
  intros Hs. destruct (parse_validScalarString s Hs) as (n & Hn & Hp).
  pose proof elGamalModulus_gt_1 as Hm.
  exists n, ((3 ^ n) mod elGamalModulus)%Z.
  split; [exact Hp|]. split; [exact Hn|]. split; [reflexivity|].
  split; [exact (elGamalPublic_of_scalar s n Hp Hn)|].
  split; [apply parse_toString|].
  split; [apply Z.mod_pos_bound; lia|].
  split; [exact parse_elGamalModulus|].
  split; vm_compute; reflexivity.
Qed.

Lemma elGamalPublic_is_modular_exponentiation_witness :
  elGamalPublic "5" = Ok "243".
Proof.
  destruct (elGamalPublic_is_modular_exponentiation "5" eq_refl)
    as (n & r & Hp & _ & Hr & He & _).
  injection Hp as <-. rewrite He, Hr. vm_compute. reflexivity.
Defined.

(** C7, on the code: [elGamalPrivate] reports a malformed key, and any
    other failure, as [wrong_private_key]; [elGamalPublic] has no handler,
    so that the exception of the big-integer parser leaves it unchanged:
    for the input ["abc"] it is ["Invalid integer: abc"], not
    [wrong_private_key]. *)
Theorem elGamalPublic_malformed_input_error :
  elGamalPublic "abc" = Throw (Error "Invalid integer: abc") /\
  elGamalPublic "abc" <> Throw (Error UtilsError.wrong_private_key) /\
  (forall s e, BigInteger.parse s = Throw e -> elGamalPublic s = Throw e) /\
  (forall (L : KeyLibrary) wif e,
      KeyPrivate_fromWif wif = Throw e ->
      elGamalPrivate wif = Throw (Error UtilsError.wrong_private_key)) /\
  (forall (L : KeyLibrary) wif e,
      elGamalPrivate wif = Throw e -> e = Error UtilsError.wrong_private_key).
Proof.
  split; [reflexivity|]. split; [discriminate|]. split; [|split].
  - intros s e H. unfold elGamalPublic. now rewrite H.
  - intros L wif e. apply elGamalPrivate_malformed.
  - intros L wif e. apply elGamalPrivate_failure.
Qed.

(* ================================================================== *)
(** * Code units, code points and upper-casing *)
(* ================================================================== *)

Section CodeUnitFacts.
Import JSString.
Local Open Scope list_scope.
Local Open Scope N_scope.

Lemma codeOf_lt (u : codeUnit) : codeOf u < 0x10000.
Proof.
  unfold codeOf.
  pose proof (N_ascii_bounded (highByte u)).
  pose proof (N_ascii_bounded (lowByte u)). lia.
Qed.

Lemma unitOf_codeOf (u : codeUnit) : unitOf (codeOf u) = u.
Proof.
  destruct u as [h l]. unfold unitOf, codeOf. cbn [highByte lowByte].
  pose proof (N_ascii_bounded h). pose proof (N_ascii_bounded l).
  replace ((256 * N_of_ascii h + N_of_ascii l) / 256) with (N_of_ascii h)
    by (apply N.div_unique with (r := N_of_ascii l); lia).
  replace ((256 * N_of_ascii h + N_of_ascii l) mod 256) with (N_of_ascii l)
    by (apply N.mod_unique with (q := N_of_ascii h); lia).
  now rewrite !ascii_N_embedding.
Qed.

Lemma codeOf_unitOf (n : N) : n < 0x10000 -> codeOf (unitOf n) = n.
Proof.
  intros H. unfold codeOf, unitOf. cbn [highByte lowByte].
  rewrite !N_ascii_embedding.
  - symmetry. apply N.div_mod. discriminate.
  - apply N.mod_lt. discriminate.
  - apply N.Div0.div_lt_upper_bound. exact H.
Qed.

Lemma codeOf_inj (u v : codeUnit) : codeOf u = codeOf v -> u = v.
Proof.
  intros H. rewrite <- (unitOf_codeOf u), <- (unitOf_codeOf v). now rewrite H.
Qed.

(** ** The table of upper-case mappings *)

Lemma uppercaseTable_ok :
  forallb uppercaseEntryOk Unicode.uppercaseTable = true.
Proof. vm_compute. reflexivity. Qed.

Lemma lookup_In (c : N) (table : list (N * list N)) (mapping : list N) :
  Unicode.lookup c table = Some mapping -> In (c, mapping) table.
Proof.
  induction table as [|[k m] table IH]; simpl; [discriminate|].
  destruct (N.eqb_spec k c) as [->|_].
  - intros [= ->]. now left.
  - intros H. right. now apply IH.
Qed.

Lemma lookup_ok (c : N) (mapping : list N) :
  Unicode.lookup c Unicode.uppercaseTable = Some mapping ->
  uppercaseEntryOk (c, mapping) = true.
Proof.
  intros H. apply lookup_In in H.
  exact (proj1 (forallb_forall _ _) uppercaseTable_ok _ H).
Qed.

Lemma toUppercase_nonempty (c : N) : Unicode.toUppercase c <> [].
Proof.
  unfold Unicode.toUppercase.
  destruct (Unicode.lookup c Unicode.uppercaseTable) as [m|] eqn:E;
    [|discriminate].
  apply lookup_ok in E. unfold uppercaseEntryOk in E.
  destruct m; [|discriminate].
  now rewrite andb_false_r in E.
Qed.

(** The code points of a mapping are mapped to themselves. *)
Lemma toUppercase_fixed (c d : N) :
  In d (Unicode.toUppercase c) -> Unicode.toUppercase d = [d].
Proof.
  unfold Unicode.toUppercase at 1.
  destruct (Unicode.lookup c Unicode.uppercaseTable) as [m|] eqn:E.
  - apply lookup_ok in E. unfold uppercaseEntryOk in E.
    apply andb_prop in E as [_ E]. intros Hd.
    apply (proj1 (forallb_forall _ _) E) in Hd.
    apply andb_prop in Hd as [_ Hd]. unfold Unicode.toUppercase.
    now destruct (Unicode.lookup d Unicode.uppercaseTable).
  - intros [<-|[]]. unfold Unicode.toUppercase. now rewrite E.
Qed.

Lemma toUppercase_idempotent (c : N) :
  flat_map Unicode.toUppercase (Unicode.toUppercase c) = Unicode.toUppercase c.
Proof.
  pose proof (toUppercase_fixed c) as H.
  induction (Unicode.toUppercase c) as [|d m IH]; [reflexivity|].
  simpl. rewrite (H d) by now left. simpl. f_equal.
  apply IH. intros d' Hd'. apply H. now right.
Qed.

Lemma toUppercase_not_scalar (c : N) :
  Unicode.isScalarValue c = false -> Unicode.toUppercase c = [c].
Proof.
  intros Hc. unfold Unicode.toUppercase.
  destruct (Unicode.lookup c Unicode.uppercaseTable) as [m|] eqn:E;
    [|reflexivity].
  apply lookup_ok in E. unfold uppercaseEntryOk in E.
  now rewrite Hc in E.
Qed.

Lemma toUppercase_whiteSpace (c : N) :
  isWhiteSpaceCode c = true -> Unicode.toUppercase c = [c].
Proof.
  intros Hc. unfold Unicode.toUppercase.
  destruct (Unicode.lookup c Unicode.uppercaseTable) as [m|] eqn:E;
    [|reflexivity].
  apply lookup_ok in E. unfold uppercaseEntryOk in E.
  rewrite Hc in E. now rewrite andb_false_r in E.
Qed.

Lemma toUppercase_scalar (c d : N) :
  Unicode.isScalarValue c = true -> In d (Unicode.toUppercase c) ->
  Unicode.isScalarValue d = true.
Proof.
  intros Hc. unfold Unicode.toUppercase.
  destruct (Unicode.lookup c Unicode.uppercaseTable) as [m|] eqn:E.
  - apply lookup_ok in E. unfold uppercaseEntryOk in E.
    apply andb_prop in E as [_ E]. intros Hd.
    apply (proj1 (forallb_forall _ _) E) in Hd.
    apply andb_prop in Hd as [Hd _]. now apply andb_prop in Hd as [Hs _].
  - now intros [<-|[]].
Qed.

Lemma toUppercase_not_whiteSpace (c d : N) :
  isWhiteSpaceCode c = false -> In d (Unicode.toUppercase c) ->
  isWhiteSpaceCode d = false.
Proof.
  intros Hc. unfold Unicode.toUppercase.
  destruct (Unicode.lookup c Unicode.uppercaseTable) as [m|] eqn:E.
  - apply lookup_ok in E. unfold uppercaseEntryOk in E.
    apply andb_prop in E as [_ E]. intros Hd.
    apply (proj1 (forallb_forall _ _) E) in Hd.
    apply andb_prop in Hd as [Hd _]. apply andb_prop in Hd as [_ Hn].
    now apply negb_true_iff.
  - now intros [<-|[]].
Qed.

End CodeUnitFacts.

Section UTF16Facts.
Import JSString.
Local Open Scope list_scope.
Local Open Scope N_scope.

(** ** Surrogates *)

Lemma leading_not_trailing (u : codeUnit) :
  isLeadingSurrogate u = true -> isTrailingSurrogate u = false.
Proof.
  unfold isLeadingSurrogate, isTrailingSurrogate.
  rewrite andb_true_iff, andb_false_iff, !N.leb_le, !N.leb_gt. lia.
Qed.

Lemma whiteSpaceCode_plain (c : N) :
  isWhiteSpaceCode c = true ->
  c <= 0xFFFF /\ Unicode.isScalarValue c = true.
Proof.
  intros H. apply existsb_exists in H as (w & Hin & Heq).
  apply N.eqb_eq in Heq. subst w. revert c Hin. apply Forall_forall.
  unfold whiteSpaceCodes.
  repeat (constructor; [split; [apply N.leb_le|]; reflexivity|]). constructor.
Qed.

Lemma whiteSpace_not_surrogate (u : codeUnit) :
  isWhiteSpace u = true ->
  isLeadingSurrogate u = false /\ isTrailingSurrogate u = false.
Proof.
  intros H. apply whiteSpaceCode_plain in H as [_ H].
  unfold Unicode.isScalarValue in H.
  rewrite orb_true_iff, andb_true_iff, !N.ltb_lt, N.leb_le in H.
  unfold isLeadingSurrogate, isTrailingSurrogate.
  rewrite !andb_false_iff, !N.leb_gt. lia.
Qed.

Lemma surrogate_not_scalar (u : codeUnit) :
  Unicode.isScalarValue (codeOf u) = false <->
  isLeadingSurrogate u = true \/ isTrailingSurrogate u = true.
Proof.
  pose proof (codeOf_lt u) as Hlt.
  unfold Unicode.isScalarValue, isLeadingSurrogate, isTrailingSurrogate.
  rewrite orb_false_iff, andb_false_iff, !andb_true_iff.
  rewrite !N.ltb_ge, N.leb_gt, !N.leb_le. lia.
Qed.

(** ** Decoding and encoding *)

Lemma StringToCodePoints_pair (u v : codeUnit) (r : t) :
  isLeadingSurrogate u = true -> isTrailingSurrogate v = true ->
  StringToCodePoints (u :: v :: r) =
  UTF16SurrogatePairToCodePoint u v :: StringToCodePoints r.
Proof.
  intros Hu Hv.
  change (StringToCodePoints (u :: v :: r))
    with (if isLeadingSurrogate u && isTrailingSurrogate v
          then UTF16SurrogatePairToCodePoint u v :: StringToCodePoints r
          else codeOf u :: StringToCodePoints (v :: r)).
  now rewrite Hu, Hv.
Qed.

Lemma StringToCodePoints_cons (u : codeUnit) (r : t) :
  isLeadingSurrogate u && startsWithTrailing r = false ->
  StringToCodePoints (u :: r) = codeOf u :: StringToCodePoints r.
Proof.
  destruct r as [|v r]; [reflexivity|].
  change (StringToCodePoints (u :: v :: r))
    with (if isLeadingSurrogate u && isTrailingSurrogate v
          then UTF16SurrogatePairToCodePoint u v :: StringToCodePoints r
          else codeOf u :: StringToCodePoints (v :: r)).
  cbn [startsWithTrailing]. now intros ->.
Qed.

Lemma UTF16EncodeCodePoint_codeOf (u : codeUnit) :
  UTF16EncodeCodePoint (codeOf u) = [u].
Proof.
  unfold UTF16EncodeCodePoint. pose proof (codeOf_lt u) as H.
  destruct (N.leb_spec (codeOf u) 0xFFFF); [|lia].
  now rewrite unitOf_codeOf.
Qed.

Lemma pair_bounds (u v : codeUnit) :
  isLeadingSurrogate u = true -> isTrailingSurrogate v = true ->
  0x10000 <= UTF16SurrogatePairToCodePoint u v <= 0x10FFFF.
Proof.
  unfold isLeadingSurrogate, isTrailingSurrogate, UTF16SurrogatePairToCodePoint.
  rewrite !andb_true_iff, !N.leb_le. lia.
Qed.

Lemma UTF16EncodeCodePoint_pair (u v : codeUnit) :
  isLeadingSurrogate u = true -> isTrailingSurrogate v = true ->
  UTF16EncodeCodePoint (UTF16SurrogatePairToCodePoint u v) = [u; v].
Proof.
  intros Hu Hv. pose proof (pair_bounds u v Hu Hv) as Hb.
  unfold UTF16EncodeCodePoint.
  destruct (N.leb_spec (UTF16SurrogatePairToCodePoint u v) 0xFFFF); [lia|].
  clear Hb. unfold UTF16SurrogatePairToCodePoint in *.
  unfold isLeadingSurrogate, isTrailingSurrogate in Hu, Hv.
  rewrite !andb_true_iff, !N.leb_le in Hu, Hv.
  set (a := codeOf u) in *. set (b := codeOf v) in *.
  replace ((a - 0xD800) * 0x400 + (b - 0xDC00) + 0x10000 - 0x10000)
    with (0x400 * (a - 0xD800) + (b - 0xDC00)) by lia.
  replace ((0x400 * (a - 0xD800) + (b - 0xDC00)) / 0x400) with (a - 0xD800)
    by (apply N.div_unique with (r := b - 0xDC00); lia).
  replace ((0x400 * (a - 0xD800) + (b - 0xDC00)) mod 0x400) with (b - 0xDC00)
    by (apply N.mod_unique with (q := a - 0xD800); lia).
  replace (a - 0xD800 + 0xD800) with a by lia.
  replace (b - 0xDC00 + 0xDC00) with b by lia.
  subst a b. now rewrite !unitOf_codeOf.
Qed.

(** The code units of a scalar value: one that is not a surrogate, or a
    leading surrogate followed by a trailing one. *)
Lemma UTF16EncodeCodePoint_scalar (d : N) :
  Unicode.isScalarValue d = true ->
  (exists u, UTF16EncodeCodePoint d = [u] /\ codeOf u = d /\
             isLeadingSurrogate u = false /\ isTrailingSurrogate u = false) \/
  (exists u v, UTF16EncodeCodePoint d = [u; v] /\
               isLeadingSurrogate u = true /\ isTrailingSurrogate v = true /\
               UTF16SurrogatePairToCodePoint u v = d).
Proof.
  intros Hd. unfold Unicode.isScalarValue in Hd.
  rewrite orb_true_iff, andb_true_iff, !N.ltb_lt, N.leb_le in Hd.
  unfold UTF16EncodeCodePoint.
  destruct (N.leb_spec d 0xFFFF) as [Hle|Hgt].
  - left. exists (unitOf d).
    assert (Hc : codeOf (unitOf d) = d) by (apply codeOf_unitOf; lia).
    split; [reflexivity|]. split; [exact Hc|].
    unfold isLeadingSurrogate, isTrailingSurrogate. rewrite Hc.
    rewrite !andb_false_iff, !N.leb_gt. lia.
  - right.
    pose proof (N.div_mod (d - 0x10000) 0x400 ltac:(discriminate)) as Hdm.
    pose proof (N.mod_lt (d - 0x10000) 0x400 ltac:(discriminate)) as Hm.
    assert (Hq : (d - 0x10000) / 0x400 < 0x400)
      by (apply N.Div0.div_lt_upper_bound; lia).
    set (q := (d - 0x10000) / 0x400) in *.
    set (m := (d - 0x10000) mod 0x400) in *.
    exists (unitOf (q + 0xD800)), (unitOf (m + 0xDC00)).
    assert (Hc1 : codeOf (unitOf (q + 0xD800)) = q + 0xD800)
      by (apply codeOf_unitOf; lia).
    assert (Hc2 : codeOf (unitOf (m + 0xDC00)) = m + 0xDC00)
      by (apply codeOf_unitOf; lia).
    split; [reflexivity|].
    unfold isLeadingSurrogate, isTrailingSurrogate,
      UTF16SurrogatePairToCodePoint.
    rewrite Hc1, Hc2, !andb_true_iff, !N.leb_le. lia.
Qed.

Lemma StringToCodePoints_encoded (d : N) (y : t) :
  Unicode.isScalarValue d = true ->
  StringToCodePoints (UTF16EncodeCodePoint d ++ y) = d :: StringToCodePoints y.
Proof.
  intros Hd.
  destruct (UTF16EncodeCodePoint_scalar d Hd)
    as [(u & -> & Hc & Hl & _)|(u & v & -> & Hu & Hv & Hp)].
  - cbn [app]. rewrite StringToCodePoints_cons by now rewrite Hl.
    now rewrite Hc.
  - cbn [app]. rewrite StringToCodePoints_pair by assumption. now rewrite Hp.
Qed.

Lemma StringToCodePoints_encoded_all (ds : list N) (y : t) :
  Forall (fun d => Unicode.isScalarValue d = true) ds ->
  StringToCodePoints (CodePointsToString ds ++ y) = ds ++ StringToCodePoints y.
Proof.
  induction 1 as [|d ds Hd _ IH]; [reflexivity|].
  unfold CodePointsToString. cbn [flat_map]. rewrite <- app_assoc.
  rewrite StringToCodePoints_encoded by exact Hd.
  fold (CodePointsToString ds). now rewrite IH.
Qed.

End UTF16Facts.

Section UpperCaseFacts.
Import JSString.
Local Open Scope list_scope.
Local Open Scope N_scope.

(** ** [toUpperCase], one code point at a time *)

Lemma toUpperCase_pair (u v : codeUnit) (r : t) :
  isLeadingSurrogate u = true -> isTrailingSurrogate v = true ->
  toUpperCase (u :: v :: r) =
  upperUnits (UTF16SurrogatePairToCodePoint u v) ++ toUpperCase r.
Proof.
  intros Hu Hv. unfold toUpperCase, upperUnits, CodePointsToString.
  rewrite StringToCodePoints_pair by assumption.
  cbn [flat_map]. now rewrite flat_map_app.
Qed.

Lemma toUpperCase_cons (u : codeUnit) (r : t) :
  isLeadingSurrogate u && startsWithTrailing r = false ->
  toUpperCase (u :: r) = upperUnits (codeOf u) ++ toUpperCase r.
Proof.
  intros H. unfold toUpperCase, upperUnits, CodePointsToString.
  rewrite StringToCodePoints_cons by assumption.
  cbn [flat_map]. now rewrite flat_map_app.
Qed.

(** A string starts with one code unit that is a code point of its own, or
    with a surrogate pair. *)
Lemma token_cases (u : codeUnit) (r : t) :
  isLeadingSurrogate u && startsWithTrailing r = false \/
  exists v r', r = v :: r' /\
               isLeadingSurrogate u = true /\ isTrailingSurrogate v = true.
Proof.
  destruct (isLeadingSurrogate u) eqn:Hu; [|now left].
  destruct r as [|v r']; [now left|].
  cbn [startsWithTrailing andb].
  destruct (isTrailingSurrogate v) eqn:Hv; [right | now left].
  now exists v, r'.
Qed.

Lemma tokens_ind (P : t -> Prop) :
  P [] ->
  (forall u r, isLeadingSurrogate u && startsWithTrailing r = false ->
               P r -> P (u :: r)) ->
  (forall u v r, isLeadingSurrogate u = true -> isTrailingSurrogate v = true ->
                 P r -> P (u :: v :: r)) ->
  forall s, P s.
Proof.
  intros Hnil Hcons Hpair.
  assert (H : forall n s, (List.length s <= n)%nat -> P s).
  { induction n as [|n IH]; intros [|u r] Hlen; try exact Hnil.
    - simpl in Hlen. lia.
    - simpl in Hlen.
      destruct (token_cases u r) as [Hc|(v & r' & -> & Hu & Hv)].
      + apply Hcons; [exact Hc|]. apply IH. lia.
      + apply Hpair; [exact Hu | exact Hv |]. apply IH. simpl in Hlen. lia. }
  intros s. now apply (H (List.length s)).
Qed.

(** ** The code units of one upper-case mapping *)

Lemma upperUnits_not_scalar (u : codeUnit) :
  Unicode.isScalarValue (codeOf u) = false -> upperUnits (codeOf u) = [u].
Proof.
  intros H. unfold upperUnits. rewrite toUppercase_not_scalar by exact H.
  unfold CodePointsToString. cbn [flat_map].
  now rewrite UTF16EncodeCodePoint_codeOf.
Qed.

Lemma upperUnits_whiteSpace (u : codeUnit) :
  isWhiteSpace u = true -> upperUnits (codeOf u) = [u].
Proof.
  intros H. unfold upperUnits. rewrite toUppercase_whiteSpace by exact H.
  unfold CodePointsToString. cbn [flat_map].
  now rewrite UTF16EncodeCodePoint_codeOf.
Qed.

Lemma UTF16EncodeCodePoint_nonempty (d : N) : UTF16EncodeCodePoint d <> [].
Proof. unfold UTF16EncodeCodePoint. now destruct (d <=? 0xFFFF). Qed.

Lemma upperUnits_nonempty (c : N) : upperUnits c <> [].
Proof.
  unfold upperUnits, CodePointsToString.
  pose proof (toUppercase_nonempty c) as H.
  destruct (Unicode.toUppercase c) as [|d m]; [contradiction|].
  cbn [flat_map]. pose proof (UTF16EncodeCodePoint_nonempty d) as Hd.
  destruct (UTF16EncodeCodePoint d); [contradiction | discriminate].
Qed.

Lemma toUppercase_all_scalar (c : N) :
  Unicode.isScalarValue c = true ->
  Forall (fun d => Unicode.isScalarValue d = true) (Unicode.toUppercase c).
Proof.
  intros Hc. apply Forall_forall. intros d. now apply toUppercase_scalar.
Qed.

(** Upper-casing passes over the code units of a mapping unchanged. *)
Lemma toUpperCase_upperUnits (c : N) (y : t) :
  Unicode.isScalarValue c = true ->
  toUpperCase (upperUnits c ++ y) = upperUnits c ++ toUpperCase y.
Proof.
  intros Hc. unfold toUpperCase at 1. unfold upperUnits at 1.
  rewrite StringToCodePoints_encoded_all by now apply toUppercase_all_scalar.
  rewrite flat_map_app, toUppercase_idempotent.
  unfold CodePointsToString. now rewrite flat_map_app.
Qed.

Lemma startsWithTrailing_encoded (ds : list N) (y : t) :
  ds <> [] -> Forall (fun d => Unicode.isScalarValue d = true) ds ->
  startsWithTrailing (CodePointsToString ds ++ y) = false.
Proof.
  intros Hne Hds. destruct ds as [|d ds]; [contradiction|].
  inversion Hds as [|? ? Hd _]; subst.
  unfold CodePointsToString. cbn [flat_map].
  destruct (UTF16EncodeCodePoint_scalar d Hd)
    as [(u & -> & _ & _ & Ht)|(u & v & -> & Hu & _ & _)].
  - exact Ht.
  - cbn [app startsWithTrailing]. now apply leading_not_trailing.
Qed.

Lemma startsWithTrailing_upperUnits (c : N) (y : t) :
  Unicode.isScalarValue c = true ->
  startsWithTrailing (upperUnits c ++ y) = false.
Proof.
  intros Hc. apply startsWithTrailing_encoded.
  - apply toUppercase_nonempty.
  - now apply toUppercase_all_scalar.
Qed.

Lemma free_encoded (d : N) :
  Unicode.isScalarValue d = true -> isWhiteSpaceCode d = false ->
  free isWhiteSpace (UTF16EncodeCodePoint d) = true.
Proof.
  intros Hd Hw.
  destruct (UTF16EncodeCodePoint_scalar d Hd)
    as [(u & -> & Hc & _)|(u & v & -> & Hu & Hv & _)].
  - unfold free, isWhiteSpace. cbn [forallb]. now rewrite Hc, Hw.
  - unfold free. cbn [forallb].
    destruct (isWhiteSpace u) eqn:Eu.
    { apply whiteSpace_not_surrogate in Eu as [Eu _]. congruence. }
    destruct (isWhiteSpace v) eqn:Ev.
    { apply whiteSpace_not_surrogate in Ev as [_ Ev]. congruence. }
    reflexivity.
Qed.

Lemma free_app (class : codeUnit -> bool) (a b : t) :
  free class (a ++ b) = free class a && free class b.
Proof. apply forallb_app. Qed.

Lemma free_upperUnits (c : N) :
  Unicode.isScalarValue c = true -> isWhiteSpaceCode c = false ->
  free isWhiteSpace (upperUnits c) = true.
Proof.
  intros Hc Hw. unfold upperUnits, CodePointsToString.
  pose proof (toUppercase_scalar c) as Hs.
  pose proof (toUppercase_not_whiteSpace c) as Hn.
  induction (Unicode.toUppercase c) as [|d m IH]; [reflexivity|].
  cbn [flat_map]. rewrite free_app. apply andb_true_intro. split.
  - apply free_encoded; [apply Hs | apply Hn]; (assumption || now left).
  - apply IH; intros d' ? Hd'; [apply Hs | apply Hn];
      (assumption || now right).
Qed.

Lemma pair_scalar (u v : codeUnit) :
  isLeadingSurrogate u = true -> isTrailingSurrogate v = true ->
  Unicode.isScalarValue (UTF16SurrogatePairToCodePoint u v) = true /\
  isWhiteSpaceCode (UTF16SurrogatePairToCodePoint u v) = false.
Proof.
  intros Hu Hv. pose proof (pair_bounds u v Hu Hv) as Hb. split.
  - unfold Unicode.isScalarValue.
    rewrite orb_true_iff, andb_true_iff, !N.ltb_lt, N.leb_le. lia.
  - destruct (isWhiteSpaceCode _) eqn:E; [|reflexivity].
    apply whiteSpaceCode_plain in E as [E _]. lia.
Qed.

(** ** Upper-casing twice *)

Lemma startsWithTrailing_toUpperCase (s : t) :
  startsWithTrailing (toUpperCase s) = startsWithTrailing s.
Proof.
  destruct s as [|u r]; [reflexivity|].
  destruct (token_cases u r) as [Hc|(v & r' & -> & Hu & Hv)].
  - rewrite toUpperCase_cons by exact Hc.
    destruct (Unicode.isScalarValue (codeOf u)) eqn:Hs.
    + rewrite startsWithTrailing_upperUnits by exact Hs.
      cbn [startsWithTrailing].
      destruct (isTrailingSurrogate u) eqn:Ht; [|reflexivity].
      assert (Unicode.isScalarValue (codeOf u) = false)
        by (apply surrogate_not_scalar; now right).
      congruence.
    + now rewrite upperUnits_not_scalar by exact Hs.
  - rewrite toUpperCase_pair by assumption.
    rewrite startsWithTrailing_upperUnits
      by now apply pair_scalar.
    cbn [startsWithTrailing]. symmetry. now apply leading_not_trailing.
Qed.

Lemma toUpperCase_idempotent (s : t) :
  toUpperCase (toUpperCase s) = toUpperCase s.
Proof.
  induction s as [|u r Hc IH|u v r Hu Hv IH] using tokens_ind.
  - reflexivity.
  - rewrite toUpperCase_cons by exact Hc.
    destruct (Unicode.isScalarValue (codeOf u)) eqn:Hs.
    + rewrite toUpperCase_upperUnits by exact Hs. now rewrite IH.
    + rewrite upperUnits_not_scalar by exact Hs. cbn [app].
      rewrite toUpperCase_cons
        by now rewrite startsWithTrailing_toUpperCase.
      rewrite upperUnits_not_scalar by exact Hs. cbn [app]. now rewrite IH.
  - rewrite toUpperCase_pair by assumption.
    rewrite toUpperCase_upperUnits by now apply pair_scalar.
    now rewrite IH.
Qed.

(** ** Upper-casing and white space *)

Lemma toUpperCase_whiteSpace_cons (w : codeUnit) (r : t) :
  isWhiteSpace w = true -> toUpperCase (w :: r) = w :: toUpperCase r.
Proof.
  intros Hw. destruct (whiteSpace_not_surrogate w Hw) as [Hl _].
  rewrite toUpperCase_cons by now rewrite Hl.
  now rewrite upperUnits_whiteSpace.
Qed.

(** Upper-casing works on each side of a white space character. *)
Lemma toUpperCase_split (a : t) (w : codeUnit) (b : t) :
  isWhiteSpace w = true ->
  toUpperCase (a ++ w :: b) = toUpperCase a ++ w :: toUpperCase b.
Proof.
  intros Hw. destruct (whiteSpace_not_surrogate w Hw) as [_ Ht].
  induction a as [|u r Hc IH|u v r Hu Hv IH] using tokens_ind.
  - now apply toUpperCase_whiteSpace_cons.
  - cbn [app]. rewrite !toUpperCase_cons; [now rewrite IH, app_assoc | exact Hc |].
    destruct r; [cbn [app startsWithTrailing]; rewrite Ht; apply andb_false_r
                | exact Hc].
  - cbn [app]. rewrite !toUpperCase_pair by assumption.
    now rewrite IH, app_assoc.
Qed.

(** Upper-casing introduces no white space. *)
Lemma free_toUpperCase (class : codeUnit -> bool) (s : t) :
  (forall u, class u = true -> isWhiteSpace u = true) ->
  free class s = true -> free class (toUpperCase s) = true.
Proof.
  intros Hclass.
  assert (Hsub : forall x, free isWhiteSpace x = true -> free class x = true).
  { intros x Hx. unfold free in *. rewrite forallb_forall in *.
    intros u Hu. specialize (Hx u Hu).
    destruct (class u) eqn:E; [|reflexivity].
    apply Hclass in E. now rewrite E in Hx. }
  induction s as [|u r Hc IH|u v r Hu Hv IH] using tokens_ind.
  - reflexivity.
  - intros H. cbn [free forallb] in H. apply andb_prop in H as [Hcu Hr].
    rewrite toUpperCase_cons by exact Hc. rewrite free_app.
    apply andb_true_intro. split; [|now apply IH].
    destruct (isWhiteSpace u) eqn:Hw.
    + rewrite upperUnits_whiteSpace by exact Hw.
      cbn [free forallb]. now rewrite Hcu.
    + destruct (Unicode.isScalarValue (codeOf u)) eqn:Hs.
      * apply Hsub. now apply free_upperUnits.
      * rewrite upperUnits_not_scalar by exact Hs.
        cbn [free forallb]. now rewrite Hcu.
  - intros H. cbn [free forallb] in H.
    apply andb_prop in H as [_ H]. apply andb_prop in H as [_ Hr].
    rewrite toUpperCase_pair by assumption. rewrite free_app.
    apply andb_true_intro. split; [|now apply IH].
    apply Hsub. now apply free_upperUnits; apply pair_scalar.
Qed.

Lemma toUpperCase_nil_iff (s : t) : toUpperCase s = [] <-> s = [].
Proof.
  split; [|now intros ->].
  destruct s as [|u r]; [reflexivity|]. intros H. exfalso.
  destruct (token_cases u r) as [Hc|(v & r' & -> & Hu & Hv)].
  - rewrite toUpperCase_cons in H by exact Hc.
    apply app_eq_nil in H as [H _]. now apply upperUnits_nonempty in H.
  - rewrite toUpperCase_pair in H by assumption.
    apply app_eq_nil in H as [H _]. now apply upperUnits_nonempty in H.
Qed.

End UpperCaseFacts.
(* ================================================================== *)
(** * [Utils.normalize] *)
(* ================================================================== *)

Section NormalizeFacts.
Import JSString.
Local Open Scope list_scope.

(** ** Characters *)

Lemma separator_isWhiteSpace (u : codeUnit) :
  brainKeySeparator u = true -> isWhiteSpace u = true.
Proof.
  unfold brainKeySeparator, isWhiteSpace. intros H.
  apply existsb_exists in H as (w & Hin & Heq).
  apply N.eqb_eq in Heq. rewrite Heq. clear Heq. revert w Hin.
  apply Forall_forall.
  repeat (constructor; [reflexivity|]). constructor.
Qed.

Lemma literal_space : literal " " = [space].
Proof. reflexivity. Qed.

Lemma separator_space : brainKeySeparator space = true.
Proof. reflexivity. Qed.

Lemma isWhiteSpace_space : isWhiteSpace space = true.
Proof. reflexivity. Qed.

(** ** [split] followed by [join] collapses the separator runs *)

Lemma splitRuns_nonempty (sep : codeUnit -> bool) (inRun : bool) (s : t) :
  splitRuns sep inRun s <> [].
Proof.
  revert inRun. induction s as [|u s IH]; intros inRun; simpl.
  - discriminate.
  - destruct (sep u).
    + destruct inRun; [apply IH | discriminate].
    + destruct (splitRuns sep false s); discriminate.
Qed.

Lemma join_cons_nonempty (glue piece : t) (pieces : list t) :
  pieces <> [] ->
  join glue (piece :: pieces) = piece ++ glue ++ join glue pieces.
Proof. destruct pieces; [contradiction | reflexivity]. Qed.

Lemma join_cons_head (glue : t) (u : codeUnit) (piece : t)
      (pieces : list t) :
  join glue ((u :: piece) :: pieces) = u :: join glue (piece :: pieces).
Proof. destruct pieces; reflexivity. Qed.

Lemma join_splitRuns (sep : codeUnit -> bool) (inRun : bool) (s : t) :
  join [space] (splitRuns sep inRun s) = collapseRuns sep inRun s.
Proof.
  revert inRun. induction s as [|u s IH]; intros inRun; simpl.
  - reflexivity.
  - destruct (sep u).
    + destruct inRun; [apply IH|].
      rewrite join_cons_nonempty by apply splitRuns_nonempty.
      simpl. now rewrite IH.
    + rewrite <- (IH false).
      pose proof (splitRuns_nonempty sep false s) as Hne.
      destruct (splitRuns sep false s) as [|piece pieces];
        [contradiction|].
      apply join_cons_head.
Qed.

Lemma normalize_collapseRuns (s : t) :
  normalize s = collapseRuns brainKeySeparator false (toUpperCase (trim s)).
Proof. unfold normalize, split. rewrite literal_space. apply join_splitRuns. Qed.

(** ** Collapsing twice *)

Lemma collapseRuns_collapseRuns (s : t) :
  collapseRuns brainKeySeparator false (collapseRuns brainKeySeparator false s)
  = collapseRuns brainKeySeparator false s /\
  collapseRuns brainKeySeparator false (collapseRuns brainKeySeparator true s)
  = collapseRuns brainKeySeparator true s /\
  collapseRuns brainKeySeparator true (collapseRuns brainKeySeparator true s)
  = collapseRuns brainKeySeparator true s.
Proof.
  induction s as [|u s (IH1 & IH2 & IH3)]; cbn [collapseRuns].
  - now repeat split.
  - destruct (brainKeySeparator u) eqn:Hu; cbn [collapseRuns].
    + rewrite separator_space. now rewrite IH2, IH3.
    + now rewrite Hu, IH1.
Qed.

(** ** Trimming *)

Lemma trimStart_startsClean (s : t) : startsClean (trimStart s) = true.
Proof.
  induction s as [|u s IH]; simpl.
  - reflexivity.
  - destruct (isWhiteSpace u) eqn:Hu; [exact IH|].
    simpl. now rewrite Hu.
Qed.

Lemma trimStart_fixed (s : t) :
  startsClean s = true -> trimStart s = s.
Proof.
  destruct s as [|u s]; simpl; [reflexivity|].
  now destruct (isWhiteSpace u).
Qed.

Lemma endsNonWhite_cons (u : codeUnit) (s : t) :
  endsNonWhite s = true -> endsNonWhite (u :: s) = true.
Proof. destruct s; [discriminate | intros H; exact H]. Qed.

Lemma endsNonWhite_endsClean (s : t) :
  endsNonWhite s = true -> endsClean s = true.
Proof. destruct s; [reflexivity | intros H; exact H]. Qed.

Lemma trimEnd_cons (u : codeUnit) (s : t) :
  trimEnd (u :: s) =
  match trimEnd s with
  | [] => if isWhiteSpace u then [] else [u]
  | rest => u :: rest
  end.
Proof. reflexivity. Qed.

Lemma trimEnd_endsClean (s : t) : endsClean (trimEnd s) = true.
Proof.
  induction s as [|u s IH]; [reflexivity|].
  rewrite trimEnd_cons.
  destruct (trimEnd s) as [|v rest].
  - destruct (isWhiteSpace u) eqn:Hu; [reflexivity|].
    simpl. now rewrite Hu.
  - exact IH.
Qed.

Lemma trimEnd_fixed (s : t) :
  endsClean s = true -> trimEnd s = s.
Proof.
  induction s as [|u s IH]; [reflexivity|].
  intros H. rewrite trimEnd_cons.
  destruct s as [|v s].
  - simpl in *. now destruct (isWhiteSpace u).
  - now rewrite IH.
Qed.

Lemma trimEnd_startsClean (s : t) :
  startsClean s = true -> startsClean (trimEnd s) = true.
Proof.
  destruct s as [|u s]; [reflexivity|].
  intros H. rewrite trimEnd_cons.
  simpl in H. destruct (isWhiteSpace u) eqn:Hu; [discriminate|].
  destruct (trimEnd s); simpl; now rewrite Hu.
Qed.

Lemma trim_clean (s : t) :
  startsClean (trim s) = true /\ endsClean (trim s) = true.
Proof.
  unfold trim. split.
  - apply trimEnd_startsClean, trimStart_startsClean.
  - apply trimEnd_endsClean.
Qed.

Lemma trim_fixed (s : t) :
  startsClean s = true -> endsClean s = true -> trim s = s.
Proof.
  intros Hs He. unfold trim.
  rewrite (trimStart_fixed s Hs). now apply trimEnd_fixed.
Qed.

(** ** Strings cut at a character of a class *)

Lemma split_first (class : codeUnit -> bool) (s : t) :
  free class s = true \/
  exists run w b, s = run ++ w :: b /\ free class run = true /\ class w = true.
Proof.
  induction s as [|u s IH]; [now left|].
  destruct (class u) eqn:Hu.
  - right. now exists [], u, s.
  - destruct IH as [IH|(run & w & b & -> & Hrun & Hw)].
    + left. cbn [free forallb]. now rewrite Hu.
    + right. exists (u :: run), w, b. repeat split; [|exact Hw].
      cbn [free forallb]. now rewrite Hu.
Qed.

Lemma split_last (class : codeUnit -> bool) (s : t) :
  free class s = true \/
  exists a w run, s = a ++ w :: run /\ class w = true /\ free class run = true.
Proof.
  induction s as [|u s IH]; [now left|].
  destruct IH as [IH|(a & w & run & -> & Hw & Hrun)].
  - destruct (class u) eqn:Hu.
    + right. now exists [], u, s.
    + left. cbn [free forallb]. now rewrite Hu.
  - right. now exists (u :: a), w, run.
Qed.

Lemma length_induction (P : t -> Prop) :
  (forall s, (forall s', (List.length s' < List.length s)%nat -> P s') -> P s) ->
  forall s, P s.
Proof.
  intros H.
  assert (Hn : forall n s, (List.length s < n)%nat -> P s).
  { induction n as [|n IH]; intros s Hs; [lia|].
    apply H. intros s' Hs'. apply IH. lia. }
  intros s. apply (Hn (S (List.length s))). lia.
Qed.

(** ** Upper-casing and trimming *)

Lemma trimStart_free (s : t) :
  s <> [] -> free isWhiteSpace s = true -> forall y, trimStart (s ++ y) = s ++ y.
Proof.
  destruct s as [|u s]; [contradiction|].
  intros _ H y. cbn [free forallb] in H. apply andb_prop in H as [Hu _].
  apply negb_true_iff in Hu. cbn [app trimStart]. now rewrite Hu.
Qed.

Lemma trimStart_free_self (s : t) :
  free isWhiteSpace s = true -> trimStart s = s.
Proof.
  intros H. destruct s as [|u s]; [reflexivity|].
  rewrite <- (app_nil_r (u :: s)). now apply trimStart_free.
Qed.

Lemma trimStart_toUpperCase (s : t) :
  trimStart (toUpperCase s) = toUpperCase (trimStart s).
Proof.
  induction s as [s IH] using length_induction.
  destruct (split_first isWhiteSpace s) as [Hf|(run & w & b & -> & Hrun & Hw)].
  - rewrite (trimStart_free_self s Hf). apply trimStart_free_self.
    now apply free_toUpperCase.
  - rewrite toUpperCase_split by exact Hw.
    destruct run as [|u run].
    + change (toUpperCase []) with (@nil codeUnit).
      cbn [app trimStart]. rewrite Hw. apply IH.
      cbn [app List.length]. lia.
    + rewrite trimStart_free; [|now rewrite toUpperCase_nil_iff
                               |now apply free_toUpperCase].
      rewrite trimStart_free by (discriminate || exact Hrun).
      now rewrite toUpperCase_split.
Qed.

Lemma trimEnd_app_whiteSpace (a : t) (w : codeUnit) :
  isWhiteSpace w = true -> trimEnd (a ++ [w]) = trimEnd a.
Proof.
  intros Hw. induction a as [|u a IH].
  - cbn [app trimEnd]. now rewrite Hw.
  - cbn [app]. now rewrite !trimEnd_cons, IH.
Qed.

Lemma trimEnd_free (y s : t) :
  s <> [] -> free isWhiteSpace s = true -> trimEnd (y ++ s) = y ++ s.
Proof.
  intros Hne Hs.
  assert (Hself : trimEnd s = s).
  { clear Hne. induction s as [|u s IH]; [reflexivity|].
    cbn [free forallb] in Hs. apply andb_prop in Hs as [Hu Hs].
    apply negb_true_iff in Hu. rewrite trimEnd_cons, IH by exact Hs.
    rewrite Hu. now destruct s. }
  induction y as [|u y IH]; [exact Hself|].
  cbn [app]. rewrite trimEnd_cons, IH.
  destruct (y ++ s) eqn:E; [|reflexivity].
  apply app_eq_nil in E as [_ E]. contradiction.
Qed.

Lemma trimEnd_free_self (s : t) :
  free isWhiteSpace s = true -> trimEnd s = s.
Proof.
  intros H. destruct s as [|u s]; [reflexivity|].
  now apply (trimEnd_free [] (u :: s)).
Qed.

Lemma trimEnd_toUpperCase (s : t) :
  trimEnd (toUpperCase s) = toUpperCase (trimEnd s).
Proof.
  induction s as [s IH] using length_induction.
  destruct (split_last isWhiteSpace s) as [Hf|(a & w & run & -> & Hw & Hrun)].
  - rewrite (trimEnd_free_self s Hf). apply trimEnd_free_self.
    now apply free_toUpperCase.
  - rewrite toUpperCase_split by exact Hw.
    destruct run as [|u run].
    + change (toUpperCase []) with (@nil codeUnit).
      rewrite !trimEnd_app_whiteSpace by exact Hw. apply IH.
      rewrite length_app. simpl. lia.
    + change (a ++ w :: u :: run) with (a ++ [w] ++ (u :: run)).
      change (toUpperCase a ++ w :: toUpperCase (u :: run))
        with (toUpperCase a ++ [w] ++ toUpperCase (u :: run)).
      rewrite !app_assoc.
      rewrite trimEnd_free; [|now rewrite toUpperCase_nil_iff
                             |now apply free_toUpperCase].
      rewrite trimEnd_free by (discriminate || exact Hrun).
      rewrite <- !app_assoc. cbn [app]. now rewrite toUpperCase_split.
Qed.

Lemma trim_toUpperCase (s : t) : trim (toUpperCase s) = toUpperCase (trim s).
Proof. unfold trim. now rewrite trimStart_toUpperCase, trimEnd_toUpperCase. Qed.

(** ** Upper-casing and collapsing *)

Lemma free_separator (s : t) :
  free isWhiteSpace s = true -> free brainKeySeparator s = true.
Proof.
  unfold free. rewrite !forallb_forall. intros H u Hu.
  specialize (H u Hu). destruct (brainKeySeparator u) eqn:E; [|reflexivity].
  apply separator_isWhiteSpace in E. now rewrite E in H.
Qed.

Lemma collapseRuns_free (run : t) (inRun : bool) (y : t) :
  free brainKeySeparator run = true ->
  collapseRuns brainKeySeparator inRun (run ++ y) =
  run ++ collapseRuns brainKeySeparator
           (match run with [] => inRun | _ :: _ => false end) y.
Proof.
  revert inRun. induction run as [|u run IH]; intros inRun Hf; [reflexivity|].
  cbn [free forallb] in Hf. apply andb_prop in Hf as [Hu Hf].
  apply negb_true_iff in Hu. cbn [app collapseRuns]. rewrite Hu.
  rewrite IH by exact Hf. now destruct run.
Qed.

Lemma toUpperCase_collapseRuns (inRun : bool) (s : t) :
  toUpperCase (collapseRuns brainKeySeparator inRun s) =
  collapseRuns brainKeySeparator inRun (toUpperCase s).
Proof.
  revert inRun. induction s as [s IH] using length_induction. intros inRun.
  destruct (split_first brainKeySeparator s)
    as [Hf|(run & w & b & -> & Hrun & Hw)].
  - rewrite <- (app_nil_r s) at 1. rewrite collapseRuns_free by exact Hf.
    cbn [collapseRuns]. rewrite app_nil_r.
    rewrite <- (app_nil_r (toUpperCase s)) at 2.
    rewrite collapseRuns_free
      by (apply free_toUpperCase;
          [exact separator_isWhiteSpace | exact Hf]).
    cbn [collapseRuns]. now rewrite app_nil_r.
  - assert (Hb : (List.length b < List.length (run ++ w :: b))%nat)
      by (rewrite length_app; simpl; lia).
    rewrite toUpperCase_split by now apply separator_isWhiteSpace.
    rewrite !collapseRuns_free
      by (try apply free_toUpperCase;
          exact separator_isWhiteSpace || exact Hrun).
    cbn [collapseRuns]. rewrite Hw.
    assert (Hnil : match toUpperCase run with [] => inRun | _ :: _ => false end
                   = match run with [] => inRun | _ :: _ => false end).
    { destruct run as [|u run]; [reflexivity|].
      destruct (toUpperCase (u :: run)) eqn:E; [|reflexivity].
      apply (proj1 (toUpperCase_nil_iff _)) in E. discriminate E. }
    rewrite Hnil.
    destruct (match run with [] => inRun | _ :: _ => false end) eqn:E.
    + destruct run; [|discriminate]. cbn [app]. now apply IH.
    + rewrite toUpperCase_split by exact isWhiteSpace_space.
      now rewrite IH.
Qed.

(** ** Upper-casing and collapsing keep the ends clean *)

Lemma startsClean_toUpperCase (s : t) :
  startsClean s = true -> startsClean (toUpperCase s) = true.
Proof.
  intros H. rewrite <- (trimStart_fixed s H), <- trimStart_toUpperCase.
  apply trimStart_startsClean.
Qed.

Lemma endsClean_toUpperCase (s : t) :
  endsClean s = true -> endsClean (toUpperCase s) = true.
Proof.
  intros H. rewrite <- (trimEnd_fixed s H), <- trimEnd_toUpperCase.
  apply trimEnd_endsClean.
Qed.

Lemma startsClean_collapseRuns (s : t) :
  startsClean s = true ->
  startsClean (collapseRuns brainKeySeparator false s) = true.
Proof.
  destruct s as [|u s]; [reflexivity|].
  simpl. destruct (brainKeySeparator u) eqn:Hu.
  - apply separator_isWhiteSpace in Hu. now rewrite Hu.
  - intros H. simpl. exact H.
Qed.

Lemma endsNonWhite_collapseRuns (s : t) :
  endsNonWhite s = true ->
  forall inRun, endsNonWhite (collapseRuns brainKeySeparator inRun s) = true.
Proof.
  induction s as [|u s IH]; [discriminate|].
  intros H inRun. destruct s as [|v s].
  - simpl in *. destruct (brainKeySeparator u) eqn:Hu.
    + apply separator_isWhiteSpace in Hu. now rewrite Hu in H.
    + simpl. exact H.
  - specialize (IH H).
    change (collapseRuns brainKeySeparator inRun (u :: v :: s))
      with (if brainKeySeparator u
            then if inRun
                 then collapseRuns brainKeySeparator true (v :: s)
                 else space :: collapseRuns brainKeySeparator true (v :: s)
            else u :: collapseRuns brainKeySeparator false (v :: s)).
    destruct (brainKeySeparator u); [destruct inRun|];
      try apply endsNonWhite_cons; apply IH.
Qed.

Lemma endsClean_collapseRuns (inRun : bool) (s : t) :
  endsClean s = true ->
  endsClean (collapseRuns brainKeySeparator inRun s) = true.
Proof.
  destruct s as [|u s]; [reflexivity|].
  intros H. apply endsNonWhite_endsClean.
  now apply endsNonWhite_collapseRuns.
Qed.

(** ** Idempotence *)

Lemma normalize_idempotent (s : t) :
  normalize (normalize s) = normalize s.
Proof.
  rewrite (normalize_collapseRuns s).
  set (x := trim s).
  rewrite normalize_collapseRuns.
  destruct (trim_clean s) as [Hs He]. fold x in Hs, He.
  rewrite trim_fixed.
  - rewrite toUpperCase_collapseRuns, toUpperCase_idempotent.
    apply collapseRuns_collapseRuns.
  - apply startsClean_collapseRuns. now apply startsClean_toUpperCase.
  - apply endsClean_collapseRuns. now apply endsClean_toUpperCase.
Qed.

End NormalizeFacts.

(** C8, as stated, fails: the regular expression of [normalize] also
    treats the vertical tab as a separator, which the description leaves
    out.  ["A\vB"] becomes ["A B"], whereas trimming, upper-casing and
    collapsing the runs of the five listed characters leaves it as it
    is. *)
Lemma normalize_collapses_vertical_tab :
  ~ (forall s : JSString.t,
        normalize (normalize s) = normalize s /\
        normalize s = spec_normalize s).
Proof.
  intros H.
  destruct (H (JSString.literal (String "A" (String "011" "B")))) as [_ H1].
  vm_compute in H1. discriminate H1.
Qed.

(** C8, amended.  [normalize] is idempotent, and [normalize s] is [s]
    trimmed at both ends, upper-cased, with every run of tab, newline,
    vertical tab, form feed, carriage return and space characters collapsed
    to a single space. *)
Theorem normalize_idempotent_and_described (s : JSString.t) :
  normalize (normalize s) = normalize s /\
  normalize s = described_normalize s.
Proof.
  split.
  - apply normalize_idempotent.
  - apply normalize_collapseRuns.
Qed.

(* ================================================================== *)
(** * More on the multi-key scanner *)
(* ================================================================== *)

Lemma last_app_cases {A : Type} (l1 l2 : list A) (d : A) :
  last (l1 ++ l2) d = match l2 with
                      | [] => last l1 d
                      | _ :: _ => last l2 d
                      end.
Proof.
  destruct l2 as [|x l2].
  - now rewrite app_nil_r.
  - induction l1 as [|y l1 IH].
    + reflexivity.
    + rewrite <- IH. simpl.
      destruct (l1 ++ x :: l2)%list eqn:E; [|reflexivity].
      now destruct l1.
Qed.

Lemma decryptedMessage_throws_iff_aux
      {L : KeyLibrary} (this : TransactionMemo) (privateKeys : list string)
      (e : exn) :
  decryptedMessage this privateKeys = Throw e <->
  valid this = true /\ KeyPublic_fromString (to this) = Throw e.
Proof.
  unfold decryptedMessage, publicKeyFromString.
  destruct (valid this); simpl.
  - destruct (KeyPublic_fromString (to this)) as [pubKey|e'] eqn:Hp; simpl.
    + rewrite forEach_scanCandidate. split; [discriminate|].
      intros [_ H]. discriminate H.
    + split.
      * intros [= <-]. now split.
      * now intros [_ [= <-]].
  - split; [discriminate | intros [H _]; discriminate H].
Qed.

(** X1. The only exception that ever leaves [decryptedMessage] is the one
    thrown by the decoding of the [to] field of an envelope marked valid;
    nothing thrown while a candidate is tried gets out. *)
Theorem decryptedMessage_throws_iff
        {L : KeyLibrary} (this : TransactionMemo) (privateKeys : list string)
        (e : exn) :
  decryptedMessage this privateKeys = Throw e <->
  valid this = true /\ KeyPublic_fromString (to this) = Throw e.
Proof. apply decryptedMessage_throws_iff_aux. Qed.

(** X2. Candidates placed later in the list take precedence: when some
    candidate of the second part succeeds the first part is irrelevant,
    otherwise the second part is. *)
Theorem decryptedMessage_app
        {L : KeyLibrary} (this : TransactionMemo) (pubKey : KeyPublic)
        (older newer : list string) :
  valid this = true ->
  publicKeyFromString (to this) = Ok pubKey ->
  decryptedMessage this (older ++ newer) =
  match successes this pubKey newer with
  | [] => decryptedMessage this older
  | _ :: _ => decryptedMessage this newer
  end.
Proof.
  intros Hv Hp.
  rewrite !(decryptedMessage_scan this pubKey) by assumption.
  rewrite successes_app, last_app_cases.
  now destruct (successes this pubKey newer).
Qed.

Lemma decryptedMessage_app_witness :
  decryptedMessage (L := Echo.library) Echo.memo
                   (["old"; "!x"] ++ ["new"; "!y"])
  = decryptedMessage (L := Echo.library) Echo.memo ["new"; "!y"].
Proof.
  exact (decryptedMessage_app (L := Echo.library) Echo.memo "B"
           ["old"; "!x"] ["new"; "!y"] eq_refl eq_refl).
Defined.

(** X3. Building the record of a transaction fails exactly when the
    transaction carries a memo whose [to] field does not decode, with the
    exception of the decoder; for a transaction without memo it succeeds
    with an empty [memoString], whatever the keys. *)
Theorem TransactionRecord_new_outcome
        {L : KeyLibrary} (transaction : Transaction.t)
        (privateKeys : list string) :
  (forall e,
      TransactionRecord_new transaction privateKeys = Throw e <->
      exists m,
        Transaction.m_transaction_encrypted_memo transaction = Some m /\
        KeyPublic_fromString (EncryptedMemo.to m) = Throw e) /\
  (Transaction.m_transaction_encrypted_memo transaction = None ->
   exists r,
     TransactionRecord_new transaction privateKeys = Ok r /\
     TransactionRecord.memoString r = "" /\
     valid (TransactionRecord.memo r) = false).
Proof.
  split.
  - intros e. unfold TransactionRecord_new.
    destruct (decryptedMessage (TransactionMemo_new transaction) privateKeys)
      as [s|e'] eqn:Hd; simpl.
    + split; [discriminate|].
      intros (m & Hm & Hthrow).
      assert (Hx : decryptedMessage (TransactionMemo_new transaction)
                                    privateKeys = Throw e).
      { apply decryptedMessage_throws_iff_aux.
        unfold TransactionMemo_new. rewrite Hm. now split. }
      rewrite Hx in Hd. discriminate Hd.
    + apply decryptedMessage_throws_iff_aux in Hd as [Hv Hthrow].
      unfold TransactionMemo_new in Hv, Hthrow.
      destruct (Transaction.m_transaction_encrypted_memo transaction)
        as [m|]; [|discriminate Hv].
      split.
      * intros [= <-]. now exists m.
      * intros (m' & [= <-] & Hthrow'). simpl in Hthrow.
        rewrite Hthrow in Hthrow'. now injection Hthrow' as <-.
  - intros Hnone. unfold TransactionRecord_new, TransactionMemo_new.
    rewrite Hnone. simpl. eexists. split; [reflexivity|]. now split.
Qed.

(* ================================================================== *)
(** * [Utils.normalize]: words and normal forms *)
(* ================================================================== *)

Section NormalizeWords.
Import JSString.
Local Open Scope list_scope.

Lemma unitEqb_eq (u v : codeUnit) : unitEqb u v = true <-> u = v.
Proof.
  unfold unitEqb. rewrite N.eqb_eq. split; [apply codeOf_inj | now intros ->].
Qed.

Lemma strictEquals_eq (a b : t) : strictEquals a b = true <-> a = b.
Proof.
  revert b. induction a as [|u a IH]; intros [|v b]; simpl;
    try (split; (reflexivity || discriminate)).
  rewrite andb_true_iff, unitEqb_eq, IH.
  split; [now intros [-> ->] | now intros [= -> ->]].
Qed.

(** ** Pieces and words *)

Lemma splitRuns_cons (sep : codeUnit -> bool) (inRun : bool) (u : codeUnit)
      (s : t) :
  splitRuns sep inRun (u :: s) =
  if sep u then
    if inRun then splitRuns sep true s else [] :: splitRuns sep true s
  else
    match splitRuns sep false s with
    | piece :: pieces => (u :: piece) :: pieces
    | [] => [[u]]
    end.
Proof. reflexivity. Qed.

(** The flag matters for an empty first piece only. *)
Lemma words_flag (inRun : bool) (s : t) :
  filter (fun piece => negb (isEmpty piece)) (splitRuns brainKeySeparator inRun s)
  = words s.
Proof.
  unfold words, split. destruct s as [|u s]; [reflexivity|].
  rewrite !splitRuns_cons.
  destruct (brainKeySeparator u); [|reflexivity].
  now destruct inRun.
Qed.

Lemma splitRuns_free (run : t) (inRun : bool) (w : codeUnit) (b : t) :
  run <> [] -> free brainKeySeparator run = true ->
  brainKeySeparator w = true ->
  splitRuns brainKeySeparator inRun (run ++ w :: b) =
  run :: splitRuns brainKeySeparator true b.
Proof.
  intros Hne Hf Hw. revert inRun.
  induction run as [|u run IH]; [contradiction|]. intros inRun.
  cbn [free forallb] in Hf. apply andb_prop in Hf as [Hu Hf].
  apply negb_true_iff in Hu.
  cbn [app]. rewrite splitRuns_cons, Hu.
  destruct run as [|v run].
  - cbn [app]. rewrite splitRuns_cons, Hw. reflexivity.
  - rewrite IH by (discriminate || exact Hf). reflexivity.
Qed.

Lemma splitRuns_free_all (s : t) (inRun : bool) :
  free brainKeySeparator s = true ->
  splitRuns brainKeySeparator inRun s = [s].
Proof.
  revert inRun. induction s as [|u s IH]; intros inRun Hf; [reflexivity|].
  cbn [free forallb] in Hf. apply andb_prop in Hf as [Hu Hf].
  apply negb_true_iff in Hu.
  now rewrite splitRuns_cons, Hu, IH.
Qed.

Lemma splitRuns_pieces_free (s : t) (inRun : bool) :
  Forall (fun piece => free brainKeySeparator piece = true)
         (splitRuns brainKeySeparator inRun s).
Proof.
  revert inRun. induction s as [|u s IH]; intros inRun.
  - now repeat constructor.
  - rewrite splitRuns_cons. destruct (brainKeySeparator u) eqn:Hu.
    + destruct inRun; [apply IH|]. constructor; [reflexivity | apply IH].
    + specialize (IH false).
      destruct (splitRuns brainKeySeparator false s) as [|p ps].
      * repeat constructor. cbn [free forallb]. now rewrite Hu.
      * inversion IH as [|? ? Hp Hps]; subst. constructor; [|exact Hps].
        cbn [free forallb]. now rewrite Hu.
Qed.

Lemma words_isWord (s : t) : Forall isWord (words s).
Proof.
  unfold words, split.
  pose proof (splitRuns_pieces_free s false) as H.
  induction H as [|p ps Hp _ IH]; [constructor|].
  cbn [filter]. destruct p as [|u p]; [exact IH|].
  constructor; [|exact IH]. split; [discriminate | exact Hp].
Qed.

Lemma words_of_word (w : t) : isWord w -> words w = [w].
Proof.
  intros [Hne Hf]. unfold words, split.
  rewrite splitRuns_free_all by exact Hf.
  destruct w; [contradiction | reflexivity].
Qed.

(** Splitting into words undoes joining words by single spaces. *)
Lemma words_join (l : list t) :
  Forall isWord l -> words (join [space] l) = l.
Proof.
  induction l as [|w l IH]; [reflexivity|].
  intros H. inversion H as [|? ? Hw Hl]; subst.
  destruct l as [|w' l]; [now apply words_of_word|].
  change (join [space] (w :: w' :: l))
    with (w ++ space :: join [space] (w' :: l)).
  destruct Hw as [Hne Hf]. unfold words, split.
  rewrite splitRuns_free by (assumption || exact separator_space).
  cbn [filter]. rewrite words_flag, IH by exact Hl.
  destruct w; [contradiction | reflexivity].
Qed.

(** A string that is not empty and has no separator at its ends splits
    into pieces none of which is empty. *)
Lemma splitRuns_clean (s : t) :
  endsNonWhite s = true ->
  forall inRun,
    match splitRuns brainKeySeparator inRun s with
    | piece :: pieces =>
        Forall (fun p => p <> []) pieces /\
        (startsClean s = true \/ inRun = true -> piece <> [])
    | [] => False
    end.
Proof.
  induction s as [|u s IH]; [discriminate|].
  intros He inRun. rewrite splitRuns_cons.
  destruct s as [|v s].
  - cbn [endsNonWhite] in He. apply negb_true_iff in He.
    destruct (brainKeySeparator u) eqn:Hu.
    { apply separator_isWhiteSpace in Hu. congruence. }
    cbn [splitRuns]. split; [constructor | discriminate].
  - specialize (IH He).
    destruct (brainKeySeparator u) eqn:Hu.
    + destruct inRun.
      * specialize (IH true).
        destruct (splitRuns brainKeySeparator true (v :: s)) as [|p ps];
          [contradiction|].
        destruct IH as [Hps Hp]. split; [exact Hps|].
        intros _. apply Hp. now right.
      * specialize (IH true).
        destruct (splitRuns brainKeySeparator true (v :: s)) as [|p ps];
          [contradiction|].
        destruct IH as [Hps Hp]. split.
        -- constructor; [|exact Hps]. apply Hp. now right.
        -- intros [H|H]; [|discriminate H].
           cbn [startsClean] in H. apply separator_isWhiteSpace in Hu.
           now rewrite Hu in H.
    + specialize (IH false).
      destruct (splitRuns brainKeySeparator false (v :: s)) as [|p ps];
        [contradiction|].
      destruct IH as [Hps _]. split; [exact Hps | discriminate].
Qed.

Lemma filter_nonempty (l : list t) :
  Forall (fun p => p <> []) l ->
  filter (fun piece => negb (isEmpty piece)) l = l.
Proof.
  induction 1 as [|p l Hp _ IH]; [reflexivity|].
  cbn [filter]. destruct p; [contradiction|]. cbn. now rewrite IH.
Qed.

Lemma split_clean (s : t) :
  startsClean s = true -> endsClean s = true ->
  join [space] (split brainKeySeparator s) = join [space] (words s).
Proof.
  intros Hs He. destruct s as [|u s]; [reflexivity|].
  unfold words. f_equal. symmetry. apply filter_nonempty.
  pose proof (splitRuns_clean (u :: s) He false) as H.
  unfold split.
  destruct (splitRuns brainKeySeparator false (u :: s)) as [|p ps];
    [contradiction|].
  destruct H as [Hps Hp]. constructor; [|exact Hps].
  apply Hp. now left.
Qed.

(** ** Words and upper-casing *)

Lemma splitRuns_toUpperCase (inRun : bool) (s : t) :
  splitRuns brainKeySeparator inRun (toUpperCase s) =
  map toUpperCase (splitRuns brainKeySeparator inRun s).
Proof.
  revert inRun. induction s as [s IH] using length_induction. intros inRun.
  destruct (split_first brainKeySeparator s)
    as [Hf|(run & w & b & -> & Hrun & Hw)].
  - rewrite (splitRuns_free_all s) by exact Hf.
    apply splitRuns_free_all.
    now apply free_toUpperCase; [exact separator_isWhiteSpace|].
  - assert (Hb : (List.length b < List.length (run ++ w :: b))%nat)
      by (rewrite length_app; simpl; lia).
    rewrite toUpperCase_split by now apply separator_isWhiteSpace.
    destruct run as [|u run].
    + change (toUpperCase []) with (@nil codeUnit). cbn [app].
      rewrite !splitRuns_cons, Hw.
      destruct inRun; cbn [map]; now rewrite IH.
    + rewrite (splitRuns_free (u :: run)) by (discriminate || assumption).
      rewrite (splitRuns_free (toUpperCase (u :: run)));
        [|now rewrite toUpperCase_nil_iff
         |now apply free_toUpperCase; [exact separator_isWhiteSpace|]
         |exact Hw].
      cbn [map]. now rewrite IH.
Qed.

Lemma words_toUpperCase (s : t) :
  words (toUpperCase s) = map toUpperCase (words s).
Proof.
  unfold words, split. rewrite splitRuns_toUpperCase.
  induction (splitRuns brainKeySeparator false s) as [|p ps IH];
    [reflexivity|].
  cbn [map filter]. rewrite IH.
  destruct p as [|u p]; [reflexivity|].
  cbn [isEmpty negb map].
  destruct (toUpperCase (u :: p)) eqn:E; [|reflexivity].
  apply (proj1 (toUpperCase_nil_iff _)) in E. discriminate E.
Qed.

Lemma isWord_toUpperCase (w : t) : isWord w -> isWord (toUpperCase w).
Proof.
  intros [Hne Hf]. split.
  - now rewrite toUpperCase_nil_iff.
  - now apply free_toUpperCase; [exact separator_isWhiteSpace|].
Qed.

(** ** [normalize] in terms of words *)

Lemma normalize_words (s : t) :
  normalize s = join [space] (map toUpperCase (words (trim s))).
Proof.
  unfold normalize. rewrite literal_space.
  destruct (trim_clean s) as [Hs He].
  rewrite split_clean
    by (now apply startsClean_toUpperCase || now apply endsClean_toUpperCase).
  now rewrite words_toUpperCase.
Qed.

Lemma words_normalize (s : t) :
  words (normalize s) = map toUpperCase (words (trim s)).
Proof.
  rewrite normalize_words. apply words_join.
  pose proof (words_isWord (trim s)) as H.
  induction H; constructor; [now apply isWord_toUpperCase | assumption].
Qed.

Lemma normalize_same_words (s s' : t) :
  normalize s = normalize s' <->
  map toUpperCase (words (trim s)) = map toUpperCase (words (trim s')).
Proof.
  split.
  - intros H. rewrite <- !words_normalize. now rewrite H.
  - intros H. rewrite !normalize_words. now rewrite H.
Qed.

(** ** Normal forms *)

Lemma upperCased_normalize (s : t) : upperCased (normalize s) = true.
Proof.
  unfold upperCased. apply strictEquals_eq.
  rewrite normalize_collapseRuns, toUpperCase_collapseRuns.
  now rewrite toUpperCase_idempotent.
Qed.

Lemma singleSpaced_collapseRuns (inRun : bool) (s : t) :
  singleSpaced inRun (collapseRuns brainKeySeparator inRun s) = true.
Proof.
  revert inRun. induction s as [|u s IH]; intros inRun; [reflexivity|].
  cbn [collapseRuns].
  destruct (brainKeySeparator u) eqn:Hu; [destruct inRun|].
  - apply IH.
  - cbn [singleSpaced]. rewrite separator_space.
    rewrite (proj2 (unitEqb_eq space space) eq_refl). apply IH.
  - cbn [singleSpaced]. rewrite Hu. apply IH.
Qed.

Lemma singleSpaced_fixed (inRun : bool) (s : t) :
  singleSpaced inRun s = true -> collapseRuns brainKeySeparator inRun s = s.
Proof.
  revert inRun. induction s as [|u s IH]; intros inRun; [reflexivity|].
  cbn [singleSpaced collapseRuns]. destruct (brainKeySeparator u).
  - intros H. apply andb_prop in H as [H Hs]. apply andb_prop in H as [Hr Hu].
    apply unitEqb_eq in Hu. subst u.
    destruct inRun; [discriminate Hr|]. now rewrite IH.
  - intros H. now rewrite IH.
Qed.

Lemma normalize_isNormalized (s : t) : isNormalized (normalize s) = true.
Proof.
  unfold isNormalized. rewrite upperCased_normalize.
  rewrite normalize_collapseRuns.
  destruct (trim_clean s) as [Hs He].
  rewrite startsClean_collapseRuns by now apply startsClean_toUpperCase.
  rewrite endsClean_collapseRuns by now apply endsClean_toUpperCase.
  now rewrite singleSpaced_collapseRuns.
Qed.

Lemma isNormalized_fixed (s : t) :
  isNormalized s = true -> normalize s = s.
Proof.
  unfold isNormalized. intros H.
  apply andb_prop in H as [H Hsp]. apply andb_prop in H as [H Hup].
  apply andb_prop in H as [Hs He].
  apply strictEquals_eq in Hup.
  rewrite normalize_collapseRuns, (trim_fixed s Hs He), Hup.
  now apply singleSpaced_fixed.
Qed.

(** ** The empty result *)

Lemma trimStart_allWhiteSpace (s : t) :
  allWhiteSpace (trimStart s) = allWhiteSpace s.
Proof.
  induction s as [|u s IH]; [reflexivity|].
  cbn [trimStart]. destruct (isWhiteSpace u) eqn:Hu; [|reflexivity].
  rewrite IH. cbn [allWhiteSpace forallb]. now rewrite Hu.
Qed.

Lemma trimEnd_nil_iff (s : t) : trimEnd s = [] <-> allWhiteSpace s = true.
Proof.
  induction s as [|u s IH]; [now split|].
  rewrite trimEnd_cons. cbn [allWhiteSpace forallb].
  rewrite andb_true_iff. fold (allWhiteSpace s). rewrite <- IH.
  destruct (trimEnd s); [|now split; [discriminate | intros [_ H]]].
  destruct (isWhiteSpace u); split; intros H; easy.
Qed.

Lemma trim_nil_iff (s : t) : trim s = [] <-> allWhiteSpace s = true.
Proof. unfold trim. now rewrite trimEnd_nil_iff, trimStart_allWhiteSpace. Qed.

Lemma collapseRuns_false_nil_iff (s : t) :
  collapseRuns brainKeySeparator false s = [] <-> s = [].
Proof.
  split; [|now intros ->].
  destruct s as [|u s]; [reflexivity|].
  cbn [collapseRuns]. now destruct (brainKeySeparator u).
Qed.

Lemma normalize_empty_iff (s : t) :
  normalize s = [] <-> allWhiteSpace s = true.
Proof.
  rewrite normalize_collapseRuns, collapseRuns_false_nil_iff.
  now rewrite toUpperCase_nil_iff, trim_nil_iff.
Qed.

(** ** Lengths *)

Lemma length_trimStart (s : t) :
  (List.length (trimStart s) <= List.length s)%nat.
Proof.
  induction s as [|u s IH]; simpl; [lia|].
  destruct (isWhiteSpace u); simpl; lia.
Qed.

Lemma length_trimEnd (s : t) :
  (List.length (trimEnd s) <= List.length s)%nat.
Proof.
  induction s as [|u s IH]; [simpl; lia|].
  rewrite trimEnd_cons.
  destruct (trimEnd s); [destruct (isWhiteSpace u)|]; simpl in *; lia.
Qed.

Lemma length_collapseRuns (ws : codeUnit -> bool) (inRun : bool) (s : t) :
  (List.length (collapseRuns ws inRun s) <= List.length s)%nat.
Proof.
  revert inRun. induction s as [|u s IH]; intros inRun; simpl; [lia|].
  destruct (ws u); [destruct inRun|]; simpl.
  - specialize (IH true). lia.
  - specialize (IH true). lia.
  - specialize (IH false). lia.
Qed.

Lemma length_normalize (s : t) :
  (List.length (normalize s) <= List.length (toUpperCase s))%nat.
Proof.
  rewrite normalize_collapseRuns, <- trim_toUpperCase.
  pose proof (length_collapseRuns brainKeySeparator false
                                  (trim (toUpperCase s))) as H1.
  unfold trim in *.
  pose proof (length_trimEnd (trimStart (toUpperCase s))).
  pose proof (length_trimStart (toUpperCase s)). lia.
Qed.

End NormalizeWords.

(** X4. [normalize] writes the words of the trimmed phrase, upper-cased,
    with one space between two words; and the words of the result are
    those upper-cased words. *)
Theorem normalize_words_joined (s : JSString.t) :
  normalize s =
  JSString.join (JSString.literal " ")
                (map JSString.toUpperCase (words (JSString.trim s))) /\
  words (normalize s) = map JSString.toUpperCase (words (JSString.trim s)).
Proof.
  split; [rewrite literal_space; apply normalize_words | apply words_normalize].
Qed.

(** X5. Two phrases are normalized to the same string exactly when, once
    trimmed, they have the same words up to upper-casing. *)
Theorem normalize_eq_iff_same_words (s s' : JSString.t) :
  normalize s = normalize s' <->
  map JSString.toUpperCase (words (JSString.trim s)) =
  map JSString.toUpperCase (words (JSString.trim s')).
Proof. apply normalize_same_words. Qed.

(** X6. The result of [normalize] is in normal form (no white space at the
    ends, unchanged by upper-casing, single spaces as the only
    separators), and the strings in normal form are exactly those that
    [normalize] leaves unchanged. *)
Theorem normalize_normal_form (s : JSString.t) :
  isNormalized (normalize s) = true /\
  (normalize s = s <-> isNormalized s = true).
Proof.
  split; [apply normalize_isNormalized|].
  split.
  - intros H. rewrite <- H. apply normalize_isNormalized.
  - apply isNormalized_fixed.
Qed.

(** X7. [normalize] returns the empty string exactly for the phrases made of
    white space only (the empty phrase included); it rejects no phrase. *)
Theorem normalize_empty_iff_white (s : JSString.t) :
  normalize s = [] <-> allWhiteSpace s = true.
Proof. apply normalize_empty_iff. Qed.

(** X8. [normalize] is never longer than the upper-cased phrase: trimming
    and collapsing only shorten.  It can be longer than the phrase itself,
    through upper-casing: the sharp s becomes two letters. *)
Theorem normalize_length_le :
  (forall s : JSString.t,
      (List.length (normalize s) <= List.length (JSString.toUpperCase s))%nat) /\
  normalize [JSString.unitOf 0xDF] = JSString.literal "SS".
Proof. split; [apply length_normalize | reflexivity]. Qed.

(* ================================================================== *)
(** * Brain keys: [generateKeys], [getBrainKeyInfo],
      [createAccountWithBrainkey] *)
(* ================================================================== *)

Lemma generateKeys_normalize {L : KeyLibrary} (phrase : JSString.t) :
  generateKeys (normalize phrase) = generateKeys phrase.
Proof. unfold generateKeys. now rewrite normalize_idempotent. Qed.

(** X9. Phrases that, once trimmed, have the same words up to upper-casing
    give the same key pair: neither the case of the letters nor the kind
    and amount of white space around and between the words matters. *)
Theorem generateKeys_same_words
        {L : KeyLibrary} (phrase phrase' : JSString.t) :
  map JSString.toUpperCase (words (JSString.trim phrase)) =
  map JSString.toUpperCase (words (JSString.trim phrase')) ->
  generateKeys phrase = generateKeys phrase'.
Proof.
  intros H. apply normalize_same_words in H.
  unfold generateKeys. now rewrite H.
Qed.

Lemma generateKeys_same_words_witness :
  generateKeys (L := Mini.library)
    (JSString.unitOf 0xA0
       :: JSString.literal (String "009" " stra")
       ++ JSString.unitOf 0xDF
       :: JSString.literal (String "e" (String "010" (String "011" "Nr  "))))%list
  = generateKeys (L := Mini.library) (JSString.literal "STRASSE NR").
Proof.
  apply generateKeys_same_words. vm_compute. reflexivity.
Defined.

(** X10. [getBrainKeyInfo] and [createAccountWithBrainkey] normalize the phrase
    and hand the result to [generateKeys], which normalizes again: the
    keys are those of [generateKeys] on the phrase itself; the three keys
    of the registered account are one and the same public key; and the
    brain key stored in the info gives the same info back. *)
Theorem brainKey_callers
        {L : KeyLibrary} {K : KeyStrings L} (brainKey : JSString.t) :
  getBrainKeyInfo brainKey =
  (keys <- generateKeys brainKey ;;
   Ok {| BrainKeyInfo.brain_priv_key := normalize brainKey;
         BrainKeyInfo.pub_key := KeyPublic_stringKey (snd keys);
         BrainKeyInfo.wif_priv_key := KeyPrivate_stringKey (fst keys) |}) /\
  (forall info,
      getBrainKeyInfo brainKey = Ok info ->
      isNormalized (BrainKeyInfo.brain_priv_key info) = true /\
      getBrainKeyInfo (BrainKeyInfo.brain_priv_key info) = Ok info) /\
  (forall (P : Type) (registerAccount :
             string -> string -> string -> string -> string -> string -> P)
          accountName registrar registrarPrivateKey,
      createAccountWithBrainkey registerAccount brainKey accountName
                                registrar registrarPrivateKey =
      (keys <- generateKeys brainKey ;;
       let key := KeyPublic_stringKey (snd keys) in
       Ok (registerAccount accountName key key key
                           registrar registrarPrivateKey))).
Proof.
  assert (Hinfo : forall b,
             getBrainKeyInfo b =
             (keys <- generateKeys b ;;
              Ok {| BrainKeyInfo.brain_priv_key := normalize b;
                    BrainKeyInfo.pub_key := KeyPublic_stringKey (snd keys);
                    BrainKeyInfo.wif_priv_key :=
                      KeyPrivate_stringKey (fst keys) |})).
  { intros b. unfold getBrainKeyInfo. now rewrite generateKeys_normalize. }
  split; [apply Hinfo|]. split.
  - intros info. rewrite Hinfo.
    destruct (generateKeys brainKey) as [keys|e] eqn:Hk; [|discriminate].
    simpl. intros [= <-]. simpl. split; [apply normalize_isNormalized|].
    rewrite Hinfo, generateKeys_normalize, Hk. simpl.
    now rewrite normalize_idempotent.
  - intros P registerAccount accountName registrar registrarPrivateKey.
    unfold createAccountWithBrainkey. now rewrite generateKeys_normalize.
Qed.

(* ================================================================== *)
(** * El Gamal keys: [elGamalPrivate] into [elGamalPublic], wallet export *)
(* ================================================================== *)

Lemma hexDigit_nonneg (c : ascii) (d : Z) :
  BigInteger.hexDigit c = Some d -> (0 <= d < 16)%Z.
Proof.
  unfold BigInteger.hexDigit.
  set (n := Z.of_N (N_of_ascii c)).
  destruct ((48 <=? n) && (n <=? 57))%Z eqn:H1.
  - intros [= <-]. apply andb_prop in H1 as [H H']. lia.
  - destruct ((97 <=? n) && (n <=? 102))%Z eqn:H2.
    + intros [= <-]. apply andb_prop in H2 as [H H']. lia.
    + destruct ((65 <=? n) && (n <=? 70))%Z eqn:H3; [|discriminate].
      intros [= <-]. apply andb_prop in H3 as [H H']. lia.
Qed.

Lemma parseHexFrom_nonneg (text : string) :
  forall acc n,
    (0 <= acc)%Z -> BigInteger.parseHexFrom acc text = Ok n -> (0 <= n)%Z.
Proof.
  induction text as [|c text IH]; intros acc n Hacc; simpl.
  - now intros [= <-].
  - destruct (BigInteger.hexDigit c) as [d|] eqn:Hd; [|discriminate].
    apply hexDigit_nonneg in Hd. apply IH. lia.
Qed.

Lemma allDigits_string_of_uint (d : Decimal.uint) :
  allDigits (NilEmpty.string_of_uint d) = true.
Proof. induction d; simpl; trivial. Qed.

Lemma toString_validScalarString (n : Z) :
  (0 <= n)%Z -> validScalarString (BigInteger.toString n) = true.
Proof.
  intros Hn. unfold BigInteger.toString, validScalarString.
  destruct n as [|p|p]; [reflexivity| |lia].
  simpl. unfold NilZero.string_of_uint.
  pose proof (DecimalPos.Unsigned.to_uint_nonnil p) as Hnil.
  pose proof (allDigits_string_of_uint (Pos.to_uint p)) as Hall.
  destruct (Pos.to_uint p); try contradiction; exact Hall.
Qed.

Lemma elGamalPrivate_Ok {L : KeyLibrary} (wif s : string) :
  elGamalPrivate wif = Ok s ->
  exists pKey n,
    KeyPrivate_fromWif wif = Ok pKey /\
    BigInteger.parseBase16 (sha512 (KeyPrivate_d_toBuffer pKey)) = Ok n /\
    (0 <= n)%Z /\ s = BigInteger.toString n.
Proof.
  unfold elGamalPrivate, privateKeyFromWif.
  destruct (KeyPrivate_fromWif wif) as [pKey|e]; simpl; [|discriminate].
  destruct (BigInteger.parseBase16 (sha512 (KeyPrivate_d_toBuffer pKey)))
    as [n|e] eqn:Hn; simpl; [|discriminate].
  intros [= <-]. exists pKey, n.
  split; [reflexivity|]. split; [exact Hn|]. split; [|reflexivity].
  eapply (parseHexFrom_nonneg _ 0%Z n); [lia | exact Hn].
Qed.

Lemma elGamalPublic_after_elGamalPrivate {L : KeyLibrary} (wif s : string) :
  elGamalPrivate wif = Ok s ->
  exists n,
    (0 <= n)%Z /\ s = BigInteger.toString n /\
    elGamalPublic s =
    Ok (BigInteger.toString ((3 ^ n) mod elGamalModulus)%Z).
Proof.
  intros H. apply elGamalPrivate_Ok in H as (pKey & n & _ & _ & Hn & ->).
  exists n. repeat split; [assumption|].
  apply elGamalPublic_of_scalar; [apply parse_toString | assumption].
Qed.

(** X11. Whatever [elGamalPrivate] returns is a valid scalar string, and
    [elGamalPublic] accepts it: the derivation of the public half from a
    derived private half never throws. *)
Theorem elGamalPublic_accepts_elGamalPrivate
        {L : KeyLibrary} (privateKeyWif elGPriv : string) :
  elGamalPrivate privateKeyWif = Ok elGPriv ->
  validScalarString elGPriv = true /\
  exists n,
    BigInteger.parse elGPriv = Ok n /\ (0 <= n)%Z /\
    elGamalPublic elGPriv =
    Ok (BigInteger.toString ((3 ^ n) mod elGamalModulus)%Z).
Proof.
  intros H.
  destruct (elGamalPublic_after_elGamalPrivate _ _ H) as (n & Hn & -> & Hpub).
  split; [now apply toString_validScalarString|].
  exists n. split; [apply parse_toString|]. now split.
Qed.

Lemma elGamalPublic_accepts_elGamalPrivate_witness :
  validScalarString "624" = true /\
  exists n,
    BigInteger.parse "624" = Ok n /\ (0 <= n)%Z /\
    elGamalPublic "624" =
    Ok (BigInteger.toString ((3 ^ n) mod elGamalModulus)%Z).
Proof.
  apply (elGamalPublic_accepts_elGamalPrivate (L := Mini.library) "5" "624").
  vm_compute. reflexivity.
Defined.

(** ** The public half is never zero *)

Lemma elGamalModulus_coprime_3 : Z.gcd elGamalModulus 3 = 1%Z.
Proof. vm_compute. reflexivity. Qed.

Lemma pow3_mod_elGamalModulus_nonzero (n : Z) :
  (0 <= n)%Z -> ((3 ^ n) mod elGamalModulus <> 0)%Z.
Proof.
  intros Hn H.
  pose proof elGamalModulus_gt_1 as Hm.
  apply Z.mod_divide in H; [|lia].
  pose proof (Z.coprime_pow_r elGamalModulus 3 n Hn
                              elGamalModulus_coprime_3) as Hc.
  unfold Z.coprime in Hc.
  pose proof (Z.gcd_greatest elGamalModulus (3 ^ n) elGamalModulus
                             (Z.divide_refl _) H) as Hd.
  rewrite Hc in Hd. apply Z.divide_1_r_nonneg in Hd; lia.
Qed.

(** X12. For a valid scalar string the public half is a number from 1 to the
    modulus minus 1: it is never zero. *)
Theorem elGamalPublic_never_zero (s : string) :
  validScalarString s = true ->
  exists r : Z,
    elGamalPublic s = Ok (BigInteger.toString r) /\
    (1 <= r < elGamalModulus)%Z.
Proof.
  intros Hs. destruct (parse_validScalarString s Hs) as (n & Hn & Hp).
  exists ((3 ^ n) mod elGamalModulus)%Z.
  split; [now apply elGamalPublic_of_scalar|].
  pose proof elGamalModulus_gt_1 as Hm.
  pose proof (pow3_mod_elGamalModulus_nonzero n Hn).
  pose proof (Z.mod_pos_bound (3 ^ n) elGamalModulus ltac:(lia)). lia.
Qed.

Lemma elGamalPublic_never_zero_witness :
  exists r : Z,
    elGamalPublic "0" = Ok (BigInteger.toString r) /\
    (1 <= r < elGamalModulus)%Z.
Proof. apply elGamalPublic_never_zero. reflexivity. Defined.

(** X13. The public half of a sum of private scalars is the product, modulo
    the modulus, of the public halves. *)
Theorem elGamalPublic_add (a b : Z) :
  (0 <= a)%Z -> (0 <= b)%Z ->
  exists ya yb : Z,
    elGamalPublic (BigInteger.toString a) = Ok (BigInteger.toString ya) /\
    elGamalPublic (BigInteger.toString b) = Ok (BigInteger.toString yb) /\
    elGamalPublic (BigInteger.toString (a + b)) =
    Ok (BigInteger.toString ((ya * yb) mod elGamalModulus)%Z).
Proof.
  intros Ha Hb.
  exists ((3 ^ a) mod elGamalModulus)%Z, ((3 ^ b) mod elGamalModulus)%Z.
  pose proof elGamalModulus_gt_1 as Hm.
  rewrite !(fun n H => elGamalPublic_of_scalar _ n (parse_toString n) H)
    by lia.
  repeat split.
  now rewrite <- Z.mul_mod, <- Z.pow_add_r by lia.
Qed.

Lemma elGamalPublic_add_witness :
  exists ya yb : Z,
    elGamalPublic (BigInteger.toString 2) = Ok (BigInteger.toString ya) /\
    elGamalPublic (BigInteger.toString 3) = Ok (BigInteger.toString yb) /\
    elGamalPublic (BigInteger.toString (2 + 3)) =
    Ok (BigInteger.toString ((ya * yb) mod elGamalModulus)%Z).
Proof. apply elGamalPublic_add; lia. Defined.

(** ** [Array.prototype.map] with a throwing callback *)

Lemma mapResult_Ok {A B : Type} (f : A -> result B) (l : list A) (ys : list B) :
  mapResult f l = Ok ys -> Forall2 (fun x y => f x = Ok y) l ys.
Proof.
  revert ys. induction l as [|x l IH]; intros ys; simpl.
  - intros [= <-]. constructor.
  - destruct (f x) as [y|e] eqn:Hx; simpl; [|discriminate].
    destruct (mapResult f l) as [ys'|e]; simpl; [|discriminate].
    intros [= <-]. constructor; [assumption | now apply IH].
Qed.

Lemma mapResult_total {A B : Type} (f : A -> result B) (l : list A) :
  (forall x, In x l -> exists y, f x = Ok y) ->
  exists ys, mapResult f l = Ok ys.
Proof.
  induction l as [|x l IH]; intros H; simpl.
  - now eexists.
  - destruct (H x (or_introl eq_refl)) as [y ->].
    destruct IH as [ys ->]; [intros z Hz; apply H; now right|].
    simpl. now eexists.
Qed.

Lemma mapResult_Throw {A B : Type} (f : A -> result B) (l : list A) (e : exn) :
  (forall x e', In x l -> f x = Throw e' -> e' = e) ->
  (exists x e', In x l /\ f x = Throw e') ->
  mapResult f l = Throw e.
Proof.
  induction l as [|x l IH]; intros Hu (z & e' & Hin & Hz); [contradiction|].
  simpl. destruct (f x) as [y|e''] eqn:Hx; simpl.
  - destruct Hin as [<- | Hin]; [congruence|].
    rewrite IH; [reflexivity | |].
    + intros x' e0 Hx' H0. apply (Hu x' e0); [now right | assumption].
    + now exists z, e'.
  - f_equal. apply (Hu x e''); [now left | assumption].
Qed.

Section WalletExportFacts.
Context {L : KeyLibrary}.

Lemma derivePair_Ok (pk : string) (pair : ElGamalPair.t) :
  exportWallet_derivePair pk = Ok pair ->
  elGamalPrivate pk = Ok (ElGamalPair.private_s pair) /\
  elGamalPublic (ElGamalPair.private_s pair) = Ok (ElGamalPair.public_s pair).
Proof.
  unfold exportWallet_derivePair.
  destruct (elGamalPrivate pk) as [s|e]; simpl; [|discriminate].
  destruct (elGamalPublic s) as [p|e] eqn:Hp; simpl; [|discriminate].
  intros [= <-]. now split.
Qed.

Lemma derivePair_Throw (pk : string) (e : exn) :
  exportWallet_derivePair pk = Throw e ->
  e = Error UtilsError.wrong_private_key.
Proof.
  unfold exportWallet_derivePair.
  destruct (elGamalPrivate pk) as [s|e'] eqn:Hs; simpl.
  - destruct (elGamalPublic_after_elGamalPrivate pk s Hs) as (n & _ & _ & ->).
    discriminate.
  - intros [= <-]. now apply (elGamalPrivate_failure pk).
Qed.

Lemma completePair_Ok (elGPriv : string) (pair : ElGamalPair.t) :
  exportWallet_completePair elGPriv = Ok pair ->
  ElGamalPair.private_s pair = elGPriv /\
  elGamalPublic elGPriv = Ok (ElGamalPair.public_s pair).
Proof.
  unfold exportWallet_completePair.
  destruct (elGamalPublic elGPriv) as [p|e]; simpl; [|discriminate].
  intros [= <-]. now split.
Qed.

Lemma exportWallet_elGamalKeys_Ok_aux
      (privateKeys additional : list string) (pairs : list ElGamalPair.t) :
  exportWallet_elGamalKeys privateKeys additional = Ok pairs ->
  exists derived given,
    pairs = (derived ++ given)%list /\
    Forall2 (fun pk pair => elGamalPrivate pk = Ok (ElGamalPair.private_s pair))
            privateKeys derived /\
    map ElGamalPair.private_s given = additional /\
    Forall (fun pair => elGamalPublic (ElGamalPair.private_s pair)
                        = Ok (ElGamalPair.public_s pair)) pairs.
Proof.
  unfold exportWallet_elGamalKeys.
  destruct (mapResult exportWallet_derivePair privateKeys)
    as [derived|e] eqn:H1;
    simpl; [|discriminate].
  destruct (mapResult exportWallet_completePair additional) as [given|e] eqn:H2;
    simpl; [|discriminate].
  intros [= <-]. exists derived, given.
  apply mapResult_Ok in H1. apply mapResult_Ok in H2.
  split; [reflexivity|]. split; [|split].
  - clear H2. induction H1 as [|pk pair pks ps Hp _ IH]; constructor.
    + now apply derivePair_Ok in Hp.
    + exact IH.
  - clear H1. induction H2 as [|s pair ss ps Hp _ IH]; [reflexivity|].
    simpl. apply completePair_Ok in Hp as [-> _]. now rewrite IH.
  - apply Forall_app. split.
    + clear H2. induction H1 as [|pk pair pks ps Hp _ IH]; constructor.
      * now apply derivePair_Ok in Hp.
      * exact IH.
    + clear H1. induction H2 as [|s pair ss ps Hp _ IH]; constructor.
      * apply completePair_Ok in Hp as [-> Hp]. exact Hp.
      * exact IH.
Qed.

Lemma exportWallet_elGamalKeys_Throw_aux
      (privateKeys additional : list string) :
  (exists pk e, In pk privateKeys /\ KeyPrivate_fromWif pk = Throw e) ->
  exportWallet_elGamalKeys privateKeys additional =
  Throw (Error UtilsError.wrong_private_key).
Proof.
  intros (pk & e & Hin & Hpk).
  unfold exportWallet_elGamalKeys.
  rewrite (mapResult_Throw exportWallet_derivePair privateKeys
                           (Error UtilsError.wrong_private_key)).
  - reflexivity.
  - intros x e' _. apply derivePair_Throw.
  - exists pk, (Error UtilsError.wrong_private_key). split; [assumption|].
    unfold exportWallet_derivePair.
    now rewrite (elGamalPrivate_malformed pk e Hpk).
Qed.

Lemma exportWallet_elGamalKeys_total_aux
      (privateKeys additional : list string) :
  (forall pk, In pk privateKeys -> exists s, elGamalPrivate pk = Ok s) ->
  (forall s, In s additional -> validScalarString s = true) ->
  exists pairs, exportWallet_elGamalKeys privateKeys additional = Ok pairs.
Proof.
  intros Hpk Hadd. unfold exportWallet_elGamalKeys.
  destruct (mapResult_total exportWallet_derivePair privateKeys)
    as [derived ->].
  { intros pk Hin. destruct (Hpk pk Hin) as [s Hs].
    unfold exportWallet_derivePair.
    rewrite Hs. simpl.
    destruct (elGamalPublic_after_elGamalPrivate pk s Hs) as (n & _ & _ & ->).
    simpl. now eexists. }
  destruct (mapResult_total exportWallet_completePair additional) as [given ->].
  { intros s Hin. unfold exportWallet_completePair.
    destruct (parse_validScalarString s (Hadd s Hin)) as (n & Hn & Hp).
    rewrite (elGamalPublic_of_scalar s n Hp Hn). simpl. now eexists. }
  simpl. now eexists.
Qed.

End WalletExportFacts.

(** X14. When the El Gamal part of a wallet export is built, it holds one pair
    for each private key, in order, followed by one pair for each
    additional key, stored as given; in every pair the public half is
    [elGamalPublic] of the private half. *)
Theorem exportWallet_elGamalKeys_Ok
        {L : KeyLibrary} (privateKeys additional : list string)
        (pairs : list ElGamalPair.t) :
  exportWallet_elGamalKeys privateKeys additional = Ok pairs ->
  exists derived given,
    pairs = (derived ++ given)%list /\
    Forall2 (fun pk pair => elGamalPrivate pk = Ok (ElGamalPair.private_s pair))
            privateKeys derived /\
    map ElGamalPair.private_s given = additional /\
    Forall (fun pair => elGamalPublic (ElGamalPair.private_s pair)
                        = Ok (ElGamalPair.public_s pair)) pairs.
Proof. apply exportWallet_elGamalKeys_Ok_aux. Qed.

Lemma exportWallet_elGamalKeys_Ok_witness :
  let pairs :=
    [ {| ElGamalPair.private_s := "624";
         ElGamalPair.public_s :=
           "3163079205183370940113182867068577353686869662509764926955314026558615410753718373063631330492784370537663534570246672420547289659004496745824556861239383" |};
      {| ElGamalPair.private_s := "33430";
         ElGamalPair.public_s :=
           "10680803951509324303912988680917166304598033827130587472678798067280313211620099680579950187803316331709442982829542927249851419388992188368276609758636223" |};
      {| ElGamalPair.private_s := "2"; ElGamalPair.public_s := "9" |};
      {| ElGamalPair.private_s := "0"; ElGamalPair.public_s := "1" |} ] in
  exists derived given,
    pairs = (derived ++ given)%list /\
    Forall2 (fun pk pair =>
               elGamalPrivate (L := Mini.library) pk
               = Ok (ElGamalPair.private_s pair))
            ["5"; "12"] derived /\
    map ElGamalPair.private_s given = ["2"; "0"] /\
    Forall (fun pair => elGamalPublic (ElGamalPair.private_s pair)
                        = Ok (ElGamalPair.public_s pair))
           pairs.
Proof.
  intros pairs.
  apply (exportWallet_elGamalKeys_Ok (L := Mini.library)
                                     ["5"; "12"] ["2"; "0"]).
  vm_compute. reflexivity.
Defined.

(** X15. A private key that does not decode, anywhere in the list, makes the
    construction of the El Gamal part fail with [wrong_private_key],
    whatever the additional keys; when every private key derives and every
    additional key is a valid scalar string, the construction succeeds. *)
Theorem exportWallet_elGamalKeys_failure
        {L : KeyLibrary} (privateKeys additional : list string) :
  ((exists pk e, In pk privateKeys /\ KeyPrivate_fromWif pk = Throw e) ->
   exportWallet_elGamalKeys privateKeys additional =
   Throw (Error UtilsError.wrong_private_key)) /\
  ((forall pk, In pk privateKeys -> exists s, elGamalPrivate pk = Ok s) ->
   (forall s, In s additional -> validScalarString s = true) ->
   exists pairs, exportWallet_elGamalKeys privateKeys additional = Ok pairs).
Proof.
  split.
  - apply exportWallet_elGamalKeys_Throw_aux.
  - apply exportWallet_elGamalKeys_total_aux.
Qed.

(* ================================================================== *)
(** * [Validator] *)
(* ================================================================== *)

Section ValidatorFacts.
Import JS Validator.
Local Open Scope logged_scope.

Lemma validateEach_typeNames (args : list value) (names : list string) :
  List.length args = List.length names ->
  validateEach args (map VString names) =
  ([], Ok (forallb (fun p => String.eqb (typeOf (fst p)) (snd p))
                   (combine args names))).
Proof.
  revert names. induction args as [|arg args IH]; intros names Hlen.
  - destruct names; [reflexivity | discriminate].
  - destruct names as [|name names]; [discriminate|].
    injection Hlen as Hlen. simpl.
    destruct (String.eqb (typeOf arg) name); simpl.
    + now rewrite IH.
    + reflexivity.
Qed.

Lemma forallb_combine_Forall2 {A B : Type} (p : A -> B -> bool)
      (l : list A) (l' : list B) :
  List.length l = List.length l' ->
  forallb (fun q => p (fst q) (snd q)) (combine l l') = true <->
  Forall2 (fun a b => p a b = true) l l'.
Proof.
  revert l'. induction l as [|a l IH]; intros l' Hlen.
  - destruct l'; [|discriminate]. split; [constructor | reflexivity].
  - destruct l' as [|b l']; [discriminate|]. injection Hlen as Hlen.
    simpl. rewrite andb_true_iff, (IH l' Hlen). split.
    + intros [H1 H2]. now constructor.
    + intros H. inversion H; subst. now split.
Qed.

Lemma validateArguments_typeNames_aux (args : list value)
      (names : list string) :
  exists b,
    validateArguments args (map VString names) = ([], Ok b) /\
    (b = true <-> Forall2 (fun arg name => typeOf arg = name) args names).
Proof.
  unfold validateArguments. rewrite length_map.
  destruct (Nat.eqb_spec (List.length args) (List.length names)) as [Hlen|Hlen];
    simpl.
  - eexists. split; [now apply validateEach_typeNames|].
    rewrite (forallb_combine_Forall2
               (fun arg name => String.eqb (typeOf arg) name)) by assumption.
    split; apply Forall2_impl; intros arg name; apply String.eqb_eq.
  - exists false. split; [reflexivity|].
    split; [discriminate|].
    intros H. apply Forall2_length in H. contradiction.
Qed.

Lemma validateElements_typeName (name : string) (elems : list value) :
  validateElements (VString name) elems =
  (examined (fun el => String.eqb (typeOf el) name) elems,
   Ok (forallb (fun el => String.eqb (typeOf el) name) elems)).
Proof.
  induction elems as [|el elems IH]; [reflexivity|].
  simpl. destruct (String.eqb (typeOf el) name); simpl.
  - now rewrite IH.
  - reflexivity.
Qed.

Lemma validateElements_unchecked (ofType : value) (elems : list value) :
  typeOf ofType <> Type_.string -> typeOf ofType <> Type_.function ->
  validateElements ofType elems = ([], Ok true).
Proof.
  intros Hs Hf. apply String.eqb_neq in Hs, Hf.
  induction elems as [|el elems IH]; [reflexivity|].
  simpl. now rewrite Hs, Hf.
Qed.

Lemma forEach_checkKey_all_null (instance : list (string * value))
      (object : value) (l : list string) (isValid : bool) :
  (forall key, In key l -> lookup key instance = VNull) ->
  forEach (checkKey instance object) l isValid = Ok isValid.
Proof.
  induction l as [|key l IH]; intros H; [reflexivity|].
  simpl. unfold checkKey at 1. rewrite (H key) by now left.
  simpl. apply IH. intros k Hk. apply H. now right.
Qed.

Lemma lookup_all_null (instance : list (string * value)) (key : string) :
  Forall (fun kv => snd kv = VNull) instance ->
  In key (keys instance) -> lookup key instance = VNull.
Proof.
  induction 1 as [|[k v] rest Hv _ IH]; [contradiction|].
  simpl in *. subst v.
  destruct (String.eqb k key) eqn:E; [reflexivity|].
  intros [-> | Hin]; [now rewrite String.eqb_refl in E | now apply IH].
Qed.

Lemma forEach_checkKey_null_object (instance : list (string * value))
      (l : list string) (isValid : bool) :
  (exists key, In key l /\ lookup key instance <> VNull) ->
  exists e, forEach (checkKey instance VNull) l isValid = Throw e.
Proof.
  induction l as [|key l IH]; intros (k & Hin & Hk); [contradiction|].
  simpl. unfold checkKey at 1.
  destruct (isNull (lookup key instance)) eqn:Hnull.
  - simpl. apply IH. destruct Hin as [-> | Hin].
    + destruct (lookup k instance); try discriminate Hnull.
      now contradiction Hk.
    + now exists k.
  - simpl. now eexists.
Qed.

End ValidatorFacts.

(** X16. With type names for types, [validateArguments] prints nothing, does
    not throw, and answers [true] exactly when there are as many arguments
    as names and each argument has the [typeof] that its name says. *)
Theorem validateArguments_typeNames
        (args : list JS.value) (names : list string) :
  exists b,
    Validator.validateArguments args (map JS.VString names) = ([], Ok b) /\
    (b = true <->
     Forall2 (fun arg name => JS.typeOf arg = name) args names).
Proof. apply validateArguments_typeNames_aux. Qed.

(** X17. With a type name for element type, [validateArray] answers whether
    every element of the array has that [typeof], and prints to the
    console every element it examines: all of them when the array is
    valid, those up to the first offending one otherwise. *)
Theorem validateArray_typeName
        (elems : list JS.value) (props : list (string * JS.value))
        (name : string) :
  Validator.validateArray (JS.VArray elems props) (JS.VString name) =
  (examined (fun el => String.eqb (JS.typeOf el) name) elems,
   Ok (forallb (fun el => String.eqb (JS.typeOf el) name) elems)).
Proof. apply validateElements_typeName. Qed.

(** X18. When the element type is neither a string nor a class (a tuple
    without second component, say), [validateArray] looks at no element:
    every array passes, and so does every argument that is an array when
    [validateArguments] meets such a tuple. *)
Theorem validateArray_unchecked
        (elems : list JS.value) (props : list (string * JS.value))
        (ofType : JS.value) :
  JS.typeOf ofType <> Type_.string ->
  JS.typeOf ofType <> Type_.function ->
  Validator.validateArray (JS.VArray elems props) ofType = ([], Ok true) /\
  (forall tuple tprops,
      nth 1 tuple JS.VUndefined = ofType ->
      Validator.validateArguments
        [JS.VArray elems props] [JS.VArray tuple tprops] = ([], Ok true)).
Proof.
  intros Hs Hf. split.
  - now apply validateElements_unchecked.
  - intros tuple tprops Hnth. unfold Validator.validateArguments. simpl.
    rewrite Hnth. simpl.
    now rewrite validateElements_unchecked.
Qed.

Lemma validateArray_unchecked_witness :
  Validator.validateArray
    (JS.VArray [JS.VNumber 1; JS.VNull] []) JS.VUndefined = ([], Ok true) /\
  (forall tuple tprops,
      nth 1 tuple JS.VUndefined = JS.VUndefined ->
      Validator.validateArguments
        [JS.VArray [JS.VNumber 1; JS.VNull] []] [JS.VArray tuple tprops]
      = ([], Ok true)).
Proof.
  apply validateArray_unchecked; discriminate.
Defined.

(** X19. A class all of whose fields start as [null], as [MinerUpdateData]
    does, validates nothing: [validateObject] accepts every value whose
    [typeof] is ["object"], [null] and arrays included. *)
Theorem validateObject_all_null
        (instance : list (string * JS.value)) (object : JS.value) :
  Forall (fun kv => snd kv = JS.VNull) instance ->
  JS.typeOf object = Type_.object ->
  Validator.validateObject object (JS.VFunction instance) = Ok true.
Proof.
  intros Hnull Hobj. unfold Validator.validateObject.
  rewrite Hobj. simpl.
  apply forEach_checkKey_all_null.
  intros key Hin. now apply lookup_all_null.
Qed.

Lemma validateObject_all_null_witness :
  Validator.validateObject JS.VNull MinerUpdateData = Ok true.
Proof.
  apply validateObject_all_null.
  - repeat constructor.
  - reflexivity.
Defined.

(** X20. [validateObject] answers [false] for a value whose [typeof] is not
    ["object"]; for [null], whose [typeof] is ["object"], it throws as soon
    as the class has a field that does not start as [null], and so does
    [validateArguments] on such an argument. *)
Theorem validateObject_null_throws
        (instance : list (string * JS.value)) :
  (forall object,
      JS.typeOf object <> Type_.object ->
      Validator.validateObject object (JS.VFunction instance) = Ok false) /\
  ((exists key, In key (JS.keys instance) /\
                JS.lookup key instance <> JS.VNull) ->
   (exists e,
       Validator.validateObject JS.VNull (JS.VFunction instance) = Throw e) /\
   (exists e,
       Validator.validateArguments [JS.VNull] [JS.VFunction instance]
       = ([], Throw e))).
Proof.
  split.
  - intros object H. apply String.eqb_neq in H.
    unfold Validator.validateObject. now rewrite H.
  - intros H.
    destruct (forEach_checkKey_null_object instance (JS.keys instance) true H)
      as [e He].
    split; exists e.
    + exact He.
    + unfold Validator.validateArguments, Validator.validateObject. simpl.
      unfold Validator.validateObject. simpl. now rewrite He.
Qed.

Lemma forEach_checkKey_object (instance props : list (string * JS.value))
      (object : JS.value) (l : list string) (isValid : bool) :
  (forall key, JS.get object key = Ok (JS.lookup key props)) ->
  forEach (Validator.checkKey instance object) l isValid =
  Ok (isValid && forallb (fieldAgrees instance props) l).
Proof.
  intros Hget. revert isValid.
  induction l as [|key l IH]; intros isValid.
  - simpl. now rewrite andb_true_r.
  - simpl. unfold Validator.checkKey at 1. unfold fieldAgrees at 1.
    destruct (JS.isNull (JS.lookup key instance)); simpl.
    + apply IH.
    + rewrite Hget. simpl.
      destruct (String.eqb (JS.typeOf (JS.lookup key instance))
                           (JS.typeOf (JS.lookup key props))); simpl.
      * apply IH.
      * rewrite IH. now rewrite andb_false_r.
Qed.

(** X21. On an object or an array, [validateObject] never throws; it
    answers [true] exactly when every field of the class whose initial
    value is not [null] has, in the object, a property of the same
    [typeof].  The values of the properties, and the properties that the
    class does not have, play no role. *)
Theorem validateObject_fields
        (instance props : list (string * JS.value)) (elems : list JS.value) :
  Validator.validateObject (JS.VObject props) (JS.VFunction instance) =
  Ok (forallb (fieldAgrees instance props) (JS.keys instance)) /\
  Validator.validateObject (JS.VArray elems props) (JS.VFunction instance) =
  Ok (forallb (fieldAgrees instance props) (JS.keys instance)).
Proof.
  unfold Validator.validateObject. simpl.
  split; now rewrite (forEach_checkKey_object instance props).
Qed.

(* ================================================================== *)
(** * [SubscriptionModule] *)
(* ================================================================== *)

(** X22. [listActiveSubscriptionByConsumer] never fulfils its promise: when the
    database answers, the answer is printed to the console and the promise
    stays pending.  The three other methods fulfil their promise exactly
    when the database fulfils its own, with the same value and without
    printing; and [listSubscriptionsByAuthor] sends the operation of
    [listSubscriptionsByConsumer], with the author in the place of the
    consumer. *)
Theorem SubscriptionModule_settlement
        {B : SubscriptionBackend} (id : string) (count : option Z) :
  (forall res,
      snd (SubscriptionModule.listActiveSubscriptionByConsumer id count)
      <> Promise.Fulfilled res) /\
  (forall res,
      dbApi_execute
        (DatabaseOperations.ListActiveSubscriptionsByConsumer
           id (SubscriptionModule.countOrDefault count))
      = Ok (Promise.Fulfilled res) ->
      SubscriptionModule.listActiveSubscriptionByConsumer id count
      = ([res], Promise.Pending)) /\
  (forall res,
      SubscriptionModule.listSubscriptionsByConsumer id count
      = ([], Promise.Fulfilled res) <->
      dbApi_execute
        (DatabaseOperations.ListSubscriptionsByConsumer
           id (SubscriptionModule.countOrDefault count))
      = Ok (Promise.Fulfilled res)) /\
  (forall res,
      SubscriptionModule.listActiveSubscriptionsByAuthor id count
      = ([], Promise.Fulfilled res) <->
      dbApi_execute
        (DatabaseOperations.ListActiveSubscriptionsByAuthor
           id (SubscriptionModule.countOrDefault count))
      = Ok (Promise.Fulfilled res)) /\
  SubscriptionModule.listSubscriptionsByAuthor id count =
  SubscriptionModule.listSubscriptionsByConsumer id count.
Proof.
  unfold SubscriptionModule.listActiveSubscriptionByConsumer,
    SubscriptionModule.listSubscriptionsByConsumer,
    SubscriptionModule.listActiveSubscriptionsByAuthor,
    SubscriptionModule.listSubscriptionsByAuthor,
    SubscriptionModule.executeThenCatch.
  split; [|split; [|split; [|split]]].
  - intros res.
    destruct (dbApi_execute _) as [[r|err|]|e]; simpl; discriminate.
  - intros res H. now rewrite H.
  - intros res.
    destruct (dbApi_execute _) as [[r|err|]|e]; simpl;
      (split; [intros [= ->] | intros [= ->]]); reflexivity || discriminate.
  - intros res.
    destruct (dbApi_execute _) as [[r|err|]|e]; simpl;
      (split; [intros [= ->] | intros [= ->]]); reflexivity || discriminate.
  - reflexivity.
Qed.
